(** * Fashion catalogue API: a shallow embedding of the route handlers

    The repository is an Express application: six routers (products,
    variants, colors, styles, collections, brands) and the application file
    that mounts them, each handler being "parse, query the store, answer".
    The handlers are embedded as functions from a request and a store to a
    response and a store.

    Conventions of the embedding.
    - A JavaScript Number that holds an integer is a [Z]; [NaN] and the two
      infinities are separate constructors of [Js.Number].  A JSON numeral
      is read as the nearest double, and [parseInt] of a Number goes through
      its print, as in the language.  Arithmetic on integers is exact: this
      is what the handlers compute on safe integers (magnitudes below 2^53),
      and the properties of the stock arithmetic are stated for those.
    - A string is held as the bytes of its UTF-8 form.  [trim] and
      [parseInt] strip the white space of the language, ASCII or not;
      [toUpperCase] is written out for ASCII and is a parameter beyond.
    - Request bodies and query strings are records of optional members: a
      member that is [None] is [undefined] in the handler, a member that is
      present has the type the handler uses it at.  The two handlers that
      hand a whole body to the store take its other members as well, as
      JSON values.
    - The ORM client is an external library.  Its calls are embedded by what
      they do to in-memory tables (lists of rows, in storage order).  What
      the repository does not determine about the store is a parameter of
      the section [Api] (the collation used by [orderBy], case-insensitive
      matching, decimal prices, generated identifiers, update data beyond
      the columns) or is marked as modelled from the specification (the
      constraints of the schema file, which is not among the sources).
    - A rejected promise is a thrown [Error]; every handler body runs inside
      [try_catch], like the [try { ... } catch (error) { ... }] of the
      source.  The store keeps what a handler wrote before a later statement
      threw: the handlers use no transaction. *)

From Stdlib Require Import ZArith List String Ascii Bool Lia DecimalString DecimalPos.
Import ListNotations.
Open Scope string_scope.
Open Scope Z_scope.

(** * JavaScript primitives used by the handlers *)

Module Js.

Inductive Number : Type :=
| NaN
| PosInfinity
| NegInfinity
| Int (z : Z).

(** ** Strings *)

(** The UTF-8 form of a code point. *)
Definition utf8 (cp : N) : string :=
  let byte (n : N) := ascii_of_N n in
  (if cp <? 0x80 then String (byte cp) ""
   else if cp <? 0x800
   then String (byte (0xC0 + cp / 64)) (String (byte (0x80 + cp mod 64)) "")
   else if cp <? 0x10000
   then String (byte (0xE0 + cp / 4096))
          (String (byte (0x80 + (cp / 64) mod 64))
             (String (byte (0x80 + cp mod 64)) ""))
   else String (byte (0xF0 + cp / 262144))
          (String (byte (0x80 + (cp / 4096) mod 64))
             (String (byte (0x80 + (cp / 64) mod 64))
                (String (byte (0x80 + cp mod 64)) ""))))%N.

(** The white space and line terminator code points of the language, which
    [trim] and [parseInt] strip: tab, line feed, vertical tab, form feed,
    carriage return, space, no-break space, the other space separators, the
    line and paragraph separators and the byte order mark. *)
Definition whiteSpace : list N :=
  [0x9; 0xA; 0xB; 0xC; 0xD; 0x20; 0xA0; 0x1680;
   0x2000; 0x2001; 0x2002; 0x2003; 0x2004; 0x2005; 0x2006; 0x2007; 0x2008;
   0x2009; 0x200A; 0x2028; 0x2029; 0x202F; 0x205F; 0x3000; 0xFEFF]%N.

(** What follows [p] in [s], when [s] starts with [p]. *)
Fixpoint after_prefix (p s : string) : option string :=
  match p, s with
  | EmptyString, _ => Some s
  | String a p', String b s' => if Ascii.eqb a b then after_prefix p' s' else None
  | String _ _, EmptyString => None
  end.

(** What follows the first of the [patterns] that [s] starts with. *)
Fixpoint after_any (patterns : list string) (s : string) : option string :=
  match patterns with
  | [] => None
  | p :: others =>
      match after_prefix p s with
      | Some rest => Some rest
      | None => after_any others s
      end
  end.

(** Removes leading [patterns] one after the other; [fuel] bounds their
    number, and the length of the string is enough of it. *)
Fixpoint strip (patterns : list string) (fuel : nat) (s : string) : string :=
  match fuel with
  | O => s
  | S fuel' =>
      match after_any patterns s with
      | Some rest => strip patterns fuel' rest
      | None => s
      end
  end.

Fixpoint rev_string (s acc : string) : string :=
  match s with
  | String c rest => rev_string rest (String c acc)
  | EmptyString => acc
  end.

Definition trimStart (s : string) : string :=
  strip (map utf8 whiteSpace) (String.length s) s.

(** The same from the end: the reversed string, with the bytes of each
    white space character reversed. *)
Definition trimEnd (s : string) : string :=
  rev_string
    (strip (map (fun cp => rev_string (utf8 cp) "") whiteSpace)
       (String.length s) (rev_string s ""))
    "".

Definition trim (s : string) : string := trimEnd (trimStart s).

Definition upper_ascii (c : ascii) : ascii :=
  let n := nat_of_ascii c in
  if ((97 <=? n)%nat && (n <=? 122)%nat)%bool then ascii_of_nat (n - 32) else c.

(** The letters a to z of a string in upper case. *)
Fixpoint upper_letters (s : string) : string :=
  match s with
  | String c rest => String (upper_ascii c) (upper_letters rest)
  | EmptyString => EmptyString
  end.

(** Every character of the string is an ASCII character: no byte is 128 or
    more. *)
Fixpoint is_ascii (s : string) : bool :=
  match s with
  | String c rest => (nat_of_ascii c <? 128)%nat && is_ascii rest
  | EmptyString => true
  end.

(** A string is falsy exactly when it is empty. *)
Definition truthy (s : string) : bool :=
  match s with EmptyString => false | _ => true end.

(** [if (x)] on an optional string field. *)
Definition given (o : option string) : bool :=
  match o with Some s => truthy s | None => false end.

(** ** parseInt *)

Definition digit_value (c : ascii) : option Z :=
  let n := Z.of_nat (nat_of_ascii c) in
  if (48 <=? n) && (n <=? 57) then Some (n - 48)
  else if (97 <=? n) && (n <=? 122) then Some (n - 87)
  else if (65 <=? n) && (n <=? 90) then Some (n - 55)
  else None.

(** Reads the longest prefix of digits of the radix; [acc] is [None] until
    a first digit has been read. *)
Fixpoint read_digits (radix : Z) (s : string) (acc : option Z) : option Z :=
  match s with
  | String c rest =>
      match digit_value c with
      | Some d =>
          if d <? radix
          then read_digits radix rest
                 (Some (match acc with Some a => a * radix + d | None => d end))
          else acc
      | None => acc
      end
  | EmptyString => acc
  end.

(** [parseInt(string)] without a radix argument: leading white space is
    skipped, one sign is read, a [0x] or [0X] prefix selects radix 16, and
    the longest run of digits is the value; no digit at all is [NaN].  The
    value is taken as it is written: a double holds it exactly below 2^53. *)
Definition parseInt_string (s : string) : Number :=
  let s1 := trimStart s in
  let '(negative, s2) :=
    match s1 with
    | String "-" rest => (true, rest)
    | String "+" rest => (false, rest)
    | _ => (false, s1)
    end in
  let '(radix, s3) :=
    match s2 with
    | String "0" (String "x" rest) => (16, rest)
    | String "0" (String "X" rest) => (16, rest)
    | _ => (10, s2)
    end in
  match read_digits radix s3 None with
  | Some n => Int (if negative then - n else n)
  | None => NaN
  end.

Definition sign_inf (positive : bool) : Number :=
  if positive then PosInfinity else NegInfinity.

(** *** Numbers *)

(** The double nearest to an integer, the one with the even significand
    when two are as near, an infinity beyond the largest double: the Number
    that a JSON numeral without fraction is read as. *)
Definition to_double (z : Z) : Number :=
  let a := Z.abs z in
  let e := Z.log2 a - 52 in
  if e <=? 0 then Int z
  else
    let q := a / 2 ^ e in
    let r := a mod 2 ^ e in
    let half := 2 ^ (e - 1) in
    let q' := if (r <? half) || ((r =? half) && Z.even q) then q else q + 1 in
    if (971 <? e) || ((e =? 971) && (q' =? 2 ^ 53))
    then sign_inf (0 <? z)
    else Int (Z.sgn z * (q' * 2 ^ e)).

(** The decimal numeral of an integer. *)
Definition string_of_Z (n : Z) : string :=
  NilZero.string_of_int (Z.to_int n).

(** The integer [c] is read as the double [a]. *)
Definition rounds_to (a c : Z) : bool :=
  match to_double c with
  | Int d => d =? a
  | _ => false
  end.

(** The decimal numeral with the fewest significant digits that the double
    [a] (positive or zero) is the nearest double to, as an integer: its
    digits, and zeros up to the units.  [unit] is the weight of the last
    significant digit tried, from the weight of the first digit of [a]
    down; of two numerals of the same length the one nearer to [a] is
    taken, the one with the even last digit when both are as near. *)
Fixpoint shortest (fuel : nat) (unit a : Z) : Z :=
  match fuel with
  | O => a
  | S fuel' =>
      let below := a / unit * unit in
      let above := below + unit in
      if rounds_to a below && rounds_to a above
      then if a - below <? above - a then below
           else if above - a <? a - below then above
           else if Z.even (a / unit) then below else above
      else if rounds_to a below then below
      else if rounds_to a above then above
      else shortest fuel' (unit / 10) a
  end.

(** The search starts at the first digit of [a] and has as many steps as
    [a] has digits. *)
Definition shortest_numeral (a : Z) : string :=
  let digits := String.length (string_of_Z a) in
  string_of_Z (shortest digits (10 ^ (Z.of_nat digits - 1)) a).

(** A numeral without the zeros at its end. *)
Fixpoint without_zeros (s : string) : string :=
  match s with
  | String c rest =>
      match without_zeros rest with
      | EmptyString => if Ascii.eqb c "0" then EmptyString else String c EmptyString
      | kept => String c kept
      end
  | EmptyString => EmptyString
  end.

(** [String(x)] of a Number that is an integer, not a number or an infinity:
    the shortest numeral, written out with its zeros below 10^21 and with an
    exponent from there on ([1e+21], [1.5e+22]). *)
Definition number_string (x : Number) : string :=
  match x with
  | NaN => "NaN"
  | PosInfinity => "Infinity"
  | NegInfinity => "-Infinity"
  | Int d =>
      let numeral := shortest_numeral (Z.abs d) in
      (if d <? 0 then "-" else "")
      ++ (if Z.abs d <? 10 ^ 21 then numeral
          else
            match without_zeros numeral with
            | String c EmptyString =>
                String c ("e+" ++ string_of_Z (Z.of_nat (String.length numeral) - 1))
            | String c fraction =>
                String c ("." ++ fraction ++ "e+"
                          ++ string_of_Z (Z.of_nat (String.length numeral) - 1))
            | EmptyString => numeral
            end)
  end.

(** A value that is a number or a string, as [parseInt] receives it from a
    JSON body, a query string or a destructuring default.  [Num z] is the
    JSON numeral of the integer [z], read as the nearest double. *)
Inductive Scalar : Type :=
| Num (z : Z)
| Str (s : string).

(** [parseInt] prints its argument and reads the print back: a Number below
    10^21 in magnitude is read back as itself, a larger one as the digits
    before the point or the exponent of its print ([parseInt(1e21)] is 1),
    an infinity as [NaN]. *)
Definition parseInt (v : Scalar) : Number :=
  match v with
  | Num z =>
      match parseInt_string (number_string (to_double z)) with
      | Int n => to_double n
      | other => other
      end
  | Str s => parseInt_string s
  end.

(** ** Arithmetic

    On integers the operations are exact.  This is what the handlers
    compute as long as the operands and the result are integers that a
    double holds exactly, [safe] ones; the properties that depend on a sum
    or a difference of unbounded values say so. *)

(** [Number.isSafeInteger]: the magnitude is below 2^53. *)
Definition safe (z : Z) : Prop := - 2 ^ 53 < z < 2 ^ 53.

Definition sub (a b : Number) : Number :=
  match a, b with
  | Int x, Int y => Int (x - y)
  | PosInfinity, (Int _ | NegInfinity) => PosInfinity
  | NegInfinity, (Int _ | PosInfinity) => NegInfinity
  | Int _, PosInfinity => NegInfinity
  | Int _, NegInfinity => PosInfinity
  | _, _ => NaN
  end.

Definition add (a b : Number) : Number :=
  match a, b with
  | Int x, Int y => Int (x + y)
  | PosInfinity, (Int _ | PosInfinity) => PosInfinity
  | NegInfinity, (Int _ | NegInfinity) => NegInfinity
  | Int _, PosInfinity => PosInfinity
  | Int _, NegInfinity => NegInfinity
  | _, _ => NaN
  end.

Definition mul (a b : Number) : Number :=
  match a, b with
  | Int x, Int y => Int (x * y)
  | Int x, PosInfinity | PosInfinity, Int x =>
      if x =? 0 then NaN else sign_inf (0 <? x)
  | Int x, NegInfinity | NegInfinity, Int x =>
      if x =? 0 then NaN else sign_inf (x <? 0)
  | PosInfinity, PosInfinity | NegInfinity, NegInfinity => PosInfinity
  | PosInfinity, NegInfinity | NegInfinity, PosInfinity => NegInfinity
  | _, _ => NaN
  end.

(** [Math.max(a, b)]: [NaN] as soon as one argument is. *)
Definition max (a b : Number) : Number :=
  match a, b with
  | NaN, _ | _, NaN => NaN
  | PosInfinity, _ | _, PosInfinity => PosInfinity
  | NegInfinity, x | x, NegInfinity => x
  | Int x, Int y => Int (Z.max x y)
  end.

(** [Math.ceil(a / b)] for an integer [a] (a row count): the quotient
    itself need not be an integer, its ceiling is.  Division by zero gives
    an infinity, or [NaN] for [0 / 0]. *)
Definition ceil_div (a : Z) (b : Number) : Number :=
  match b with
  | Int y =>
      if y =? 0 then
        (if a =? 0 then NaN else sign_inf (0 <? a))
      else Int (- ((- a) / y))
  | PosInfinity | NegInfinity => Int 0
  | NaN => NaN
  end.

(** ** JSON values

    A value of a request body that the handlers hand on without looking at
    it; a number is kept as its numeral. *)
#[local] Unset Elimination Schemes.

Inductive Json : Type :=
| JNull
| JBool (b : bool)
| JNumber (numeral : string)
| JString (s : string)
| JArray (items : list Json)
| JObject (members : list (string * Json)).

#[local] Set Elimination Schemes.

End Js.

Import Js.

(** * An instance of the store parameters

    Used to run the handlers on sample data: prices are whole numbers,
    rows are returned in storage order whatever the ordering asked for,
    matching is by upper-cased substring, identifiers are numbered,
    upper-casing leaves the characters outside ASCII as they are. *)

Module Sample.

Definition Price : Type := Z.

Definition parseFloat (s : string) : Price :=
  match parseInt_string s with
  | Int z => z
  | _ => 0
  end.

Definition price_leb : Price -> Price -> bool := Z.leb.

Definition price_truthy (p : Price) : bool := negb (p =? 0).

Definition contains_insensitive (text needle : string) : bool :=
  match String.index 0 (upper_letters needle) (upper_letters text) with
  | Some _ => true
  | None => false
  end.

Definition order_rows (A : Type) (sortBy sortOrder : string) (l : list A)
  : option (list A) :=
  Some l.

Definition fresh_id (n : nat) : string :=
  "row" ++ NilZero.string_of_uint (Nat.to_uint n).

Definition upper_unicode (s : string) : string := s.

End Sample.

(** * Data model *)

(** Rows carry the columns that some handler reads, writes or filters on.
    Timestamps, media and SEO blobs and the formatted price strings are
    written through to the store unread and are left out. *)

Section Api.

Set Default Proof Using "Type".

(** Decimal prices are floating-point values: their type, [parseFloat], the
    order used by the range filter and the falsiness test [!price] are
    parameters. *)
Variable Price : Type.
Variable parseFloat : string -> Price.
Variable price_leb : Price -> Price -> bool.
Variable price_truthy : Price -> bool.

(** [{ contains: needle, mode: 'insensitive' }] as the store evaluates it. *)
Variable contains_insensitive : string -> string -> bool.

(** [orderBy: { [sortBy]: sortOrder }] as the store evaluates it; [None]
    when it rejects the column or the direction. *)
Variable order_rows : forall A : Type, string -> string -> list A -> option (list A).

(** The identifier the store gives to the n-th row it creates. *)
Variable fresh_id : nat -> string.

(** [toUpperCase] maps each character on its own: the letters a to z to A to
    Z, and the characters outside ASCII as the Unicode tables say (sharp s
    to SS, dotless i to I, e acute to E acute), which is the parameter
    [upper_unicode]. *)
Variable upper_unicode : string -> string.

Definition toUpperCase (s : string) : string :=
  if is_ascii s then upper_letters s else upper_unicode (upper_letters s).

Record Color : Type := {
  color_id : string;
  color_name : string;
  color_hexCode : option string }.

Record Style : Type := {
  style_id : string;
  style_name : string;
  style_fitType : string }.

Record Brand : Type := {
  brand_id : string;
  brand_name : string;
  brand_logo : option string }.

Record Collection : Type := {
  collection_id : string;
  collection_name : string;
  collection_description : option string }.

Record ProductType : Type := {
  productType_id : string;
  productType_name : string }.

Record Product : Type := {
  product_id : string;
  product_name : string;
  product_slug : string;
  product_sku : string;
  product_description : option string;
  product_price : Price;
  product_currency : string;
  product_quantityInStock : Z;
  product_inStock : bool;
  product_brandId : option string;
  product_productTypeId : option string }.

Record ProductVariant : Type := {
  variant_id : string;
  variant_variantId : string;
  variant_sku : string;
  variant_fullVariantName : string;
  variant_variantName : string;
  variant_stock : Z;
  variant_managedVariant : bool;
  variant_colorId : option string;
  variant_styleId : option string;
  variant_productId : string }.

(** Join rows of the two many-to-many tables. *)
Record ProductCollection : Type := {
  pc_productId : string;
  pc_collectionId : string }.

Record VariantCollection : Type := {
  vc_variantId : string;
  vc_collectionId : string }.

(** ** Errors and the store *)

Record Error : Type := {
  err_code : option string;
  err_message : string }.

(** [outage] is the error every query is rejected with while the database
    cannot be reached ("store connectivity failures"); [None] when it
    can. *)
Record Store : Type := {
  products : list Product;
  variants : list ProductVariant;
  colors : list Color;
  styles : list Style;
  collections : list Collection;
  brands : list Brand;
  productTypes : list ProductType;
  productCollections : list ProductCollection;
  variantCollections : list VariantCollection;
  next_id : nat;
  outage : option Error }.

Definition with_products (l : list Product) (s : Store) : Store :=
  {| products := l; variants := variants s; colors := colors s;
     styles := styles s; collections := collections s; brands := brands s;
     productTypes := productTypes s;
     productCollections := productCollections s;
     variantCollections := variantCollections s;
     next_id := next_id s; outage := outage s |}.

Definition with_variants (l : list ProductVariant) (s : Store) : Store :=
  {| products := products s; variants := l; colors := colors s;
     styles := styles s; collections := collections s; brands := brands s;
     productTypes := productTypes s;
     productCollections := productCollections s;
     variantCollections := variantCollections s;
     next_id := next_id s; outage := outage s |}.

Definition with_colors (l : list Color) (s : Store) : Store :=
  {| products := products s; variants := variants s; colors := l;
     styles := styles s; collections := collections s; brands := brands s;
     productTypes := productTypes s;
     productCollections := productCollections s;
     variantCollections := variantCollections s;
     next_id := next_id s; outage := outage s |}.

Definition with_styles (l : list Style) (s : Store) : Store :=
  {| products := products s; variants := variants s; colors := colors s;
     styles := l; collections := collections s; brands := brands s;
     productTypes := productTypes s;
     productCollections := productCollections s;
     variantCollections := variantCollections s;
     next_id := next_id s; outage := outage s |}.

Definition with_collections (l : list Collection) (s : Store) : Store :=
  {| products := products s; variants := variants s; colors := colors s;
     styles := styles s; collections := l; brands := brands s;
     productTypes := productTypes s;
     productCollections := productCollections s;
     variantCollections := variantCollections s;
     next_id := next_id s; outage := outage s |}.

Definition with_brands (l : list Brand) (s : Store) : Store :=
  {| products := products s; variants := variants s; colors := colors s;
     styles := styles s; collections := collections s; brands := l;
     productTypes := productTypes s;
     productCollections := productCollections s;
     variantCollections := variantCollections s;
     next_id := next_id s; outage := outage s |}.

Definition with_productCollections (l : list ProductCollection) (s : Store) : Store :=
  {| products := products s; variants := variants s; colors := colors s;
     styles := styles s; collections := collections s; brands := brands s;
     productTypes := productTypes s;
     productCollections := l;
     variantCollections := variantCollections s;
     next_id := next_id s; outage := outage s |}.

Definition with_variantCollections (l : list VariantCollection) (s : Store) : Store :=
  {| products := products s; variants := variants s; colors := colors s;
     styles := styles s; collections := collections s; brands := brands s;
     productTypes := productTypes s;
     productCollections := productCollections s;
     variantCollections := l;
     next_id := next_id s; outage := outage s |}.

Definition bump_id (s : Store) : Store :=
  {| products := products s; variants := variants s; colors := colors s;
     styles := styles s; collections := collections s; brands := brands s;
     productTypes := productTypes s;
     productCollections := productCollections s;
     variantCollections := variantCollections s;
     next_id := S (next_id s); outage := outage s |}.


(** ** Computations that query the store

    A store call either resolves with a value or rejects with an [Error];
    the store it leaves behind is kept in both cases, since the handlers run
    their statements one after the other outside any transaction. *)

Definition M (A : Type) : Type := Store -> (Error + A) * Store.

Definition ret {A : Type} (a : A) : M A := fun s => (inr a, s).

Definition bind {A B : Type} (m : M A) (k : A -> M B) : M B :=
  fun s =>
    match m s with
    | (inr a, s') => k a s'
    | (inl e, s') => (inl e, s')
    end.

Definition throw {A : Type} (e : Error) : M A := fun s => (inl e, s).

Notation "x <- m ;; k" := (bind m (fun x => k))
  (at level 61, m at next level, right associativity).

(** The errors of the ORM that the handlers can meet: the three request
    errors that carry a code, and the rejection of a malformed query. *)
Definition unique_violation : Error :=
  {| err_code := Some "P2002";
     err_message := "Unique constraint failed" |}.

Definition foreign_key_violation : Error :=
  {| err_code := Some "P2003";
     err_message := "Foreign key constraint failed" |}.

Definition record_not_found : Error :=
  {| err_code := Some "P2025";
     err_message := "Record to update or delete does not exist" |}.

Definition validation_error : Error :=
  {| err_code := None;
     err_message := "Invalid value provided for a query argument" |}.

(** Every query is rejected with the outage error while there is one. *)
Definition query {A : Type} (f : Store -> (Error + A) * Store) : M A :=
  fun s =>
    match outage s with
    | Some e => (inl e, s)
    | None => f s
    end.

(** A table of the schema: its rows in the store, its primary key, when two
    rows collide on a unique column, and whether the foreign keys of a row
    point to stored rows. *)
Record Model (A : Type) : Type := {
  rows : Store -> list A;
  with_rows : list A -> Store -> Store;
  pk : A -> string;
  same_unique : A -> A -> bool;
  references_ok : Store -> A -> bool }.

Arguments rows {A} _ _.
Arguments with_rows {A} _ _ _.
Arguments pk {A} _ _.
Arguments same_unique {A} _ _ _.
Arguments references_ok {A} _ _ _.

Definition has_id {A : Type} (T : Model A) (id : string) (a : A) : bool :=
  (pk T a =? id)%string.

Definition stored {A : Type} (key : A -> string) (l : list A) (id : string) : bool :=
  existsb (fun a => (key a =? id)%string) l.

Definition stored_opt {A : Type} (key : A -> string) (l : list A)
  (ref : option string) : bool :=
  match ref with
  | Some id => stored key l id
  | None => true
  end.

(** Modelled from the spec: the schema file is not among the sources.
    Unique columns ("slug and sku are unique per Product; variantId and sku
    unique per Variant; Color/Style/Brand names unique") are also the ones
    the handlers name when they answer a code P2002, and the seed script
    upserts brands, product types and collections by name.  Foreign keys are
    the relations that the handlers expand or count: the brand and type of a
    product, the product, colour and style of a variant. *)
Definition color_model : Model Color :=
  {| rows := colors; with_rows := with_colors; pk := color_id;
     same_unique := fun a b => (color_name a =? color_name b)%string;
     references_ok := fun _ _ => true |}.

Definition style_model : Model Style :=
  {| rows := styles; with_rows := with_styles; pk := style_id;
     same_unique := fun a b => (style_name a =? style_name b)%string;
     references_ok := fun _ _ => true |}.

Definition brand_model : Model Brand :=
  {| rows := brands; with_rows := with_brands; pk := brand_id;
     same_unique := fun a b => (brand_name a =? brand_name b)%string;
     references_ok := fun _ _ => true |}.

Definition collection_model : Model Collection :=
  {| rows := collections; with_rows := with_collections; pk := collection_id;
     same_unique := fun a b => (collection_name a =? collection_name b)%string;
     references_ok := fun _ _ => true |}.

Definition product_model : Model Product :=
  {| rows := products; with_rows := with_products; pk := product_id;
     same_unique := fun a b =>
       (product_slug a =? product_slug b)%string
       || (product_sku a =? product_sku b)%string;
     references_ok := fun s a =>
       stored_opt brand_id (brands s) (product_brandId a)
       && stored_opt productType_id (productTypes s) (product_productTypeId a) |}.

Definition variant_model : Model ProductVariant :=
  {| rows := variants; with_rows := with_variants; pk := variant_id;
     same_unique := fun a b =>
       (variant_variantId a =? variant_variantId b)%string
       || (variant_sku a =? variant_sku b)%string;
     references_ok := fun s a =>
       stored product_id (products s) (variant_productId a)
       && stored_opt color_id (colors s) (variant_colorId a)
       && stored_opt style_id (styles s) (variant_styleId a) |}.

(** *** Single-row calls *)

Definition findUnique {A : Type} (T : Model A) (id : string) : M (option A) :=
  query (fun s => (inr (find (has_id T id) (rows T s)), s)).

Definition findFirstBy {A : Type} (T : Model A) (key : A -> string)
  (value : string) : M (option A) :=
  query (fun s => (inr (find (fun a => (key a =? value)%string) (rows T s)), s)).

(** [findUnique({ where: { id }, include: { _count: ... } })]: the row
    together with the counts of the rows that refer to it. *)
Definition findUniqueCounting {A C : Type} (T : Model A) (id : string)
  (counts : Store -> C) : M (option (A * C)) :=
  query (fun s =>
    (inr (option_map (fun a => (a, counts s)) (find (has_id T id) (rows T s))), s)).

Definition create {A : Type} (T : Model A) (mk : string -> A) : M A :=
  query (fun s =>
    let a := mk (fresh_id (next_id s)) in
    if existsb (same_unique T a) (rows T s) then (inl unique_violation, s)
    else if negb (references_ok T s a) then (inl foreign_key_violation, s)
    else (inr a, with_rows T (rows T s ++ [a]) (bump_id s))).

Fixpoint replace_row {A : Type} (T : Model A) (id : string) (a' : A)
  (l : list A) : list A :=
  match l with
  | [] => []
  | a :: rest =>
      if has_id T id a then a' :: rest else a :: replace_row T id a' rest
  end.

Definition without_id {A : Type} (T : Model A) (id : string) (l : list A) : list A :=
  filter (fun a => negb (has_id T id a)) l.

(** An update is rejected for the collision or the dangling reference that
    it introduces; what the row already had is not checked again. *)
Definition update {A : Type} (T : Model A) (id : string) (f : A -> A) : M A :=
  query (fun s =>
    match find (has_id T id) (rows T s) with
    | None => (inl record_not_found, s)
    | Some a =>
        let a' := f a in
        if existsb (fun other => same_unique T a' other && negb (same_unique T a other))
             (without_id T id (rows T s))
        then (inl unique_violation, s)
        else if negb (references_ok T s a') && references_ok T s a
        then (inl foreign_key_violation, s)
        else (inr a', with_rows T (replace_row T id a' (rows T s)) s)
    end).

(** [delete] is only reached for rows without dependents, behind the guards
    of the handlers; no referential action is involved. *)
Definition delete {A : Type} (T : Model A) (id : string) : M A :=
  query (fun s =>
    match find (has_id T id) (rows T s) with
    | None => (inl record_not_found, s)
    | Some a => (inr a, with_rows T (without_id T id (rows T s)) s)
    end).

(** *** Multi-row calls *)

(** [skip] and [take] of [findMany].  A negative or non-integer [skip] and a
    non-integer [take] are rejected; a negative [take] counts from the end of
    the ordered rows. *)
Definition window {A : Type} (skip take : Number) (l : list A) : option (list A) :=
  match skip, take with
  | Int k, Int t =>
      if k <? 0 then None
      else if 0 <=? t
      then Some (firstn (Z.to_nat t) (skipn (Z.to_nat k) l))
      else Some (rev (firstn (Z.to_nat (- t)) (skipn (Z.to_nat k) (rev l))))
  | _, _ => None
  end.

Definition ordered {A : Type} (orderBy : option (string * string)) (l : list A)
  : option (list A) :=
  match orderBy with
  | Some (sortBy, sortOrder) => order_rows A sortBy sortOrder l
  | None => Some l
  end.

Definition findMany {A : Type} (T : Model A) (where_ : A -> bool)
  (orderBy : option (string * string)) : M (list A) :=
  query (fun s =>
    match ordered orderBy (filter where_ (rows T s)) with
    | Some l => (inr l, s)
    | None => (inl validation_error, s)
    end).

Definition findManyPaged {A : Type} (T : Model A) (where_ : A -> bool)
  (skip take : Number) (orderBy : option (string * string)) : M (list A) :=
  query (fun s =>
    match ordered orderBy (filter where_ (rows T s)) with
    | Some l =>
        match window skip take l with
        | Some page => (inr page, s)
        | None => (inl validation_error, s)
        end
    | None => (inl validation_error, s)
    end).

Definition count {A : Type} (T : Model A) (where_ : A -> bool) : M Z :=
  query (fun s => (inr (Z.of_nat (List.length (filter where_ (rows T s)))), s)).

(** [createMany({ data, skipDuplicates: true })]: a row that collides on a
    unique column with a stored row, or with a row inserted earlier by the
    same call, is left out; the result is the number of rows inserted.
    Used on colours and styles, which have no foreign key. *)
Fixpoint insert_skipping {A : Type} (T : Model A) (data : list (string -> A))
  (s : Store) : Z * Store :=
  match data with
  | [] => (0, s)
  | mk :: rest =>
      let a := mk (fresh_id (next_id s)) in
      if existsb (same_unique T a) (rows T s)
      then insert_skipping T rest s
      else
        let '(n, s') :=
          insert_skipping T rest (with_rows T (rows T s ++ [a]) (bump_id s)) in
        (1 + n, s')
  end.

Definition createMany_skipDuplicates {A : Type} (T : Model A)
  (data : list (string -> A)) : M Z :=
  query (fun s => let '(n, s') := insert_skipping T data s in (inr n, s')).

(** *** Join tables *)

(** Modelled from the spec: the schema file is not among the sources.  The
    join tables "associate Collections with Products and with Variants", one
    row per associated pair, each row referring to a stored owner (product
    or variant) and a stored collection. *)
Record Join (J : Type) : Type := {
  links : Store -> list J;
  with_links : list J -> Store -> Store;
  owner : J -> string;
  member : J -> string;
  owner_stored : Store -> string -> bool }.

Arguments links {J} _ _.
Arguments with_links {J} _ _ _.
Arguments owner {J} _ _.
Arguments member {J} _ _.
Arguments owner_stored {J} _ _ _.

Definition productCollection : Join ProductCollection :=
  {| links := productCollections; with_links := with_productCollections;
     owner := pc_productId; member := pc_collectionId;
     owner_stored := fun s => stored product_id (products s) |}.

Definition variantCollection : Join VariantCollection :=
  {| links := variantCollections; with_links := with_variantCollections;
     owner := vc_variantId; member := vc_collectionId;
     owner_stored := fun s => stored variant_id (variants s) |}.

Definition same_pair {J : Type} (Jn : Join J) (a b : J) : bool :=
  (owner Jn a =? owner Jn b)%string && (member Jn a =? member Jn b)%string.

Definition owned_by {J : Type} (Jn : Join J) (id : string) (r : J) : bool :=
  (owner Jn r =? id)%string.

Fixpoint has_duplicate {A : Type} (eqb : A -> A -> bool) (l : list A) : bool :=
  match l with
  | [] => false
  | a :: rest => existsb (eqb a) rest || has_duplicate eqb rest
  end.

Definition clashes {A : Type} (eqb : A -> A -> bool) (data existing : list A) : bool :=
  existsb (fun r => existsb (eqb r) existing) data || has_duplicate eqb data.

(** Modelled from the spec: [createMany({ data })] without [skipDuplicates]
    on a join table, under the constraints above.  It is one statement: it
    inserts every row or none. *)
Definition createMany {J : Type} (Jn : Join J) (data : list J) : M Z :=
  query (fun s =>
    if clashes (same_pair Jn) data (links Jn s)
    then (inl unique_violation, s)
    else if negb (forallb (fun r =>
                    owner_stored Jn s (owner Jn r)
                    && stored collection_id (collections s) (member Jn r)) data)
    then (inl foreign_key_violation, s)
    else (inr (Z.of_nat (List.length data)), with_links Jn (links Jn s ++ data) s)).

(** [deleteMany({ where: { productId: id } })], and the same by variant. *)
Definition deleteMany {J : Type} (Jn : Join J) (id : string) : M Z :=
  query (fun s =>
    (inr (Z.of_nat (List.length (filter (owned_by Jn id) (links Jn s)))),
     with_links Jn (filter (fun r => negb (owned_by Jn id r)) (links Jn s)) s)).

(** Modelled from the spec: [create] with a nested
    [collections: { create: [...] }], under the constraints above.  The row
    and its join rows are written together or not at all. *)
Definition create_with_collections {A J : Type} (T : Model A) (Jn : Join J)
  (mk : string -> A) (join : string -> string -> J)
  (collectionIds : list string) : M A :=
  query (fun s =>
    let a := mk (fresh_id (next_id s)) in
    let joins := map (join (pk T a)) collectionIds in
    if existsb (same_unique T a) (rows T s) || has_duplicate (same_pair Jn) joins
    then (inl unique_violation, s)
    else if negb (references_ok T s a
                  && forallb (stored collection_id (collections s)) collectionIds)
    then (inl foreign_key_violation, s)
    else
      let s' := with_rows T (rows T s ++ [a]) (bump_id s) in
      (inr a, with_links Jn (links Jn s' ++ joins) s')).

(** *** Update data beyond the columns *)

(** [PUT /products/:id] and [PUT /variants/:id] hand the body to [update] as
    its data.  The members that are columns of the rows above are embedded
    by [update].  Any other member (the identifier, a relation with a nested
    write such as [collections: { deleteMany: {} }], a column that the rows
    leave out, a name that the schema does not have, a value of another
    type than its column) is handed on unread, and what the store does with
    it is a parameter: some outcome and some store.  [Jn] is the join table
    behind the relation [collections] of the model. *)
Variable update_members :
  forall A J : Type, Model A -> Join J -> string -> (A -> A) ->
    list (string * Json) -> Store -> (Error + A) * Store.

Definition update_data {A J : Type} (T : Model A) (Jn : Join J) (id : string)
  (f : A -> A) (others : list (string * Json)) : M A :=
  match others with
  | [] => update T id f
  | _ => query (update_members A J T Jn id f others)
  end.

(** *** Unguarded deletions *)

Definition belongs_to (productId : string) (v : ProductVariant) : bool :=
  (variant_productId v =? productId)%string.

(** Modelled from the spec: the referential actions of the schema are not
    among the sources.  "Product and Variant deletion is unconditional": the
    row goes, and with it the rows that cannot exist without it (the
    variants of the product, its join rows and theirs). *)
Definition delete_product (id : string) : M Product :=
  query (fun s =>
    match find (has_id product_model id) (products s) with
    | None => (inl record_not_found, s)
    | Some p =>
        let gone := filter (belongs_to id) (variants s) in
        (inr p,
         with_products (without_id product_model id (products s))
           (with_variants (filter (fun v => negb (belongs_to id v)) (variants s))
              (with_productCollections
                 (filter (fun r => negb (owned_by productCollection id r))
                    (productCollections s))
                 (with_variantCollections
                    (filter (fun r => negb (stored variant_id gone (vc_variantId r)))
                       (variantCollections s)) s))))
    end).

(** Modelled from the spec: as for [delete_product]; the variant goes with
    its join rows. *)
Definition delete_variant (id : string) : M ProductVariant :=
  query (fun s =>
    match find (has_id variant_model id) (variants s) with
    | None => (inl record_not_found, s)
    | Some v =>
        (inr v,
         with_variants (without_id variant_model id (variants s))
           (with_variantCollections
              (filter (fun r => negb (owned_by variantCollection id r))
                 (variantCollections s)) s))
    end).

(** * Requests and responses *)

Record Pagination : Type := {
  pg_page : Number;
  pg_limit : Number;
  pg_total : Z;
  pg_pages : Number }.

(** The [data] member of a response.  Rows appear without the related rows
    that [include] attaches to them. *)
Inductive Payload : Type :=
| Products (l : list Product)
| OneProduct (p : Product)
| Variants (l : list ProductVariant)
| OneVariant (v : ProductVariant)
| Colors (l : list Color)
| OneColor (c : Color)
| Styles (l : list Style)
| OneStyle (st : Style)
| Collections (l : list Collection)
| OneCollection (c : Collection)
| Brands (l : list Brand)
| OneBrand (b : Brand)
| FitTypes (l : list string)
| Count (n : Z)
| Health.

(** A response: the status set by [res.status] (200 when it is not called)
    and the members of the JSON object handed to [res.json]; a member that
    the object literal does not have is [None]. *)
Record Response : Type := {
  status : Z;
  success : option bool;
  error : option string;
  message : option string;
  data : option Payload;
  pagination : option Pagination }.

(** [res.json({ success: true, data })] *)
Definition json_data (d : option Payload) : Response :=
  {| status := 200; success := Some true; error := None; message := None;
     data := d; pagination := None |}.

(** [res.json({ success: true, data, pagination })] *)
Definition json_page (d : Payload) (pg : Pagination) : Response :=
  {| status := 200; success := Some true; error := None; message := None;
     data := Some d; pagination := Some pg |}.

(** [res.status(st).json({ success: true, data, message })] *)
Definition json_done (st : Z) (d : option Payload) (msg : string) : Response :=
  {| status := st; success := Some true; error := None; message := Some msg;
     data := d; pagination := None |}.

(** [res.status(st).json({ success: false, error })] *)
Definition json_fail (st : Z) (err : string) : Response :=
  {| status := st; success := Some false; error := Some err; message := None;
     data := None; pagination := None |}.

(** [res.status(500).json({ success: false, error, message: error.message })] *)
Definition json_unexpected (err : string) (e : Error) : Response :=
  {| status := 500; success := Some false; error := Some err;
     message := Some (err_message e); data := None; pagination := None |}.

(** [res.status(st).json({ error, message })], the shape used by the
    application file. *)
Definition json_plain (st : Z) (err msg : string) : Response :=
  {| status := st; success := None; error := Some err; message := Some msg;
     data := None; pagination := None |}.

Definition has_code (e : Error) (c : string) : bool :=
  match err_code e with
  | Some x => (x =? c)%string
  | None => false
  end.

(** [try { body } catch (error) { handler }] *)
Definition try_catch (body : M Response) (handler : Error -> Response)
  : Store -> Response * Store :=
  fun s =>
    match body s with
    | (inr r, s') => (r, s')
    | (inl e, s') => (handler e, s')
    end.

(** The catch block of the handlers that single out code P2002. *)
Definition catch_unique (taken failed : string) (e : Error) : Response :=
  if has_code e "P2002" then json_fail 400 taken else json_unexpected failed e.

(** ** Request parts *)

(** [req.query]: every member is a string when present. *)
Record Query : Type := {
  q_page : option string;
  q_limit : option string;
  q_search : option string;
  q_brandId : option string;
  q_productTypeId : option string;
  q_productId : option string;
  q_colorId : option string;
  q_styleId : option string;
  q_fitType : option string;
  q_inStock : option string;
  q_minPrice : option string;
  q_maxPrice : option string;
  q_sortBy : option string;
  q_sortOrder : option string }.

(** [const { x = d } = req.query] *)
Definition or_default (x : option string) (d : Scalar) : Scalar :=
  match x with
  | Some v => Str v
  | None => d
  end.

Definition or_string (x : option string) (d : string) : string :=
  match x with
  | Some v => v
  | None => d
  end.

(** [x || null] on an optional identifier. *)
Definition or_null (x : option string) : option string :=
  match x with
  | Some v => if truthy v then Some v else None
  | None => None
  end.

(** [x?.trim()] and [x?.trim() || null] *)
Definition trim_opt (x : option string) : option string :=
  match x with
  | Some v => Some (trim v)
  | None => None
  end.

Definition trim_or_null (x : option string) : option string :=
  or_null (trim_opt x).

Record ColorBody : Type := {
  cb_name : option string;
  cb_hexCode : option string }.

Record StyleBody : Type := {
  sb_name : option string;
  sb_fitType : option string }.

Record BrandBody : Type := {
  bb_name : option string;
  bb_logo : option string }.

Record CollectionBody : Type := {
  lb_name : option string;
  lb_description : option string }.

(** Body of [PATCH /variants/:id/stock]. *)
Record StockBody : Type := {
  kb_stock : option Scalar;
  kb_operation : option string }.

Record VariantBody : Type := {
  vb_variantId : option string;
  vb_sku : option string;
  vb_fullVariantName : option string;
  vb_variantName : option string;
  vb_stock : option Scalar;
  vb_managedVariant : option bool;
  vb_colorId : option string;
  vb_styleId : option string;
  vb_productId : option string;
  vb_collectionIds : option (list string) }.

(** Body of [PUT /variants/:id]: the members are handed to the store as they
    are.  The record holds the members that are columns of the row, each
    with a value of the type of its column; a nullable column can be set to
    [null] ([Some None]).  The other members of the body come with the
    request as a list of names and values. *)
Record VariantPatch : Type := {
  vp_variantId : option string;
  vp_sku : option string;
  vp_fullVariantName : option string;
  vp_variantName : option string;
  vp_stock : option Z;
  vp_managedVariant : option bool;
  vp_colorId : option (option string);
  vp_styleId : option (option string);
  vp_productId : option string;
  vp_collectionIds : option (list string) }.

Record ProductBody : Type := {
  pb_name : option string;
  pb_slug : option string;
  pb_sku : option string;
  pb_description : option string;
  pb_price : option Price;
  pb_currency : option string;
  pb_quantityInStock : option Scalar;
  pb_inStock : option bool;
  pb_brandId : option string;
  pb_productTypeId : option string;
  pb_collectionIds : option (list string) }.

Record ProductPatch : Type := {
  pp_name : option string;
  pp_slug : option string;
  pp_sku : option string;
  pp_description : option (option string);
  pp_price : option Price;
  pp_currency : option string;
  pp_quantityInStock : option Z;
  pp_inStock : option bool;
  pp_brandId : option (option string);
  pp_productTypeId : option (option string);
  pp_collectionIds : option (list string) }.

(** * Route handlers *)

(** The block every list handler repeats: the offset, the page of rows and
    the total, the pagination object. *)
Definition list_page {A : Type} (T : Model A) (where_ : A -> bool)
  (orderBy : string * string) (wrap : list A -> Payload)
  (page limit : Scalar) : M Response :=
  let skip := mul (sub (parseInt page) (Int 1)) (parseInt limit) in
  found <- findManyPaged T where_ skip (parseInt limit) (Some orderBy) ;;
  total <- count T where_ ;;
  ret (json_page (wrap found)
         {| pg_page := parseInt page;
            pg_limit := parseInt limit;
            pg_total := total;
            pg_pages := ceil_div total (parseInt limit) |}).

Definition field_is (column : option string) (wanted : option string) : bool :=
  match wanted, column with
  | None, _ => true
  | Some w, Some c => (c =? w)%string
  | Some _, None => false
  end.

Definition contains_opt (column : option string) (needle : string) : bool :=
  match column with
  | Some c => contains_insensitive c needle
  | None => false
  end.

(** ** products.js *)

Record PriceRange : Type := {
  price_gte : option Price;
  price_lte : option Price }.

(** The [where] object of [GET /products]. *)
Record ProductWhere : Type := {
  pw_OR : option string;
  pw_brandId : option string;
  pw_productTypeId : option string;
  pw_inStock : option bool;
  pw_price : option PriceRange }.

Definition products_where (q : Query) : ProductWhere :=
  {| pw_OR := or_null (q_search q);
     pw_brandId := or_null (q_brandId q);
     pw_productTypeId := or_null (q_productTypeId q);
     pw_inStock :=
       match q_inStock q with
       | Some v => Some (v =? "true")%string
       | None => None
       end;
     pw_price :=
       if given (q_minPrice q) || given (q_maxPrice q)
       then Some {| price_gte := option_map parseFloat (or_null (q_minPrice q));
                    price_lte := option_map parseFloat (or_null (q_maxPrice q)) |}
       else None |}.

(** How the store reads that object: every member present must hold. *)
Definition product_matches (w : ProductWhere) (p : Product) : bool :=
  match pw_OR w with
  | Some needle =>
      contains_insensitive (product_name p) needle
      || contains_opt (product_description p) needle
      || contains_insensitive (product_sku p) needle
  | None => true
  end
  && field_is (product_brandId p) (pw_brandId w)
  && field_is (product_productTypeId p) (pw_productTypeId w)
  && match pw_inStock w with
     | Some b => Bool.eqb (product_inStock p) b
     | None => true
     end
  && match pw_price w with
     | Some range =>
         match price_gte range with
         | Some lo => price_leb lo (product_price p)
         | None => true
         end
         && match price_lte range with
            | Some hi => price_leb (product_price p) hi
            | None => true
            end
     | None => true
     end.

Definition products_list (q : Query) : Store -> Response * Store :=
  try_catch
    (list_page product_model (product_matches (products_where q))
       (or_string (q_sortBy q) "createdAt", or_string (q_sortOrder q) "desc")
       Products (or_default (q_page q) (Num 1)) (or_default (q_limit q) (Num 20)))
    (json_unexpected "Failed to fetch products").

Definition products_get (id : string) : Store -> Response * Store :=
  try_catch
    (product <- findUnique product_model id ;;
     match product with
     | None => ret (json_fail 404 "Product not found")
     | Some p => ret (json_data (Some (OneProduct p)))
     end)
    (json_unexpected "Failed to fetch product").

Definition products_getBySlug (slug : string) : Store -> Response * Store :=
  try_catch
    (product <- findFirstBy product_model product_slug slug ;;
     match product with
     | None => ret (json_fail 404 "Product not found")
     | Some p => ret (json_data (Some (OneProduct p)))
     end)
    (json_unexpected "Failed to fetch product").

Definition products_create (b : ProductBody) : Store -> Response * Store :=
  try_catch
    (match pb_name b, pb_slug b, pb_sku b, pb_price b with
     | Some name, Some slug, Some sku, Some price =>
         if truthy name && truthy slug && truthy sku && price_truthy price
         then
           match parseInt (match pb_quantityInStock b with Some v => v | None => Num 0 end) with
           | Int quantity =>
               product <- create_with_collections product_model productCollection
                 (fun id =>
                    {| product_id := id;
                       product_name := trim name;
                       product_slug := trim slug;
                       product_sku := trim sku;
                       product_description := trim_opt (pb_description b);
                       product_price := price;
                       product_currency := or_string (pb_currency b) "USD";
                       product_quantityInStock := quantity;
                       product_inStock :=
                         match pb_inStock b with Some v => v | None => true end;
                       product_brandId := or_null (pb_brandId b);
                       product_productTypeId := or_null (pb_productTypeId b) |})
                 (fun id collectionId =>
                    {| pc_productId := id; pc_collectionId := collectionId |})
                 (match pb_collectionIds b with Some l => l | None => [] end) ;;
               ret (json_done 201 (Some (OneProduct product))
                      "Product created successfully")
           | _ => throw validation_error
           end
         else ret (json_fail 400 "Name, slug, SKU, and price are required")
     | _, _, _, _ => ret (json_fail 400 "Name, slug, SKU, and price are required")
     end)
    (catch_unique "Product with this slug or SKU already exists"
       "Failed to create product").

Definition patched {A : Type} (new : option A) (old : A) : A :=
  match new with
  | Some v => v
  | None => old
  end.

Definition apply_product_patch (b : ProductPatch) (p : Product) : Product :=
  {| product_id := product_id p;
     product_name := patched (pp_name b) (product_name p);
     product_slug := patched (pp_slug b) (product_slug p);
     product_sku := patched (pp_sku b) (product_sku p);
     product_description := patched (pp_description b) (product_description p);
     product_price := patched (pp_price b) (product_price p);
     product_currency := patched (pp_currency b) (product_currency p);
     product_quantityInStock :=
       patched (pp_quantityInStock b) (product_quantityInStock p);
     product_inStock := patched (pp_inStock b) (product_inStock p);
     product_brandId := patched (pp_brandId b) (product_brandId p);
     product_productTypeId :=
       patched (pp_productTypeId b) (product_productTypeId p) |}.

Definition products_update (id : string) (b : ProductPatch)
  (others : list (string * Json)) : Store -> Response * Store :=
  try_catch
    (existingProduct <- findUnique product_model id ;;
     match existingProduct with
     | None => ret (json_fail 404 "Product not found")
     | Some _ =>
         _ <- update_data product_model productCollection id
                (apply_product_patch b) others ;;
         _ <- match pp_collectionIds b with
              | Some collectionIds =>
                  _ <- deleteMany productCollection id ;;
                  if (0 <? Z.of_nat (List.length collectionIds))
                  then createMany productCollection
                         (map (fun collectionId =>
                                 {| pc_productId := id;
                                    pc_collectionId := collectionId |})
                              collectionIds)
                  else ret 0
              | None => ret 0
              end ;;
         updatedProduct <- findUnique product_model id ;;
         ret (json_done 200 (option_map OneProduct updatedProduct)
                "Product updated successfully")
     end)
    (catch_unique "Product with this slug or SKU already exists"
       "Failed to update product").

Definition products_delete (id : string) : Store -> Response * Store :=
  try_catch
    (existingProduct <- findUnique product_model id ;;
     match existingProduct with
     | None => ret (json_fail 404 "Product not found")
     | Some _ =>
         _ <- delete_product id ;;
         ret (json_done 200 None "Product deleted successfully")
     end)
    (json_unexpected "Failed to delete product").

(** ** variants.js *)

Inductive IntFilter : Type :=
| Gt (n : Z)
| Lte (n : Z).

Definition int_matches (f : IntFilter) (x : Z) : bool :=
  match f with
  | Gt n => n <? x
  | Lte n => x <=? n
  end.

(** The [where] object of [GET /variants]. *)
Record VariantWhere : Type := {
  vw_OR : option string;
  vw_productId : option string;
  vw_colorId : option string;
  vw_styleId : option string;
  vw_stock : option IntFilter }.

Definition variants_where (q : Query) : VariantWhere :=
  {| vw_OR := or_null (q_search q);
     vw_productId := or_null (q_productId q);
     vw_colorId := or_null (q_colorId q);
     vw_styleId := or_null (q_styleId q);
     vw_stock :=
       match q_inStock q with
       | Some v => Some (if (v =? "true")%string then Gt 0 else Lte 0)
       | None => None
       end |}.

Definition variant_matches (w : VariantWhere) (v : ProductVariant) : bool :=
  match vw_OR w with
  | Some needle =>
      contains_insensitive (variant_variantName v) needle
      || contains_insensitive (variant_fullVariantName v) needle
      || contains_insensitive (variant_sku v) needle
  | None => true
  end
  && field_is (Some (variant_productId v)) (vw_productId w)
  && field_is (variant_colorId v) (vw_colorId w)
  && field_is (variant_styleId v) (vw_styleId w)
  && match vw_stock w with
     | Some f => int_matches f (variant_stock v)
     | None => true
     end.

Definition variants_list (q : Query) : Store -> Response * Store :=
  try_catch
    (list_page variant_model (variant_matches (variants_where q))
       (or_string (q_sortBy q) "createdAt", or_string (q_sortOrder q) "desc")
       Variants (or_default (q_page q) (Num 1)) (or_default (q_limit q) (Num 20)))
    (json_unexpected "Failed to fetch variants").

Definition variants_get (id : string) : Store -> Response * Store :=
  try_catch
    (variant <- findUnique variant_model id ;;
     match variant with
     | None => ret (json_fail 404 "Variant not found")
     | Some v => ret (json_data (Some (OneVariant v)))
     end)
    (json_unexpected "Failed to fetch variant").

Definition variants_byProduct (productId : string) (q : Query)
  : Store -> Response * Store :=
  try_catch
    (found <- findMany variant_model
       (variant_matches
          {| vw_OR := None;
             vw_productId := Some productId;
             vw_colorId := or_null (q_colorId q);
             vw_styleId := or_null (q_styleId q);
             vw_stock := None |})
       (Some ("variantName", "asc")) ;;
     ret (json_data (Some (Variants found))))
    (json_unexpected "Failed to fetch product variants").

Definition variants_create (b : VariantBody) : Store -> Response * Store :=
  try_catch
    (match vb_variantId b, vb_sku b, vb_fullVariantName b, vb_variantName b,
           vb_productId b with
     | Some variantId, Some sku, Some fullVariantName, Some variantName,
       Some productId =>
         if truthy variantId && truthy sku && truthy fullVariantName
            && truthy variantName && truthy productId
         then
           product <- findUnique product_model productId ;;
           match product with
           | None => ret (json_fail 404 "Product not found")
           | Some _ =>
               match parseInt (match vb_stock b with Some v => v | None => Num 0 end) with
               | Int stock =>
                   variant <- create_with_collections variant_model variantCollection
                     (fun id =>
                        {| variant_id := id;
                           variant_variantId := trim variantId;
                           variant_sku := trim sku;
                           variant_fullVariantName := trim fullVariantName;
                           variant_variantName := trim variantName;
                           variant_stock := stock;
                           variant_managedVariant :=
                             match vb_managedVariant b with
                             | Some v => v
                             | None => true
                             end;
                           variant_colorId := or_null (vb_colorId b);
                           variant_styleId := or_null (vb_styleId b);
                           variant_productId := productId |})
                     (fun id collectionId =>
                        {| vc_variantId := id; vc_collectionId := collectionId |})
                     (match vb_collectionIds b with Some l => l | None => [] end) ;;
                   ret (json_done 201 (Some (OneVariant variant))
                          "Variant created successfully")
               | _ => throw validation_error
               end
           end
         else ret (json_fail 400
                "VariantId, SKU, fullVariantName, variantName, and productId are required")
     | _, _, _, _, _ =>
         ret (json_fail 400
                "VariantId, SKU, fullVariantName, variantName, and productId are required")
     end)
    (catch_unique "Variant with this variantId or SKU already exists"
       "Failed to create variant").

Definition apply_variant_patch (b : VariantPatch) (v : ProductVariant)
  : ProductVariant :=
  {| variant_id := variant_id v;
     variant_variantId := patched (vp_variantId b) (variant_variantId v);
     variant_sku := patched (vp_sku b) (variant_sku v);
     variant_fullVariantName :=
       patched (vp_fullVariantName b) (variant_fullVariantName v);
     variant_variantName := patched (vp_variantName b) (variant_variantName v);
     variant_stock := patched (vp_stock b) (variant_stock v);
     variant_managedVariant :=
       patched (vp_managedVariant b) (variant_managedVariant v);
     variant_colorId := patched (vp_colorId b) (variant_colorId v);
     variant_styleId := patched (vp_styleId b) (variant_styleId v);
     variant_productId := patched (vp_productId b) (variant_productId v) |}.

Definition variants_update (id : string) (b : VariantPatch)
  (others : list (string * Json)) : Store -> Response * Store :=
  try_catch
    (existingVariant <- findUnique variant_model id ;;
     match existingVariant with
     | None => ret (json_fail 404 "Variant not found")
     | Some _ =>
         _ <- update_data variant_model variantCollection id
                (apply_variant_patch b) others ;;
         _ <- match vp_collectionIds b with
              | Some collectionIds =>
                  _ <- deleteMany variantCollection id ;;
                  if (0 <? Z.of_nat (List.length collectionIds))
                  then createMany variantCollection
                         (map (fun collectionId =>
                                 {| vc_variantId := id;
                                    vc_collectionId := collectionId |})
                              collectionIds)
                  else ret 0
              | None => ret 0
              end ;;
         updatedVariant <- findUnique variant_model id ;;
         ret (json_done 200 (option_map OneVariant updatedVariant)
                "Variant updated successfully")
     end)
    (catch_unique "Variant with this variantId or SKU already exists"
       "Failed to update variant").

Definition variants_delete (id : string) : Store -> Response * Store :=
  try_catch
    (existingVariant <- findUnique variant_model id ;;
     match existingVariant with
     | None => ret (json_fail 404 "Variant not found")
     | Some _ =>
         _ <- delete_variant id ;;
         ret (json_done 200 None "Variant deleted successfully")
     end)
    (json_unexpected "Failed to delete variant").

(** The [switch (operation)] of the stock handler. *)
Definition newStock (operation : string) (existing : Z) (stock : Scalar) : Number :=
  if (operation =? "add")%string then add (Int existing) (parseInt stock)
  else if (operation =? "subtract")%string
  then max (Int 0) (sub (Int existing) (parseInt stock))
  else parseInt stock.

Definition set_stock (n : Z) (v : ProductVariant) : ProductVariant :=
  {| variant_id := variant_id v;
     variant_variantId := variant_variantId v;
     variant_sku := variant_sku v;
     variant_fullVariantName := variant_fullVariantName v;
     variant_variantName := variant_variantName v;
     variant_stock := n;
     variant_managedVariant := variant_managedVariant v;
     variant_colorId := variant_colorId v;
     variant_styleId := variant_styleId v;
     variant_productId := variant_productId v |}.

(** [update({ where: { id }, data: { stock } })]: the column holds integers,
    any other Number is rejected.  The column is taken to hold every
    integer: the schema, which fixes its width, is not among the sources. *)
Definition update_stock (id : string) (stock : Number) : M ProductVariant :=
  match stock with
  | Int n => update variant_model id (set_stock n)
  | _ => throw validation_error
  end.

Definition variants_updateStock (id : string) (b : StockBody)
  : Store -> Response * Store :=
  try_catch
    (match kb_stock b with
     | None => ret (json_fail 400 "Stock value is required")
     | Some stock =>
         existingVariant <- findUnique variant_model id ;;
         match existingVariant with
         | None => ret (json_fail 404 "Variant not found")
         | Some existing =>
             variant <- update_stock id
               (newStock (or_string (kb_operation b) "set")
                  (variant_stock existing) stock) ;;
             ret (json_done 200 (Some (OneVariant variant))
                    "Variant stock updated successfully")
         end
     end)
    (json_unexpected "Failed to update variant stock").

(** ** colors.js *)

Definition name_contains {A : Type} (name : A -> string) (search : option string)
  (a : A) : bool :=
  match or_null search with
  | Some needle => contains_insensitive (name a) needle
  | None => true
  end.

Definition colors_list (q : Query) : Store -> Response * Store :=
  try_catch
    (list_page color_model (name_contains color_name (q_search q))
       ("name", "asc") Colors
       (or_default (q_page q) (Num 1)) (or_default (q_limit q) (Num 50)))
    (json_unexpected "Failed to fetch colors").

Definition colors_all : Store -> Response * Store :=
  try_catch
    (found <- findMany color_model (fun _ => true) None ;;
     ret (json_data (Some (Colors found))))
    (json_unexpected "Failed to fetch colors").

Definition colors_get (id : string) : Store -> Response * Store :=
  try_catch
    (color <- findUnique color_model id ;;
     match color with
     | None => ret (json_fail 404 "Color not found")
     | Some c => ret (json_data (Some (OneColor c)))
     end)
    (json_unexpected "Failed to fetch color").

Definition colors_create (b : ColorBody) : Store -> Response * Store :=
  try_catch
    (if given (cb_name b)
     then
       color <- create color_model
         (fun id =>
            {| color_id := id;
               color_name := trim (or_string (cb_name b) "");
               color_hexCode := trim_or_null (cb_hexCode b) |}) ;;
       ret (json_done 201 (Some (OneColor color)) "Color created successfully")
     else ret (json_fail 400 "Color name is required"))
    (catch_unique "Color name already exists" "Failed to create color").

Definition apply_color_body (b : ColorBody) (c : Color) : Color :=
  {| color_id := color_id c;
     color_name := patched (trim_opt (cb_name b)) (color_name c);
     color_hexCode :=
       match cb_hexCode b with
       | Some _ => trim_or_null (cb_hexCode b)
       | None => color_hexCode c
       end |}.

Definition colors_update (id : string) (b : ColorBody) : Store -> Response * Store :=
  try_catch
    (existingColor <- findUnique color_model id ;;
     match existingColor with
     | None => ret (json_fail 404 "Color not found")
     | Some _ =>
         color <- update color_model id (apply_color_body b) ;;
         ret (json_done 200 (Some (OneColor color)) "Color updated successfully")
     end)
    (catch_unique "Color name already exists" "Failed to update color").

(** [_count.variants] of a colour. *)
Definition color_uses (id : string) (s : Store) : Z :=
  Z.of_nat (List.length
    (filter (fun v => field_is (variant_colorId v) (Some id)) (variants s))).

Definition colors_delete (id : string) : Store -> Response * Store :=
  try_catch
    (existingColor <- findUniqueCounting color_model id (color_uses id) ;;
     match existingColor with
     | None => ret (json_fail 404 "Color not found")
     | Some (_, count_variants) =>
         if 0 <? count_variants
         then ret (json_fail 400
                "Cannot delete color that is used by product variants")
         else
           _ <- delete color_model id ;;
           ret (json_done 200 None "Color deleted successfully")
     end)
    (json_unexpected "Failed to delete color").

(** [color.name?.trim()] as a condition. *)
Definition has_name (name : option string) : bool :=
  given (trim_opt name).

Definition validColors (l : list ColorBody) : list ColorBody :=
  filter (fun color => has_name (cb_name color)) l.

Definition new_color (color : ColorBody) (id : string) : Color :=
  {| color_id := id;
     color_name := trim (or_string (cb_name color) "");
     color_hexCode := trim_or_null (cb_hexCode color) |}.

(** [colors] is [None] when the body has no array under that name. *)
Definition colors_bulk (colors : option (list ColorBody))
  : Store -> Response * Store :=
  try_catch
    (match colors with
     | None | Some [] => ret (json_fail 400 "Colors array is required")
     | Some l =>
         match validColors l with
         | [] => ret (json_fail 400
                   "At least one valid color with name is required")
         | valid =>
             n <- createMany_skipDuplicates color_model (map new_color valid) ;;
             ret (json_done 201 (Some (Count n))
                    (string_of_Z n ++ " colors created successfully"))
         end
     end)
    (json_unexpected "Failed to create colors").

(** ** styles.js *)

Definition validFitTypes : list string :=
  ["SKINNY"; "RELAXED"; "OVERSIZED"; "CLASSIC"].

Definition includes (l : list string) (x : string) : bool :=
  existsb (fun y => (y =? x)%string) l.

Definition styles_list (q : Query) : Store -> Response * Store :=
  try_catch
    (list_page style_model
       (fun st =>
          name_contains style_name (q_search q) st
          && field_is (Some (style_fitType st))
               (option_map toUpperCase (or_null (q_fitType q))))
       ("name", "asc") Styles
       (or_default (q_page q) (Num 1)) (or_default (q_limit q) (Num 50)))
    (json_unexpected "Failed to fetch styles").

Definition styles_fitTypes : Store -> Response * Store :=
  try_catch
    (ret (json_data (Some (FitTypes validFitTypes))))
    (json_unexpected "Failed to fetch fit types").

Definition styles_get (id : string) : Store -> Response * Store :=
  try_catch
    (style <- findUnique style_model id ;;
     match style with
     | None => ret (json_fail 404 "Style not found")
     | Some st => ret (json_data (Some (OneStyle st)))
     end)
    (json_unexpected "Failed to fetch style").

Definition styles_create (b : StyleBody) : Store -> Response * Store :=
  try_catch
    (if negb (given (sb_name b))
     then ret (json_fail 400 "Style name is required")
     else if negb (given (sb_fitType b))
     then ret (json_fail 400 "Fit type is required")
     else if negb (includes validFitTypes
                     (toUpperCase (or_string (sb_fitType b) "")))
     then ret (json_fail 400
            "Invalid fit type. Must be one of: SKINNY, RELAXED, OVERSIZED, CLASSIC")
     else
       style <- create style_model
         (fun id =>
            {| style_id := id;
               style_name := trim (or_string (sb_name b) "");
               style_fitType := toUpperCase (or_string (sb_fitType b) "") |}) ;;
       ret (json_done 201 (Some (OneStyle style)) "Style created successfully"))
    (catch_unique "Style name already exists" "Failed to create style").

Definition apply_style_body (b : StyleBody) (st : Style) : Style :=
  {| style_id := style_id st;
     style_name := patched (trim_opt (sb_name b)) (style_name st);
     style_fitType := patched (option_map toUpperCase (sb_fitType b)) (style_fitType st) |}.

Definition styles_update (id : string) (b : StyleBody) : Store -> Response * Store :=
  try_catch
    (existingStyle <- findUnique style_model id ;;
     match existingStyle with
     | None => ret (json_fail 404 "Style not found")
     | Some _ =>
         if match sb_fitType b with
            | Some fitType => negb (includes validFitTypes (toUpperCase fitType))
            | None => false
            end
         then ret (json_fail 400
                "Invalid fit type. Must be one of: SKINNY, RELAXED, OVERSIZED, CLASSIC")
         else
           style <- update style_model id (apply_style_body b) ;;
           ret (json_done 200 (Some (OneStyle style)) "Style updated successfully")
     end)
    (catch_unique "Style name already exists" "Failed to update style").

(** [_count.variants] of a style. *)
Definition style_uses (id : string) (s : Store) : Z :=
  Z.of_nat (List.length
    (filter (fun v => field_is (variant_styleId v) (Some id)) (variants s))).

Definition styles_delete (id : string) : Store -> Response * Store :=
  try_catch
    (existingStyle <- findUniqueCounting style_model id (style_uses id) ;;
     match existingStyle with
     | None => ret (json_fail 404 "Style not found")
     | Some (_, count_variants) =>
         if 0 <? count_variants
         then ret (json_fail 400
                "Cannot delete style that is used by product variants")
         else
           _ <- delete style_model id ;;
           ret (json_done 200 None "Style deleted successfully")
     end)
    (json_unexpected "Failed to delete style").

Definition validStyles (l : list StyleBody) : list StyleBody :=
  filter (fun style =>
            has_name (sb_name style)
            && given (sb_fitType style)
            && includes validFitTypes (toUpperCase (or_string (sb_fitType style) "")))
         l.

Definition new_style (style : StyleBody) (id : string) : Style :=
  {| style_id := id;
     style_name := trim (or_string (sb_name style) "");
     style_fitType := toUpperCase (or_string (sb_fitType style) "") |}.

Definition styles_bulk (styles : option (list StyleBody))
  : Store -> Response * Store :=
  try_catch
    (match styles with
     | None | Some [] => ret (json_fail 400 "Styles array is required")
     | Some l =>
         match validStyles l with
         | [] => ret (json_fail 400
                   "At least one valid style with name and fitType is required")
         | valid =>
             n <- createMany_skipDuplicates style_model (map new_style valid) ;;
             ret (json_done 201 (Some (Count n))
                    (string_of_Z n ++ " styles created successfully"))
         end
     end)
    (json_unexpected "Failed to create styles").

(** ** collections.js *)

Definition collections_list (q : Query) : Store -> Response * Store :=
  try_catch
    (list_page collection_model
       (fun c =>
          match or_null (q_search q) with
          | Some needle =>
              contains_insensitive (collection_name c) needle
              || contains_opt (collection_description c) needle
          | None => true
          end)
       ("name", "asc") Collections
       (or_default (q_page q) (Num 1)) (or_default (q_limit q) (Num 50)))
    (json_unexpected "Failed to fetch collections").

Definition collections_get (id : string) : Store -> Response * Store :=
  try_catch
    (collection <- findUnique collection_model id ;;
     match collection with
     | None => ret (json_fail 404 "Collection not found")
     | Some c => ret (json_data (Some (OneCollection c)))
     end)
    (json_unexpected "Failed to fetch collection").

Definition collections_create (b : CollectionBody) : Store -> Response * Store :=
  try_catch
    (if given (lb_name b)
     then
       collection <- create collection_model
         (fun id =>
            {| collection_id := id;
               collection_name := trim (or_string (lb_name b) "");
               collection_description := trim_opt (lb_description b) |}) ;;
       ret (json_done 201 (Some (OneCollection collection))
              "Collection created successfully")
     else ret (json_fail 400 "Collection name is required"))
    (catch_unique "Collection name already exists" "Failed to create collection").

Definition apply_collection_body (b : CollectionBody) (c : Collection) : Collection :=
  {| collection_id := collection_id c;
     collection_name := patched (trim_opt (lb_name b)) (collection_name c);
     collection_description :=
       match lb_description b with
       | Some _ => trim_opt (lb_description b)
       | None => collection_description c
       end |}.

Definition collections_update (id : string) (b : CollectionBody)
  : Store -> Response * Store :=
  try_catch
    (existingCollection <- findUnique collection_model id ;;
     match existingCollection with
     | None => ret (json_fail 404 "Collection not found")
     | Some _ =>
         collection <- update collection_model id (apply_collection_body b) ;;
         ret (json_done 200 (Some (OneCollection collection))
                "Collection updated successfully")
     end)
    (catch_unique "Collection name already exists" "Failed to update collection").

(** [_count.products] and [_count.variants] of a collection: its join rows. *)
Definition collection_uses (id : string) (s : Store) : Z * Z :=
  (Z.of_nat (List.length
     (filter (fun r => (pc_collectionId r =? id)%string) (productCollections s))),
   Z.of_nat (List.length
     (filter (fun r => (vc_collectionId r =? id)%string) (variantCollections s)))).

Definition collections_delete (id : string) : Store -> Response * Store :=
  try_catch
    (existingCollection <-
       findUniqueCounting collection_model id (collection_uses id) ;;
     match existingCollection with
     | None => ret (json_fail 404 "Collection not found")
     | Some (_, (count_products, count_variants)) =>
         if (0 <? count_products) || (0 <? count_variants)
         then ret (json_fail 400
                "Cannot delete collection that contains products or variants")
         else
           _ <- delete collection_model id ;;
           ret (json_done 200 None "Collection deleted successfully")
     end)
    (json_unexpected "Failed to delete collection").

(** ** brands.js *)

Definition brands_list (q : Query) : Store -> Response * Store :=
  try_catch
    (list_page brand_model (name_contains brand_name (q_search q))
       ("name", "asc") Brands
       (or_default (q_page q) (Num 1)) (or_default (q_limit q) (Num 50)))
    (json_unexpected "Failed to fetch brands").

Definition brands_get (id : string) : Store -> Response * Store :=
  try_catch
    (brand <- findUnique brand_model id ;;
     match brand with
     | None => ret (json_fail 404 "Brand not found")
     | Some b => ret (json_data (Some (OneBrand b)))
     end)
    (json_unexpected "Failed to fetch brand").

Definition brands_create (b : BrandBody) : Store -> Response * Store :=
  try_catch
    (if given (bb_name b)
     then
       brand <- create brand_model
         (fun id =>
            {| brand_id := id;
               brand_name := trim (or_string (bb_name b) "");
               brand_logo := trim_opt (bb_logo b) |}) ;;
       ret (json_done 201 (Some (OneBrand brand)) "Brand created successfully")
     else ret (json_fail 400 "Brand name is required"))
    (catch_unique "Brand name already exists" "Failed to create brand").

Definition apply_brand_body (b : BrandBody) (x : Brand) : Brand :=
  {| brand_id := brand_id x;
     brand_name := patched (trim_opt (bb_name b)) (brand_name x);
     brand_logo :=
       match bb_logo b with
       | Some _ => trim_opt (bb_logo b)
       | None => brand_logo x
       end |}.

Definition brands_update (id : string) (b : BrandBody) : Store -> Response * Store :=
  try_catch
    (existingBrand <- findUnique brand_model id ;;
     match existingBrand with
     | None => ret (json_fail 404 "Brand not found")
     | Some _ =>
         brand <- update brand_model id (apply_brand_body b) ;;
         ret (json_done 200 (Some (OneBrand brand)) "Brand updated successfully")
     end)
    (catch_unique "Brand name already exists" "Failed to update brand").

(** [_count.products] of a brand. *)
Definition brand_uses (id : string) (s : Store) : Z :=
  Z.of_nat (List.length
    (filter (fun p => field_is (product_brandId p) (Some id)) (products s))).

Definition brands_delete (id : string) : Store -> Response * Store :=
  try_catch
    (existingBrand <- findUniqueCounting brand_model id (brand_uses id) ;;
     match existingBrand with
     | None => ret (json_fail 404 "Brand not found")
     | Some (_, count_products) =>
         if 0 <? count_products
         then ret (json_fail 400 "Cannot delete brand that has products")
         else
           _ <- delete brand_model id ;;
           ret (json_done 200 None "Brand deleted successfully")
     end)
    (json_unexpected "Failed to delete brand").

(** ** server.js *)

(** [process.env.NODE_ENV] *)
Record Env : Type := { NODE_ENV : option string }.

Definition development (env : Env) : bool :=
  match NODE_ENV env with
  | Some v => (v =? "development")%string
  | None => false
  end.

Definition health : Response :=
  {| status := 200; success := None; error := None; message := None;
     data := Some Health; pagination := None |}.

(** [app.use('*', ...)], reached when no route has answered. *)
Definition notFound (originalUrl : string) : Response :=
  json_plain 404 "Route not found"
    ("The requested route " ++ originalUrl ++ " does not exist.").

(** [app.use((error, req, res, next) => ...)], reached with the errors that
    the middleware in front of the routers passes on. *)
Definition errorHandler (env : Env) (e : Error) : Response :=
  if has_code e "P2002"
  then json_plain 400 "Unique constraint violation"
         "A record with this data already exists."
  else if has_code e "P2025"
  then json_plain 404 "Record not found" "The requested record does not exist."
  else json_plain 500 "Internal server error"
         (if development env then err_message e else "Something went wrong.").

(** ** The application: one constructor per route *)

Inductive Request : Type :=
| GetProducts (q : Query)
| GetProduct (id : string)
| GetProductBySlug (slug : string)
| PostProduct (b : ProductBody)
| PutProduct (id : string) (b : ProductPatch) (others : list (string * Json))
| DeleteProduct (id : string)
| GetVariants (q : Query)
| GetVariant (id : string)
| GetVariantsOfProduct (productId : string) (q : Query)
| PostVariant (b : VariantBody)
| PutVariant (id : string) (b : VariantPatch) (others : list (string * Json))
| DeleteVariant (id : string)
| PatchVariantStock (id : string) (b : StockBody)
| GetColors (q : Query)
| GetAllColors
| GetColor (id : string)
| PostColor (b : ColorBody)
| PutColor (id : string) (b : ColorBody)
| DeleteColor (id : string)
| PostColorsBulk (l : option (list ColorBody))
| GetStyles (q : Query)
| GetFitTypes
| GetStyle (id : string)
| PostStyle (b : StyleBody)
| PutStyle (id : string) (b : StyleBody)
| DeleteStyle (id : string)
| PostStylesBulk (l : option (list StyleBody))
| GetCollections (q : Query)
| GetCollection (id : string)
| PostCollection (b : CollectionBody)
| PutCollection (id : string) (b : CollectionBody)
| DeleteCollection (id : string)
| GetBrands (q : Query)
| GetBrand (id : string)
| PostBrand (b : BrandBody)
| PutBrand (id : string) (b : BrandBody)
| DeleteBrand (id : string)
| GetHealth
| Unrouted (originalUrl : string)
| Failed (e : Error).

(** Requests answered by one of the six routers. *)
Definition routed (r : Request) : bool :=
  match r with
  | GetHealth | Unrouted _ | Failed _ => false
  | _ => true
  end.

Definition app (env : Env) (r : Request) : Store -> Response * Store :=
  match r with
  | GetProducts q => products_list q
  | GetProduct id => products_get id
  | GetProductBySlug slug => products_getBySlug slug
  | PostProduct b => products_create b
  | PutProduct id b others => products_update id b others
  | DeleteProduct id => products_delete id
  | GetVariants q => variants_list q
  | GetVariant id => variants_get id
  | GetVariantsOfProduct productId q => variants_byProduct productId q
  | PostVariant b => variants_create b
  | PutVariant id b others => variants_update id b others
  | DeleteVariant id => variants_delete id
  | PatchVariantStock id b => variants_updateStock id b
  | GetColors q => colors_list q
  | GetAllColors => colors_all
  | GetColor id => colors_get id
  | PostColor b => colors_create b
  | PutColor id b => colors_update id b
  | DeleteColor id => colors_delete id
  | PostColorsBulk l => colors_bulk l
  | GetStyles q => styles_list q
  | GetFitTypes => styles_fitTypes
  | GetStyle id => styles_get id
  | PostStyle b => styles_create b
  | PutStyle id b => styles_update id b
  | DeleteStyle id => styles_delete id
  | PostStylesBulk l => styles_bulk l
  | GetCollections q => collections_list q
  | GetCollection id => collections_get id
  | PostCollection b => collections_create b
  | PutCollection id b => collections_update id b
  | DeleteCollection id => collections_delete id
  | GetBrands q => brands_list q
  | GetBrand id => brands_get id
  | PostBrand b => brands_create b
  | PutBrand id b => brands_update id b
  | DeleteBrand id => brands_delete id
  | GetHealth => fun s => (health, s)
  | Unrouted originalUrl => fun s => (notFound originalUrl, s)
  | Failed e => fun s => (errorHandler env e, s)
  end.

(** * Vocabulary of the specification

    The definitions of this part say what the specification says, in its
    own terms; the theorems below compare the handlers with them. *)

(** "Referenced by at least one Variant" (colours, styles), "by at least one
    Product" (brands), "by any product or variant join row" (collections). *)
Definition color_referenced (id : string) (s : Store) : bool :=
  existsb (fun v => field_is (variant_colorId v) (Some id)) (variants s).

Definition style_referenced (id : string) (s : Store) : bool :=
  existsb (fun v => field_is (variant_styleId v) (Some id)) (variants s).

Definition brand_referenced (id : string) (s : Store) : bool :=
  existsb (fun p => field_is (product_brandId p) (Some id)) (products s).

Definition collection_referenced (id : string) (s : Store) : bool :=
  existsb (fun r => (pc_collectionId r =? id)%string) (productCollections s)
  || existsb (fun r => (vc_collectionId r =? id)%string) (variantCollections s).

(** The guarded delete: 404 and no change for an unknown id, 400 and no
    change while the row is referenced, 200 and the row gone otherwise. *)
Definition guarded_delete {A : Type} (T : Model A) (referenced : bool)
  (id : string) (s : Store) (out : Response * Store) : Prop :=
  match find (has_id T id) (rows T s) with
  | None =>
      status (fst out) = 404 /\ success (fst out) = Some false /\ snd out = s
  | Some _ =>
      if referenced
      then status (fst out) = 400 /\ success (fst out) = Some false /\ snd out = s
      else status (fst out) = 200 /\ success (fst out) = Some true
           /\ snd out = with_rows T (without_id T id (rows T s)) s
           /\ find (has_id T id) (rows T (snd out)) = None
  end.

(** "Sets the new stock to": the variant with that stock and every other
    column as it was. *)
Definition restocked (target : Z) (v v' : ProductVariant) : Prop :=
  variant_stock v' = target
  /\ variant_id v' = variant_id v
  /\ variant_variantId v' = variant_variantId v
  /\ variant_sku v' = variant_sku v
  /\ variant_fullVariantName v' = variant_fullVariantName v
  /\ variant_variantName v' = variant_variantName v
  /\ variant_managedVariant v' = variant_managedVariant v
  /\ variant_colorId v' = variant_colorId v
  /\ variant_styleId v' = variant_styleId v
  /\ variant_productId v' = variant_productId v.

(** The outcome of a stock request that sets the stock of the stored
    variant [v] to [target]: the answer is 200 with the restocked variant,
    which is the row now stored under the identifier, the other rows and
    tables being as they were. *)
Definition stock_set (id : string) (target : Z) (v : ProductVariant) (s : Store)
  (out : Response * Store) : Prop :=
  exists v',
    restocked target v v'
    /\ fst out = json_done 200 (Some (OneVariant v'))
                   "Variant stock updated successfully"
    /\ find (has_id variant_model id) (variants (snd out)) = Some v'
    /\ snd out = with_variants (replace_row variant_model id v' (variants s)) s.

(** "pages == ceil(total/limit)": [pages] is the least number of pages of
    [limit] rows that hold [total] rows. *)
Definition is_ceiling (pages total limit : Z) : Prop :=
  (pages - 1) * limit < total <= pages * limit.

(** "Skips exactly (page-1)*limit records before taking items", and takes
    [limit] of them at most. *)
Definition page_rows {A : Type} (page limit : Z) (matching : list A) : list A :=
  firstn (Z.to_nat limit) (skipn (Z.to_nat ((page - 1) * limit)) matching).

(** A list response for page [page] of [limit] rows, where [matching] are
    the rows that pass the filter, in the order asked for, and [total] is
    their count. *)
Definition paginated {A : Type} (wrap : list A -> Payload) (matching : list A)
  (total page limit : Z) (r : Response) : Prop :=
  status r = 200
  /\ exists pages items,
       pagination r
       = Some {| pg_page := Int page; pg_limit := Int limit;
                 pg_total := total; pg_pages := Int pages |}
       /\ is_ceiling pages total limit
       /\ data r = Some (wrap items)
       /\ items = page_rows page limit matching
       /\ Z.of_nat (List.length items) <= limit.


(** The collections a product or a variant is associated with: the members
    of its join rows, in storage order. *)
Definition associations {J : Type} (Jn : Join J) (id : string) (s : Store)
  : list string :=
  map (member Jn) (filter (owned_by Jn id) (links Jn s)).

(** "Replace the full child association set": with [collectionIds], once
    the update has completed (the answer is 200), the associations of the
    row are the supplied ones; those of every other row are untouched when
    the body has no member beyond the columns.  Without [collectionIds], and
    with no member beyond the columns, the join rows stay as they are. *)
Definition replaces_associations {J : Type} (Jn : Join J)
  (collectionIds : option (list string)) (others : list (string * Json))
  (id : string) (s : Store) (out : Response * Store) : Prop :=
  match collectionIds with
  | None => others = [] -> links Jn (snd out) = links Jn s
  | Some supplied =>
      status (fst out) = 200 ->
      associations Jn id (snd out) = supplied
      /\ (others = [] ->
          forall other, other <> id ->
            associations Jn other (snd out) = associations Jn other s)
  end.

(** The supplied identifiers are pairwise different and name stored
    collections. *)
Definition insertable (collectionIds : list string) (s : Store) : Prop :=
  NoDup collectionIds
  /\ forall c, In c collectionIds -> stored collection_id (collections s) c = true.

(** No stored style has the name. *)
Definition style_name_free (name : string) (s : Store) : Prop :=
  forall st, In st (styles s) -> style_name st <> name.

(** "Each entry whose trimmed name is already held by a stored row or by an
    entry inserted before it" is left out: the entries of a batch that are
    inserted, in the order of the batch, given the names held so far. *)
Fixpoint not_yet_held {E : Type} (name : E -> string) (held : list string)
  (entries : list E) : list E :=
  match entries with
  | [] => []
  | e :: rest =>
      if includes held (name e) then not_yet_held name held rest
      else e :: not_yet_held name (held ++ [name e]) rest
  end.

(** The rows made one after the other, with the identifiers that the store
    generates from the [n]-th on. *)
Fixpoint numbered {A : Type} (n : nat) (made : list (string -> A)) : list A :=
  match made with
  | [] => []
  | mk :: rest => mk (fresh_id n) :: numbered (S n) rest
  end.

(** What a bulk insert that skips duplicates leaves: the rows made of the
    entries that are not yet held are appended to the table, in the order of
    the batch, and [n] is their number. *)
Definition inserted_skipping_duplicates {A E : Type} (T : Model A)
  (stored_name : A -> string) (name : E -> string) (make : E -> string -> A)
  (entries : list E) (s s' : Store) (n : Z) : Prop :=
  let inserted := not_yet_held name (map stored_name (rows T s)) entries in
  rows T s' = (rows T s ++ numbered (next_id s) (map make inserted))%list
  /\ n = Z.of_nat (List.length inserted).

(** The name that a bulk entry is stored under. *)
Definition trimmed_name (name : option string) : string :=
  trim (or_string name "").

(** The required fields of a bulk entry: a name that is not blank, and for
    a style a fit type that is one of the four once upper-cased. *)
Definition color_entry_ok (e : ColorBody) : Prop :=
  exists name, cb_name e = Some name /\ trim name <> "".

Definition style_entry_ok (e : StyleBody) : Prop :=
  (exists name, sb_name e = Some name /\ trim name <> "")
  /\ exists fitType,
       sb_fitType e = Some fitType
       /\ In (toUpperCase fitType) ["SKINNY"; "RELAXED"; "OVERSIZED"; "CLASSIC"].

(** The same query without its [inStock] parameter. *)
Definition without_inStock (q : Query) : Query :=
  {| q_page := q_page q; q_limit := q_limit q; q_search := q_search q;
     q_brandId := q_brandId q; q_productTypeId := q_productTypeId q;
     q_productId := q_productId q; q_colorId := q_colorId q;
     q_styleId := q_styleId q; q_fitType := q_fitType q;
     q_inStock := None;
     q_minPrice := q_minPrice q; q_maxPrice := q_maxPrice q;
     q_sortBy := q_sortBy q; q_sortOrder := q_sortOrder q |}.











(** * Sample data

    One product with one variant, the colour, style, brand and collection
    they refer to, and one more colour, style and collection that nothing
    refers to. *)

Definition red : Color :=
  {| color_id := "c1"; color_name := "Red"; color_hexCode := Some "#FF0000" |}.

Definition blue : Color :=
  {| color_id := "c2"; color_name := "Blue"; color_hexCode := None |}.

Definition slim : Style :=
  {| style_id := "s1"; style_name := "Slim"; style_fitType := "SKINNY" |}.

Definition loose : Style :=
  {| style_id := "s2"; style_name := "Loose"; style_fitType := "RELAXED" |}.

Definition acme : Brand :=
  {| brand_id := "b1"; brand_name := "Acme"; brand_logo := None |}.

Definition summer : Collection :=
  {| collection_id := "k1"; collection_name := "Summer";
     collection_description := None |}.

Definition winter : Collection :=
  {| collection_id := "k2"; collection_name := "Winter";
     collection_description := None |}.

(** Five pieces in stock, and the [inStock] flag off. *)
Definition tee : Product :=
  {| product_id := "p1"; product_name := "Tee"; product_slug := "tee";
     product_sku := "T-1"; product_description := None;
     product_price := parseFloat "25"; product_currency := "USD";
     product_quantityInStock := 5; product_inStock := false;
     product_brandId := Some "b1"; product_productTypeId := None |}.

Definition red_tee : ProductVariant :=
  {| variant_id := "v1"; variant_variantId := "T-1-RED";
     variant_sku := "T-1-RED"; variant_fullVariantName := "Tee - Red";
     variant_variantName := "Red"; variant_stock := 3;
     variant_managedVariant := true; variant_colorId := Some "c1";
     variant_styleId := Some "s1"; variant_productId := "p1" |}.

Definition sample_store : Store :=
  {| products := [tee];
     variants := [red_tee];
     colors := [red; blue];
     styles := [slim; loose];
     collections := [summer; winter];
     brands := [acme];
     productTypes := [];
     productCollections := [{| pc_productId := "p1"; pc_collectionId := "k1" |}];
     variantCollections := [];
     next_id := 10%nat;
     outage := None |}.

(** The same store while the database cannot be reached. *)
Definition unreachable_store : Store :=
  {| products := [tee];
     variants := [red_tee];
     colors := [red; blue];
     styles := [slim; loose];
     collections := [summer; winter];
     brands := [acme];
     productTypes := [];
     productCollections := [{| pc_productId := "p1"; pc_collectionId := "k1" |}];
     variantCollections := [];
     next_id := 10%nat;
     outage := Some {| err_code := Some "P1001";
                       err_message := "Can't reach database server at db.internal:5432" |} |}.

Definition no_query : Query :=
  {| q_page := None; q_limit := None; q_search := None; q_brandId := None;
     q_productTypeId := None; q_productId := None; q_colorId := None;
     q_styleId := None; q_fitType := None; q_inStock := None;
     q_minPrice := None; q_maxPrice := None; q_sortBy := None;
     q_sortOrder := None |}.

Definition query_inStock (value : string) : Query :=
  {| q_page := None; q_limit := None; q_search := None; q_brandId := None;
     q_productTypeId := None; q_productId := None; q_colorId := None;
     q_styleId := None; q_fitType := None; q_inStock := Some value;
     q_minPrice := None; q_maxPrice := None; q_sortBy := None;
     q_sortOrder := None |}.


(** A store for the sample data that carries out one nested write,
    [collections: { deleteMany: {} }]: with the update of the columns, the
    join rows of the row are deleted.  It rejects a body with any other
    member beyond the columns, as the ORM client rejects an argument that
    it does not know. *)
Definition sample_update_members (A J : Type) (T : Model A) (Jn : Join J)
  (id : string) (f : A -> A) (others : list (string * Json))
  : Store -> (Error + A) * Store :=
  match others with
  | [(relation, JObject [(write, JObject [])])] =>
      if (relation =? "collections")%string && (write =? "deleteMany")%string
      then
        fun s =>
          match update T id f s with
          | (inr a, s') =>
              (inr a,
               with_links Jn
                 (filter (fun r => negb (owned_by Jn id r)) (links Jn s')) s')
          | rejected => rejected
          end
      else fun s => (inl validation_error, s)
  | _ => fun s => (inl validation_error, s)
  end.

(** A product update that only carries [collectionIds]. *)
Definition only_collections (collectionIds : option (list string)) : ProductPatch :=
  {| pp_name := None; pp_slug := None; pp_sku := None; pp_description := None;
     pp_price := None; pp_currency := None; pp_quantityInStock := None;
     pp_inStock := None; pp_brandId := None; pp_productTypeId := None;
     pp_collectionIds := collectionIds |}.

(** * Vocabulary of the handlers

    What the properties of the second part are stated with: the verb of a
    route, assertions on a computation, the invariants of the tables. *)

(** The verb a route is registered with ([router.get], [router.post], ...);
    the two handlers of the application file answer every verb. *)
Inductive Method : Type := GET | POST | PUT | PATCH | DELETE.

Definition method (r : Request) : option Method :=
  match r with
  | GetProducts _ | GetProduct _ | GetProductBySlug _
  | GetVariants _ | GetVariant _ | GetVariantsOfProduct _ _
  | GetColors _ | GetAllColors | GetColor _
  | GetStyles _ | GetFitTypes | GetStyle _
  | GetCollections _ | GetCollection _
  | GetBrands _ | GetBrand _ | GetHealth => Some GET
  | PostProduct _ | PostVariant _ | PostColor _ | PostColorsBulk _
  | PostStyle _ | PostStylesBulk _ | PostCollection _ | PostBrand _ => Some POST
  | PutProduct _ _ _ | PutVariant _ _ _ | PutColor _ _ | PutStyle _ _
  | PutCollection _ _ | PutBrand _ _ => Some PUT
  | PatchVariantStock _ _ => Some PATCH
  | DeleteProduct _ | DeleteVariant _ | DeleteColor _ | DeleteStyle _
  | DeleteCollection _ | DeleteBrand _ => Some DELETE
  | Unrouted _ | Failed _ => None
  end.

(** The body of the request has no member beyond the columns of the row.
    This restricts the requests to the two update handlers that hand the
    body to the store, [PUT /products/:id] and [PUT /variants/:id]. *)
Definition columns_only (r : Request) : Prop :=
  match r with
  | PutProduct _ _ others | PutVariant _ _ others => others = []
  | _ => True
  end.

(** [triple P m Q R]: run from a store that satisfies [P], the computation
    [m] resolves with a value and a store related by [Q], or rejects with an
    error and a store related by [R]. *)
Definition triple {A : Type} (P : Store -> Prop) (m : M A)
  (Q : A -> Store -> Prop) (R : Error -> Store -> Prop) : Prop :=
  forall s, P s ->
    match m s with
    | (inr a, s') => Q a s'
    | (inl e, s') => R e s'
    end.

(** A computation that keeps an invariant of the store, whatever its
    outcome. *)
Definition keeps {A : Type} (I : Store -> Prop) (m : M A) : Prop :=
  triple I m (fun _ => I) (fun _ => I).

(** A store call that only reads. *)
Definition reads_only {A : Type} (m : M A) : Prop :=
  forall s, snd (m s) = s.

(** The identifier that the store generates next is not in use in the
    table. *)
Definition fresh_for {A : Type} (T : Model A) (s : Store) : Prop :=
  forall a, In a (rows T s) -> pk T a <> fresh_id (next_id s).

(** What an update handler leaves, seen through the lookup handler of the
    same router. *)
Definition updates_one_row {A : Type} (T : Model A) (wrap : A -> Payload)
  (done : string) (get : string -> Store -> Response * Store)
  (id : string) (a' : A) (s : Store) (out : Response * Store) : Prop :=
  fst out = json_done 200 (Some (wrap a')) done
  /\ get id (snd out) = (json_data (Some (wrap a')), snd out)
  /\ (forall id', id' <> id -> fst (get id' (snd out)) = fst (get id' s))
  /\ List.length (rows T (snd out)) = List.length (rows T s).

(** A variant update whose body has no member. *)
Definition empty_variant_patch : VariantPatch :=
  {| vp_variantId := None; vp_sku := None; vp_fullVariantName := None;
     vp_variantName := None; vp_stock := None; vp_managedVariant := None;
     vp_colorId := None; vp_styleId := None; vp_productId := None;
     vp_collectionIds := None |}.

(** The tables of the store, named after the models of the ORM client. *)
Inductive Table : Type :=
| TProduct | TProductVariant | TColor | TStyle | TCollection | TBrand
| TProductType | TProductCollection | TVariantCollection.

Definition same_table (t : Table) (s s' : Store) : Prop :=
  match t with
  | TProduct => products s' = products s
  | TProductVariant => variants s' = variants s
  | TColor => colors s' = colors s
  | TStyle => styles s' = styles s
  | TCollection => collections s' = collections s
  | TBrand => brands s' = brands s
  | TProductType => productTypes s' = productTypes s
  | TProductCollection => productCollections s' = productCollections s
  | TVariantCollection => variantCollections s' = variantCollections s
  end.

(** The tables that the handler of a request has a writing call on
    ([create], [createMany], [update], [delete], [deleteMany]), with its
    nested writes and, for the two unguarded deletions, the tables whose
    rows go with the deleted row. *)
Definition written (r : Request) : list Table :=
  match r with
  | PostProduct _ | PutProduct _ _ _ => [TProduct; TProductCollection]
  | DeleteProduct _ =>
      [TProduct; TProductVariant; TProductCollection; TVariantCollection]
  | PostVariant _ | PutVariant _ _ _ | DeleteVariant _ =>
      [TProductVariant; TVariantCollection]
  | PatchVariantStock _ _ => [TProductVariant]
  | PostColor _ | PutColor _ _ | DeleteColor _ | PostColorsBulk _ => [TColor]
  | PostStyle _ | PutStyle _ _ | DeleteStyle _ | PostStylesBulk _ => [TStyle]
  | PostCollection _ | PutCollection _ _ | DeleteCollection _ => [TCollection]
  | PostBrand _ | PutBrand _ _ | DeleteBrand _ => [TBrand]
  | _ => []
  end.

(** Every stored style has one of the four fit types. *)
Definition fitTypes_valid (s : Store) : Prop :=
  Forall (fun st => In (style_fitType st) validFitTypes) (styles s).

(** Every reference held by a row points to a stored row: the product,
    colour and style of a variant, the brand and type of a product, the
    owner and the collection of a join row. *)
Definition references_intact (s : Store) : Prop :=
  (forall v, In v (variants s) -> references_ok variant_model s v = true)
  /\ (forall p, In p (products s) -> references_ok product_model s p = true)
  /\ (forall r, In r (productCollections s) ->
        stored product_id (products s) (pc_productId r) = true
        /\ stored collection_id (collections s) (pc_collectionId r) = true)
  /\ (forall r, In r (variantCollections s) ->
        stored variant_id (variants s) (vc_variantId r) = true
        /\ stored collection_id (collections s) (vc_collectionId r) = true).

(** The same list request for page [page] of [limit] rows, the two numbers
    written as decimal numerals. *)
Definition at_page (q : Query) (page limit : Z) : Query :=
  {| q_page := Some (string_of_Z page); q_limit := Some (string_of_Z limit);
     q_search := q_search q; q_brandId := q_brandId q;
     q_productTypeId := q_productTypeId q; q_productId := q_productId q;
     q_colorId := q_colorId q; q_styleId := q_styleId q;
     q_fitType := q_fitType q; q_inStock := q_inStock q;
     q_minPrice := q_minPrice q; q_maxPrice := q_maxPrice q;
     q_sortBy := q_sortBy q; q_sortOrder := q_sortOrder q |}.

(** Asking a list handler for pages 1 to [n] of [limit] rows gives, put end
    to end, the first [n * limit] of the rows that pass the filter, in the
    order asked for: no row comes twice and none is left out, and all of
    them have come once [n * limit] reaches their number. *)
Definition walks_pages {A : Type} (T : Model A) (where_ : Query -> A -> bool)
  (orderBy : Query -> string * string) (wrap : list A -> Payload)
  (handler : Query -> Store -> Response * Store) : Prop :=
  forall (q : Query) (s : Store) (limit : Z) (n : nat) (matching : list A),
    outage s = None ->
    1 <= limit ->
    ordered (Some (orderBy q)) (filter (where_ q) (rows T s)) = Some matching ->
    exists pages : list (list A),
      List.length pages = n
      /\ (forall i, (i < n)%nat ->
            data (fst (handler (at_page q (Z.of_nat (S i)) limit) s))
            = Some (wrap (nth i pages [])))
      /\ List.concat pages = firstn (n * Z.to_nat limit) matching
      /\ (Z.of_nat (List.length matching) <= Z.of_nat n * limit ->
          List.concat pages = matching).

(** The body of a stock request. *)
Definition stock_request (operation : string) (n : Z) : StockBody :=
  {| kb_stock := Some (Num n); kb_operation := Some operation |}.


(** Every stored name of a colour, style, brand or collection is as [trim]
    leaves it: it has no white space at either end. *)
Definition names_trimmed (s : Store) : Prop :=
  Forall (fun c => trim (color_name c) = color_name c) (colors s)
  /\ Forall (fun st => trim (style_name st) = style_name st) (styles s)
  /\ Forall (fun b => trim (brand_name b) = brand_name b) (brands s)
  /\ Forall (fun c => trim (collection_name c) = collection_name c) (collections s).

(** A list of patterns none of which is empty. *)
Definition proper (patterns : list string) : Prop :=
  Forall (fun p => p <> "") patterns.

(** What [trimStart] leaves does not start with a white space character. *)
Definition starts_black (s : string) : Prop :=
  after_any (map utf8 whiteSpace) s = None.

(** A lookup handler: 200 with the first stored row that has the key, 404
    when no stored row has it; the store is not changed. *)
Definition looks_up {A : Type} (T : Model A) (key : A -> string)
  (wrap : A -> Payload) (missing : string)
  (handler : string -> Store -> Response * Store) : Prop :=
  forall (value : string) (s : Store),
    outage s = None ->
    snd (handler value s) = s
    /\ ((exists a,
           In a (rows T s) /\ key a = value
           /\ fst (handler value s) = json_data (Some (wrap a)))
        \/ ((forall a, In a (rows T s) -> key a <> value)
            /\ fst (handler value s) = json_fail 404 missing)).

(** The same query with each filter that is the empty string left out: the
    search text, the identifiers, the fit type and the two prices.  [page],
    [limit], [inStock] and the ordering are as they were. *)
Definition without_empty (q : Query) : Query :=
  {| q_page := q_page q; q_limit := q_limit q;
     q_search := or_null (q_search q); q_brandId := or_null (q_brandId q);
     q_productTypeId := or_null (q_productTypeId q);
     q_productId := or_null (q_productId q);
     q_colorId := or_null (q_colorId q); q_styleId := or_null (q_styleId q);
     q_fitType := or_null (q_fitType q); q_inStock := q_inStock q;
     q_minPrice := or_null (q_minPrice q); q_maxPrice := or_null (q_maxPrice q);
     q_sortBy := q_sortBy q; q_sortOrder := q_sortOrder q |}.

(** The same query with another fit type. *)
Definition with_fitType (q : Query) (fitType : string) : Query :=
  {| q_page := q_page q; q_limit := q_limit q; q_search := q_search q;
     q_brandId := q_brandId q; q_productTypeId := q_productTypeId q;
     q_productId := q_productId q; q_colorId := q_colorId q;
     q_styleId := q_styleId q; q_fitType := Some fitType;
     q_inStock := q_inStock q;
     q_minPrice := q_minPrice q; q_maxPrice := q_maxPrice q;
     q_sortBy := q_sortBy q; q_sortOrder := q_sortOrder q |}.

(** Bodies that have the required members and no other. *)
Definition required_product (name slug sku : string) (price : Price) : ProductBody :=
  {| pb_name := Some name; pb_slug := Some slug; pb_sku := Some sku;
     pb_description := None; pb_price := Some price; pb_currency := None;
     pb_quantityInStock := None; pb_inStock := None; pb_brandId := None;
     pb_productTypeId := None; pb_collectionIds := None |}.

Definition required_variant (variantId sku fullVariantName variantName
  productId : string) : VariantBody :=
  {| vb_variantId := Some variantId; vb_sku := Some sku;
     vb_fullVariantName := Some fullVariantName;
     vb_variantName := Some variantName; vb_stock := None;
     vb_managedVariant := None; vb_colorId := None; vb_styleId := None;
     vb_productId := Some productId; vb_collectionIds := None |}.

(** A product update that only carries a name. *)
Definition only_name (name : string) : ProductPatch :=
  {| pp_name := Some name; pp_slug := None; pp_sku := None; pp_description := None;
     pp_price := None; pp_currency := None; pp_quantityInStock := None;
     pp_inStock := None; pp_brandId := None; pp_productTypeId := None;
     pp_collectionIds := None |}.

(** * Properties *)

(** ** Strings and numerals *)

Lemma after_prefix_app (p s rest : string) :
  after_prefix p s = Some rest <-> s = (p ++ rest)%string.
Proof.
  revert s. induction p as [|a p IH]; intros s; cbn [after_prefix String.append].
  - split; [now intros [= ->]|now intros ->].
  - destruct s as [|b s]; [split; discriminate|].
    destruct (Ascii.eqb_spec a b) as [->|Hne].
    + rewrite IH. split; [now intros ->|now intros [= ->]].
    + split; [discriminate|]. intros [= Hab _]. now contradiction Hne.
Qed.

Lemma after_any_app (patterns : list string) (s rest : string) :
  after_any patterns s = Some rest ->
  exists p, In p patterns /\ s = (p ++ rest)%string.
Proof.
  induction patterns as [|p others IH]; cbn [after_any]; [discriminate|].
  destruct (after_prefix p s) as [t|] eqn:Hp.
  - intros [= ->]. exists p. split; [now left|now apply after_prefix_app].
  - intros H. destruct (IH H) as [q [Hq Hs]]. exists q. split; [now right|exact Hs].
Qed.

Lemma after_any_some (patterns : list string) (p rest : string) :
  In p patterns -> after_any patterns (p ++ rest) <> None.
Proof.
  induction patterns as [|q others IH]; intros Hin; [contradiction|].
  cbn [after_any]. destruct (after_prefix q (p ++ rest)) eqn:Hq; [discriminate|].
  destruct Hin as [->|Hin]; [|now apply IH].
  pose proof (proj2 (after_prefix_app p (p ++ rest) rest) eq_refl) as H.
  rewrite Hq in H. discriminate H.
Qed.

Lemma length_append (a b : string) :
  String.length (a ++ b) = (String.length a + String.length b)%nat.
Proof. induction a as [|c a IH]; cbn; [reflexivity|now rewrite IH]. Qed.

Lemma after_any_shorter (patterns : list string) (s rest : string) :
  proper patterns -> after_any patterns s = Some rest ->
  (String.length rest < String.length s)%nat.
Proof.
  intros Hproper H. destruct (after_any_app patterns s rest H) as [p [Hin ->]].
  rewrite length_append.
  assert (p <> "") by exact (proj1 (Forall_forall _ _) Hproper p Hin).
  destruct p; [contradiction|cbn; lia].
Qed.

Lemma strip_black (patterns : list string) (fuel : nat) (s : string) :
  proper patterns -> (String.length s <= fuel)%nat ->
  after_any patterns (strip patterns fuel s) = None.
Proof.
  intros Hproper. revert s. induction fuel as [|fuel IH]; intros s Hlen.
  - destruct s; [|cbn in Hlen; lia]. cbn [strip].
    destruct (after_any patterns "") eqn:H; [|reflexivity].
    apply after_any_shorter in H; [cbn in H; lia|exact Hproper].
  - cbn [strip]. destruct (after_any patterns s) as [rest|] eqn:H; [|exact H].
    apply IH. apply after_any_shorter in H; [lia|exact Hproper].
Qed.

Lemma strip_of_black (patterns : list string) (fuel : nat) (s : string) :
  after_any patterns s = None -> strip patterns fuel s = s.
Proof. intros H. destruct fuel; cbn [strip]; [reflexivity|now rewrite H]. Qed.

Lemma strip_suffix (patterns : list string) (fuel : nat) (s : string) :
  exists removed, s = (removed ++ strip patterns fuel s)%string.
Proof.
  revert s. induction fuel as [|fuel IH]; intros s; cbn [strip]; [now exists ""|].
  destruct (after_any patterns s) as [rest|] eqn:H; [|now exists ""].
  destruct (after_any_app patterns s rest H) as [p [_ ->]].
  destruct (IH rest) as [removed Hrest]. exists (p ++ removed)%string.
  rewrite Hrest at 1. clear. induction p as [|c p IHp]; cbn; [reflexivity|now rewrite IHp].
Qed.

Lemma white_proper : proper (map utf8 whiteSpace).
Proof. unfold proper. repeat constructor; discriminate. Qed.

Lemma white_reversed_proper :
  proper (map (fun cp => rev_string (utf8 cp) "") whiteSpace).
Proof. unfold proper. repeat constructor; discriminate. Qed.

Lemma rev_string_app (s t acc : string) :
  rev_string (s ++ t) acc = rev_string t (rev_string s acc).
Proof.
  revert acc. induction s as [|c s IH]; intros acc; cbn [String.append rev_string];
    [reflexivity|apply IH].
Qed.

Lemma append_associative (a b c : string) :
  ((a ++ b) ++ c = a ++ (b ++ c))%string.
Proof.
  induction a as [|x a IH]; cbn [String.append]; [reflexivity|now rewrite IH].
Qed.

Lemma rev_string_acc (s acc : string) :
  rev_string s acc = (rev_string s "" ++ acc)%string.
Proof.
  revert acc. induction s as [|c s IH]; intros acc; cbn [rev_string];
    [reflexivity|].
  rewrite (IH (String c acc)), (IH (String c "")).
  now rewrite append_associative.
Qed.

Lemma rev_string_involutive (s : string) :
  rev_string (rev_string s "") "" = s.
Proof.
  induction s as [|c s IH]; cbn [rev_string]; [reflexivity|].
  rewrite (rev_string_acc s (String c "")), rev_string_app, IH.
  reflexivity.
Qed.

Lemma rev_string_length (s acc : string) :
  String.length (rev_string s acc) = (String.length s + String.length acc)%nat.
Proof.
  revert acc. induction s as [|c s IH]; intros acc; cbn [rev_string String.length];
    [reflexivity|].
  rewrite IH. cbn [String.length]. lia.
Qed.

Lemma trimStart_black (s : string) : starts_black (trimStart s).
Proof. apply strip_black; [exact white_proper|apply le_n]. Qed.

Lemma trimStart_of_black (s : string) : starts_black s -> trimStart s = s.
Proof. apply strip_of_black. Qed.

Lemma trimStart_idempotent (s : string) : trimStart (trimStart s) = trimStart s.
Proof. apply trimStart_of_black, trimStart_black. Qed.

Lemma trimEnd_idempotent (s : string) : trimEnd (trimEnd s) = trimEnd s.
Proof.
  unfold trimEnd. rewrite rev_string_involutive. f_equal.
  apply strip_of_black, strip_black; [exact white_reversed_proper|].
  rewrite rev_string_length. cbn [String.length]. lia.
Qed.

(** [trimEnd] leaves a prefix of the string. *)
Lemma trimEnd_prefix (s : string) :
  exists removed, s = (trimEnd s ++ removed)%string.
Proof.
  unfold trimEnd.
  destruct (strip_suffix (map (fun cp => rev_string (utf8 cp) "") whiteSpace)
              (String.length s) (rev_string s "")) as [removed H].
  exists (rev_string removed "").
  rewrite <- (rev_string_involutive s) at 1. rewrite H at 1.
  rewrite rev_string_app. apply rev_string_acc.
Qed.

Lemma trimEnd_black (s : string) : starts_black s -> starts_black (trimEnd s).
Proof.
  unfold starts_black. intros Hs.
  destruct (after_any (map utf8 whiteSpace) (trimEnd s)) as [rest|] eqn:H;
    [|reflexivity].
  destruct (after_any_app _ _ _ H) as [p [Hin Hp]].
  destruct (trimEnd_prefix s) as [removed Hremoved].
  rewrite Hp, append_associative in Hremoved.
  rewrite Hremoved in Hs. now apply after_any_some in Hs.
Qed.

Lemma trim_idempotent (s : string) : trim (trim s) = trim s.
Proof.
  unfold trim.
  rewrite (trimStart_of_black (trimEnd (trimStart s))).
  - apply trimEnd_idempotent.
  - apply trimEnd_black, trimStart_black.
Qed.

(** The decimal numeral of an integer is read back as the integer. *)

Lemma read_digits_acc (d : Decimal.uint) (p : positive) :
  read_digits 10 (NilEmpty.string_of_uint d) (Some (Z.pos p))
  = Some (Z.pos (Pos.of_uint_acc d p)).
Proof.
  revert p. induction d; intros p; cbn [NilEmpty.string_of_uint Pos.of_uint_acc];
    [reflexivity|..];
    cbn [read_digits]; rewrite <- IHd;
    change (digit_value _) with (Some 0) || change (digit_value _) with (Some 1)
    || change (digit_value _) with (Some 2) || change (digit_value _) with (Some 3)
    || change (digit_value _) with (Some 4) || change (digit_value _) with (Some 5)
    || change (digit_value _) with (Some 6) || change (digit_value _) with (Some 7)
    || change (digit_value _) with (Some 8) || change (digit_value _) with (Some 9);
    cbv beta iota; match goal with |- context [?k <? 10] => change (k <? 10) with true end;
    cbv beta iota; do 2 f_equal; lia.
Qed.

Lemma read_digits_zero (d : Decimal.uint) :
  read_digits 10 (NilEmpty.string_of_uint d) (Some 0)
  = Some (Z.of_N (Pos.of_uint d)).
Proof.
  induction d; cbn [NilEmpty.string_of_uint Pos.of_uint]; [reflexivity|..];
    cbn [read_digits];
    [ exact IHd | .. ]; apply read_digits_acc.
Qed.

Lemma read_digits_uint (d : Decimal.uint) :
  d <> Decimal.Nil ->
  read_digits 10 (NilEmpty.string_of_uint d) None = Some (Z.of_N (Pos.of_uint d)).
Proof.
  destruct d; intros Hd; [now contradiction Hd|..];
    cbn [NilEmpty.string_of_uint Pos.of_uint read_digits];
    [ apply read_digits_zero | .. ]; apply read_digits_acc.
Qed.

(** A string that starts with a digit or a sign does not start with white
    space. *)
Lemma digit_black (c : ascii) (rest : string) :
  (45 <=? nat_of_ascii c)%nat && (nat_of_ascii c <=? 57)%nat = true ->
  trimStart (String c rest) = String c rest.
Proof.
  intros Hc. apply trimStart_of_black. unfold starts_black.
  destruct c as [[] [] [] [] [] [] [] []]; try discriminate Hc; reflexivity.
Qed.

Lemma parseInt_uint (d : Decimal.uint) :
  d <> Decimal.Nil ->
  parseInt_string (NilEmpty.string_of_uint d) = Int (Z.of_N (Pos.of_uint d))
  /\ parseInt_string (String "-" (NilEmpty.string_of_uint d))
     = Int (- Z.of_N (Pos.of_uint d)).
Proof.
  intros Hd. pose proof (read_digits_uint d Hd) as Hread.
  assert (Hdone : forall digits n,
            read_digits 10 digits None = Some n ->
            match read_digits 10 digits None with
            | Some m => Int m
            | None => NaN
            end = Int n
            /\ match read_digits 10 digits None with
               | Some m => Int (- m)
               | None => NaN
               end = Int (- n)).
  { intros digits n H. now rewrite H. }
  unfold parseInt_string.
  destruct d as [|d|d|d|d|d|d|d|d|d|d]; [now contradiction Hd|..];
    cbn [NilEmpty.string_of_uint] in *;
    rewrite !digit_black by reflexivity;
    try exact (Hdone _ _ Hread).
  destruct d as [|d|d|d|d|d|d|d|d|d|d]; exact (Hdone _ _ Hread).
Qed.

Lemma parseInt_decimal (z : Z) : parseInt (Str (string_of_Z z)) = Int z.
Proof.
  unfold string_of_Z, parseInt. destruct z as [|p|p]; [reflexivity|..];
    cbn [Z.to_int NilZero.string_of_int NilZero.string_of_uint];
    assert (Hp : Pos.to_uint p <> Decimal.Nil)
      by (intros H; pose proof (DecimalPos.Unsigned.of_to p) as Hof;
          rewrite H in Hof; discriminate Hof);
    destruct (parseInt_uint (Pos.to_uint p) Hp) as [Hpos Hneg];
    destruct (Pos.to_uint p) eqn:Hd; try (now contradiction Hp);
    unfold NilZero.string_of_uint;
    rewrite ?Hpos, ?Hneg, <- Hd, DecimalPos.Unsigned.of_to;
    reflexivity.
Qed.

(** A safe integer is printed as its numeral and read back as itself. *)

Lemma to_double_safe (z : Z) : safe z -> to_double z = Int z.
Proof.
  intros [Hlo Hhi]. unfold to_double.
  assert (He : Z.log2 (Z.abs z) - 52 <= 0).
  { destruct (Z.eq_dec z 0) as [->|Hz]; [cbn; lia|].
    assert (Z.log2 (Z.abs z) < 53); [|lia].
    apply Z.log2_lt_pow2; lia. }
  apply Z.leb_le in He. now rewrite He.
Qed.

Lemma shortest_rounds (fuel : nat) (unit a : Z) :
  rounds_to a a = true -> rounds_to a (shortest fuel unit a) = true.
Proof.
  intros Ha. revert unit. induction fuel as [|fuel IH]; intros unit;
    cbn [shortest]; [exact Ha|].
  destruct (rounds_to a (a / unit * unit)) eqn:Hbelow;
    destruct (rounds_to a (a / unit * unit + unit)) eqn:Habove; cbn [andb];
    try assumption; [|apply IH].
  destruct (a - a / unit * unit <? a / unit * unit + unit - a); [assumption|].
  destruct (a / unit * unit + unit - a <? a - a / unit * unit); [assumption|].
  destruct (Z.even (a / unit)); assumption.
Qed.

(** A double below 2^53 in magnitude is the nearest double of itself
    only. *)
Lemma to_double_onto_safe (c a : Z) : safe a -> to_double c = Int a -> c = a.
Proof.
  intros [Hlo Hhi] Hc. unfold to_double in Hc.
  destruct (Z.log2 (Z.abs c) - 52 <=? 0) eqn:He; [now inversion Hc|].
  exfalso. apply Z.leb_gt in He.
  set (e := Z.log2 (Z.abs c) - 52) in *.
  assert (Hc0 : 0 < Z.abs c).
  { destruct (Z.eq_dec (Z.abs c) 0) as [H0|]; [|lia].
    unfold e in He. rewrite H0 in He. cbn in He. lia. }
  assert (Hlog : 2 ^ Z.log2 (Z.abs c) <= Z.abs c) by (apply Z.log2_spec; lia).
  assert (Hq : 2 ^ 52 <= Z.abs c / 2 ^ e).
  { apply Z.div_le_lower_bound; [apply Z.pow_pos_nonneg; lia|].
    rewrite Z.mul_comm, <- Z.pow_add_r by lia.
    replace (52 + e) with (Z.log2 (Z.abs c)) by (unfold e; lia). exact Hlog. }
  assert (Hpow : 2 <= 2 ^ e).
  { change 2 with (2 ^ 1) at 1. apply Z.pow_le_mono_r; lia. }
  remember (if (Z.abs c mod 2 ^ e <? 2 ^ (e - 1))
               || (Z.abs c mod 2 ^ e =? 2 ^ (e - 1)) && Z.even (Z.abs c / 2 ^ e)
            then Z.abs c / 2 ^ e else Z.abs c / 2 ^ e + 1) as q' eqn:Hq'.
  assert (Hbig : 2 ^ 52 <= q').
  { rewrite Hq'. destruct ((_ <? _) || _); lia. }
  destruct ((971 <? e) || (e =? 971) && (q' =? 2 ^ 53));
    [destruct (0 <? c); discriminate Hc|].
  inversion Hc as [Heq]. clear Hc.
  change (2 ^ 53) with (2 ^ 52 * 2) in Hlo, Hhi.
  destruct c as [|p|p]; cbn [Z.sgn] in Heq; [cbn in Hc0; lia|nia|nia].
Qed.

Lemma shortest_safe (fuel : nat) (unit a : Z) :
  safe a -> shortest fuel unit a = a.
Proof.
  intros Ha.
  assert (Hself : rounds_to a a = true).
  { unfold rounds_to. rewrite (to_double_safe a Ha). apply Z.eqb_refl. }
  pose proof (shortest_rounds fuel unit a Hself) as H.
  unfold rounds_to in H.
  destruct (to_double (shortest fuel unit a)) as [| | |d] eqn:Hd; try discriminate H.
  apply Z.eqb_eq in H. subst d. exact (to_double_onto_safe _ _ Ha Hd).
Qed.

Lemma parseInt_safe (z : Z) : safe z -> parseInt (Num z) = Int z.
Proof.
  intros Hz. unfold parseInt. rewrite (to_double_safe z Hz).
  assert (Habs : safe (Z.abs z)) by (unfold safe in *; lia).
  assert (Hsmall : (Z.abs z <? 10 ^ 21) = true).
  { apply Z.ltb_lt. unfold safe in Habs.
    assert (2 ^ 53 < 10 ^ 21) by reflexivity. lia. }
  assert (Hprint : number_string (Int z) = string_of_Z z).
  { unfold number_string, shortest_numeral. rewrite Hsmall.
    rewrite shortest_safe by exact Habs.
    unfold string_of_Z. destruct z as [|p|p]; reflexivity. }
  rewrite Hprint.
  pose proof (parseInt_decimal z) as H. cbn [parseInt] in H. rewrite H.
  apply to_double_safe, Hz.
Qed.

(** ** Rows of a table *)

Lemma find_replace_row {A : Type} (T : Model A) (id : string) (a a' : A) (l : list A) :
  find (has_id T id) l = Some a ->
  has_id T id a' = true ->
  find (has_id T id) (replace_row T id a' l) = Some a'.
Proof.
  intros Hfind Hid. induction l as [|x l IH]; simpl in *.
  - discriminate.
  - destruct (has_id T id x) eqn:Hx; simpl.
    + now rewrite Hid.
    + rewrite Hx. now apply IH.
Qed.

Lemma find_without_id {A : Type} (T : Model A) (id : string) (l : list A) :
  find (has_id T id) (without_id T id l) = None.
Proof.
  induction l as [|x l IH]; simpl; [reflexivity|].
  destruct (has_id T id x) eqn:Hx; simpl; [exact IH|].
  now rewrite Hx.
Qed.

Lemma find_has_id {A : Type} (T : Model A) (id : string) (a : A) (l : list A) :
  find (has_id T id) l = Some a -> has_id T id a = true /\ In a l.
Proof.
  intros H. apply find_some in H. destruct H as [Hin Hid]. split; assumption.
Qed.

Lemma existsb_false {A : Type} (f : A -> bool) (l : list A) :
  (forall x, f x = false) -> existsb f l = false.
Proof.
  intros H. induction l as [|x l IH]; simpl; [reflexivity|].
  now rewrite H, IH.
Qed.

(** An update that touches neither a unique column nor a reference goes
    through. *)
Lemma update_plain {A : Type} (T : Model A) (id : string) (f : A -> A)
  (s : Store) (a : A) :
  outage s = None ->
  find (has_id T id) (rows T s) = Some a ->
  (forall other, same_unique T (f a) other = same_unique T a other) ->
  references_ok T s (f a) = references_ok T s a ->
  update T id f s
  = (inr (f a), with_rows T (replace_row T id (f a) (rows T s)) s).
Proof.
  intros Hup Hfind Huniq Href. unfold update, query. rewrite Hup, Hfind.
  rewrite existsb_false.
  - rewrite Href. destruct (references_ok T s a); reflexivity.
  - intros other. rewrite Huniq. apply andb_negb_r.
Qed.

(** ** Stock mutation *)

Lemma newStock_add (existing n : Z) (stock : Scalar) :
  parseInt stock = Int n ->
  newStock "add" existing stock = Int (existing + n).
Proof. intros H. unfold newStock. cbn [String.eqb Ascii.eqb Bool.eqb]. now rewrite H. Qed.

Lemma newStock_subtract (existing n : Z) (stock : Scalar) :
  parseInt stock = Int n ->
  newStock "subtract" existing stock = Int (Z.max 0 (existing - n)).
Proof. intros H. unfold newStock. cbn [String.eqb Ascii.eqb Bool.eqb]. now rewrite H. Qed.

Lemma newStock_other (operation : string) (existing : Z) (stock : Scalar) :
  operation <> "add" -> operation <> "subtract" ->
  newStock operation existing stock = parseInt stock.
Proof.
  intros Hadd Hsub. unfold newStock.
  destruct (String.eqb_spec operation "add"); [contradiction|].
  destruct (String.eqb_spec operation "subtract"); [contradiction|].
  reflexivity.
Qed.

(** The handler on a stored variant, once the new stock is an integer. *)
Lemma updateStock_stored (id : string) (b : StockBody) (s : Store)
  (stock : Scalar) (v : ProductVariant) (n : Z) :
  outage s = None ->
  kb_stock b = Some stock ->
  find (has_id variant_model id) (variants s) = Some v ->
  newStock (or_string (kb_operation b) "set") (variant_stock v) stock = Int n ->
  variants_updateStock id b s
  = (json_done 200 (Some (OneVariant (set_stock n v)))
       "Variant stock updated successfully",
     with_variants (replace_row variant_model id (set_stock n v) (variants s)) s).
Proof.
  intros Hup Hstock Hfind Hnew.
  unfold variants_updateStock, try_catch, bind, findUnique, query.
  rewrite Hstock, Hup. cbn [rows variant_model]. rewrite Hfind, Hnew.
  unfold update_stock.
  rewrite (update_plain variant_model id (set_stock n) s v Hup Hfind);
    reflexivity.
Qed.

Lemma updateStock_sets (id : string) (b : StockBody) (s : Store)
  (stock : Scalar) (v : ProductVariant) (n : Z) :
  outage s = None ->
  kb_stock b = Some stock ->
  find (has_id variant_model id) (variants s) = Some v ->
  newStock (or_string (kb_operation b) "set") (variant_stock v) stock = Int n ->
  stock_set id n v s (variants_updateStock id b s).
Proof.
  intros Hup Hstock Hfind Hnew.
  rewrite (updateStock_stored id b s stock v n Hup Hstock Hfind Hnew).
  exists (set_stock n v). cbn [fst snd variants with_variants].
  split; [|split; [reflexivity|split; [|reflexivity]]].
  - unfold restocked. cbn. repeat split.
  - apply find_replace_row with (a := v); [exact Hfind|].
    apply find_has_id in Hfind. exact (proj1 Hfind).
Qed.

(** The handler on a stored variant, when the new stock is no integer. *)
Lemma updateStock_rejected (id : string) (b : StockBody) (s : Store)
  (stock : Scalar) (v : ProductVariant) :
  outage s = None ->
  kb_stock b = Some stock ->
  find (has_id variant_model id) (variants s) = Some v ->
  (forall n, newStock (or_string (kb_operation b) "set") (variant_stock v) stock
             <> Int n) ->
  variants_updateStock id b s
  = (json_unexpected "Failed to update variant stock" validation_error, s).
Proof.
  intros Hup Hstock Hfind Hnew.
  unfold variants_updateStock, try_catch, bind, findUnique, query.
  rewrite Hstock, Hup. cbn [rows variant_model]. rewrite Hfind.
  destruct (newStock _ _ _) as [| | |n]; try reflexivity.
  now contradiction (Hnew n).
Qed.

(** C1, as amended.  [PATCH /variants/:id/stock] on a reachable store.
    Without a [stock] member the answer is 400 and nothing changes.  With
    one, and no variant of that id, the answer is 404 and nothing changes.
    With a [stock] that is a safe integer and a stored variant whose stock is
    one, the answer is 200 and the variant is stored with the old stock plus
    the input for ['add'] (when the sum is safe), with the larger of zero
    and the old stock minus the input for ['subtract'] (when the difference
    is safe), and with the input itself for ['set'] or no operation.
    Whatever the [stock] of a ['subtract'] request is, the stock it leaves
    is not negative: the variant is stored with a stock of zero or more, or
    the answer is 500 and nothing changes. *)
Theorem variant_stock_mutation (id : string) (b : StockBody) (s : Store) :
  outage s = None ->
  (kb_stock b = None ->
   variants_updateStock id b s = (json_fail 400 "Stock value is required", s))
  /\ (forall stock,
        kb_stock b = Some stock ->
        find (has_id variant_model id) (variants s) = None ->
        variants_updateStock id b s = (json_fail 404 "Variant not found", s))
  /\ (forall v n target,
        kb_stock b = Some (Num n) ->
        find (has_id variant_model id) (variants s) = Some v ->
        safe n ->
        safe (variant_stock v) ->
        (kb_operation b = Some "add"
         /\ target = variant_stock v + n /\ safe (variant_stock v + n))
        \/ (kb_operation b = Some "subtract"
            /\ target = Z.max 0 (variant_stock v - n)
            /\ safe (variant_stock v - n))
        \/ ((kb_operation b = Some "set" \/ kb_operation b = None)
            /\ target = n) ->
        stock_set id target v s (variants_updateStock id b s))
  /\ (forall v stock,
        kb_stock b = Some stock ->
        find (has_id variant_model id) (variants s) = Some v ->
        kb_operation b = Some "subtract" ->
        (exists target,
           0 <= target /\ stock_set id target v s (variants_updateStock id b s))
        \/ (status (fst (variants_updateStock id b s)) = 500
            /\ snd (variants_updateStock id b s) = s)).
Proof.
  intros Hup. split; [|split; [|split]].
  - intros Hstock. unfold variants_updateStock, try_catch, ret.
    now rewrite Hstock.
  - intros stock Hstock Hfind.
    unfold variants_updateStock, try_catch, bind, findUnique, query, ret.
    rewrite Hstock, Hup. cbn [rows variant_model]. now rewrite Hfind.
  - intros v n target Hstock Hfind Hn Hold Hop.
    apply (updateStock_sets id b s (Num n) v target Hup Hstock Hfind).
    pose proof (parseInt_safe n Hn) as Hparse.
    destruct Hop as [[Ho [Ht _]]|[[Ho [Ht _]]|[[Ho|Ho] Ht]]]; rewrite Ho, Ht;
      cbn [or_string].
    + now apply newStock_add.
    + now apply newStock_subtract.
    + rewrite newStock_other by discriminate. exact Hparse.
    + rewrite newStock_other by discriminate. exact Hparse.
  - intros v stock Hstock Hfind Ho.
    assert (Hnew : newStock (or_string (kb_operation b) "set") (variant_stock v) stock
                   = max (Int 0) (sub (Int (variant_stock v)) (parseInt stock))).
    { rewrite Ho. reflexivity. }
    destruct (parseInt stock) as [| | |m] eqn:Hparse; cbn [sub max] in Hnew.
    + right. rewrite (updateStock_rejected id b s stock v Hup Hstock Hfind).
      * split; reflexivity.
      * intros n. rewrite Hnew. discriminate.
    + left. exists 0. split; [lia|].
      exact (updateStock_sets id b s stock v 0 Hup Hstock Hfind Hnew).
    + right. rewrite (updateStock_rejected id b s stock v Hup Hstock Hfind).
      * split; reflexivity.
      * intros n. rewrite Hnew. discriminate.
    + left. exists (Z.max 0 (variant_stock v - m)). split; [apply Z.le_max_l|].
      exact (updateStock_sets id b s stock v _ Hup Hstock Hfind Hnew).
Qed.


(** ** Delete guards *)

Lemma count_positive {A : Type} (f : A -> bool) (l : list A) :
  (0 <? Z.of_nat (List.length (filter f l))) = existsb f l.
Proof.
  induction l as [|x l IH]; simpl; [reflexivity|].
  destruct (f x); simpl; [|exact IH].
  apply Z.ltb_lt. lia.
Qed.

(** The shape shared by the four guarded handlers, read off one of them:
    look the row up with its count, refuse when the count is positive,
    delete otherwise. *)
Lemma guarded_delete_run {A : Type} (T : Model A) (uses : Store -> Z)
  (missing used failed done : string) (referenced : bool) (id : string) (s : Store) :
  outage s = None ->
  (forall l, rows T (with_rows T l s) = l) ->
  (0 <? uses s) = referenced ->
  guarded_delete T referenced id s
    (try_catch
       (existing <- findUniqueCounting T id uses ;;
        match existing with
        | None => ret (json_fail 404 missing)
        | Some (_, n) =>
            if 0 <? n then ret (json_fail 400 used)
            else _ <- delete T id ;; ret (json_done 200 None done)
        end)
       (json_unexpected failed) s).
Proof.
  intros Hup Hrows Href.
  unfold guarded_delete, try_catch, bind, findUniqueCounting, delete, query, ret.
  rewrite Hup.
  destruct (find (has_id T id) (rows T s)) as [a|] eqn:Hfind; cbn.
  - rewrite Href. destruct referenced; cbn.
    + auto.
    + rewrite Hup, Hfind. cbn. rewrite Hrows.
      repeat split. apply find_without_id.
  - auto.
Qed.

(** C2.  Deleting a colour or a style that a variant refers to, a brand
    that a product refers to, or a collection that a join row refers to, is
    answered 400 and leaves the store as it was; once nothing refers to the
    row the delete is answered 200 and the row is gone; an id that is not
    stored is answered 404.  The store is reachable. *)
Theorem referenced_rows_are_not_deleted (id : string) (s : Store) :
  outage s = None ->
  guarded_delete color_model (color_referenced id s) id s (colors_delete id s)
  /\ guarded_delete style_model (style_referenced id s) id s (styles_delete id s)
  /\ guarded_delete brand_model (brand_referenced id s) id s (brands_delete id s)
  /\ guarded_delete collection_model (collection_referenced id s) id s
       (collections_delete id s).
Proof.
  intros Hup. repeat split.
  - apply guarded_delete_run; [exact Hup|reflexivity|apply count_positive].
  - apply guarded_delete_run; [exact Hup|reflexivity|apply count_positive].
  - apply guarded_delete_run; [exact Hup|reflexivity|apply count_positive].
  - unfold guarded_delete, collections_delete, try_catch, bind,
      findUniqueCounting, delete, query, ret, collection_referenced,
      collection_uses.
    rewrite Hup. cbn [rows collection_model].
    destruct (find (has_id collection_model id) (collections s)) as [a|] eqn:Hfind;
      cbn [option_map fst snd]; [|cbn; auto].
    rewrite !count_positive.
    destruct (existsb _ (productCollections s) || existsb _ (variantCollections s));
      cbn; [auto|].
    rewrite Hup, Hfind. cbn. repeat split. apply find_without_id.
Qed.

(** ** Pagination *)

Lemma ceil_div_is_ceiling (total limit : Z) :
  1 <= limit ->
  exists pages, ceil_div total (Int limit) = Int pages /\ is_ceiling pages total limit.
Proof.
  intros Hl. exists (- ((- total) / limit)). split.
  - unfold ceil_div. destruct (Z.eqb_spec limit 0); [lia|reflexivity].
  - unfold is_ceiling.
    pose proof (Z.div_mod (- total) limit ltac:(lia)) as Hdiv.
    pose proof (Z.mod_pos_bound (- total) limit ltac:(lia)) as Hmod.
    nia.
Qed.

Lemma window_valid {A : Type} (page limit : Z) (l : list A) :
  1 <= page -> 1 <= limit ->
  window (mul (sub (Int page) (Int 1)) (Int limit)) (Int limit) l
  = Some (page_rows page limit l).
Proof.
  intros Hp Hl. unfold window, page_rows. cbn [mul sub].
  destruct (Z.ltb_spec ((page - 1) * limit) 0); [nia|].
  destruct (Z.leb_spec 0 limit); [reflexivity|lia].
Qed.

Lemma page_rows_length {A : Type} (page limit : Z) (l : list A) :
  0 <= limit -> Z.of_nat (List.length (page_rows page limit l)) <= limit.
Proof.
  intros Hl. unfold page_rows.
  pose proof (firstn_le_length (Z.to_nat limit)
                (skipn (Z.to_nat ((page - 1) * limit)) l)) as H.
  lia.
Qed.

(** The repeated block, on a valid request. *)
Lemma list_page_run {A : Type} (T : Model A) (where_ : A -> bool)
  (orderBy : string * string) (wrap : list A -> Payload) (pageS limitS : Scalar)
  (failed : string) (s : Store) (page limit : Z) (matching : list A) :
  outage s = None ->
  parseInt pageS = Int page -> 1 <= page ->
  parseInt limitS = Int limit -> 1 <= limit ->
  ordered (Some orderBy) (filter where_ (rows T s)) = Some matching ->
  let out := try_catch (list_page T where_ orderBy wrap pageS limitS)
               (json_unexpected failed) s in
  paginated wrap matching (Z.of_nat (List.length (filter where_ (rows T s))))
    page limit (fst out)
  /\ snd out = s.
Proof.
  intros Hup Hpage Hp Hlimit Hl Hord.
  unfold try_catch, list_page, bind, findManyPaged, count, query, ret.
  rewrite Hup, Hord, Hpage, Hlimit, (window_valid page limit matching Hp Hl), Hup.
  cbn [fst snd]. split; [|reflexivity].
  unfold paginated. cbn [status pagination data json_page].
  split; [reflexivity|].
  destruct (ceil_div_is_ceiling
              (Z.of_nat (List.length (filter where_ (rows T s)))) limit Hl)
    as [pages [Hpages Hceil]].
  exists pages, (page_rows page limit matching).
  rewrite Hpages. repeat split; try apply Hceil.
  apply page_rows_length. lia.
Qed.


(** ** Replacing the collections of a product or variant *)

Lemma update_outcome {A : Type} (T : Model A) (id : string) (f : A -> A) (s : Store) :
  (exists e, update T id f s = (inl e, s))
  \/ (exists a,
        find (has_id T id) (rows T s) = Some a
        /\ update T id f s
           = (inr (f a), with_rows T (replace_row T id (f a) (rows T s)) s)).
Proof.
  unfold update, query.
  destruct (outage s); [left; eauto|].
  destruct (find (has_id T id) (rows T s)); [|left; eauto].
  destruct (existsb _ _); [left; eauto|].
  destruct (negb _ && _); [left; eauto|right; eauto].
Qed.

Lemma createMany_outcome {J : Type} (Jn : Join J) (data : list J) (s : Store) :
  (exists e, createMany Jn data s = (inl e, s))
  \/ (exists n, createMany Jn data s = (inr n, with_links Jn (links Jn s ++ data) s)).
Proof.
  unfold createMany, query.
  destruct (outage s); [left; eauto|].
  destruct (clashes _ _ _); [left; eauto|].
  destruct (negb _); [left; eauto|right; eauto].
Qed.

Lemma filter_filter_negb {A : Type} (f : A -> bool) (l : list A) :
  filter f (filter (fun x => negb (f x)) l) = [].
Proof.
  induction l as [|x l IH]; simpl; [reflexivity|].
  destruct (f x) eqn:Hx; simpl; [exact IH|]. now rewrite Hx.
Qed.

Lemma filter_all {A : Type} (f : A -> bool) (l : list A) :
  (forall x, In x l -> f x = true) -> filter f l = l.
Proof.
  intros H. induction l as [|x l IH]; simpl; [reflexivity|].
  rewrite (H x (or_introl eq_refl)). f_equal. apply IH.
  intros y Hy. apply H. now right.
Qed.

Lemma filter_none {A : Type} (f : A -> bool) (l : list A) :
  (forall x, In x l -> f x = false) -> filter f l = [].
Proof.
  intros H. induction l as [|x l IH]; simpl; [reflexivity|].
  rewrite (H x (or_introl eq_refl)). apply IH.
  intros y Hy. apply H. now right.
Qed.

Lemma filter_other_owner {J : Type} (Jn : Join J) (id other : string) (l : list J) :
  other <> id ->
  filter (owned_by Jn other) (filter (fun r => negb (owned_by Jn id r)) l)
  = filter (owned_by Jn other) l.
Proof.
  intros Hne. induction l as [|x l IH]; simpl; [reflexivity|].
  destruct (owned_by Jn id x) eqn:Hid; simpl.
  - destruct (owned_by Jn other x) eqn:Ho; [|exact IH].
    unfold owned_by in Hid, Ho.
    apply String.eqb_eq in Hid. apply String.eqb_eq in Ho. congruence.
  - now rewrite IH.
Qed.

(** The join rows after the replace sequence. *)
Lemma associations_replaced {J : Type} (Jn : Join J) (join : string -> J)
  (id : string) (supplied : list string) (old : list J) :
  (forall c, owner Jn (join c) = id) ->
  (forall c, member Jn (join c) = c) ->
  map (member Jn)
    (filter (owned_by Jn id)
       (filter (fun r => negb (owned_by Jn id r)) old ++ map join supplied))
  = supplied
  /\ forall other, other <> id ->
       filter (owned_by Jn other)
         (filter (fun r => negb (owned_by Jn id r)) old ++ map join supplied)
       = filter (owned_by Jn other) old.
Proof.
  intros Howner Hmember. split.
  - rewrite filter_app, filter_filter_negb, app_nil_l.
    rewrite filter_all.
    + rewrite map_map. rewrite <- (map_id supplied) at 2.
      apply map_ext. exact Hmember.
    + intros x Hx. apply in_map_iff in Hx. destruct Hx as [c [<- _]].
      unfold owned_by. rewrite Howner. apply String.eqb_refl.
  - intros other Hne. rewrite filter_app, (filter_other_owner Jn id other old Hne).
    rewrite (filter_none (owned_by Jn other) (map join supplied)).
    + apply app_nil_r.
    + intros x Hx. apply in_map_iff in Hx. destruct Hx as [c [<- _]].
      unfold owned_by. rewrite Howner.
      destruct (String.eqb_spec id other); congruence.
Qed.

Lemma findUnique_run {A : Type} (T : Model A) (id : string) (s : Store) :
  outage s = None ->
  findUnique T id s = (inr (find (has_id T id) (rows T s)), s).
Proof. intros Hup. unfold findUnique, query. now rewrite Hup. Qed.

Lemma deleteMany_run {J : Type} (Jn : Join J) (id : string) (s : Store) :
  outage s = None ->
  deleteMany Jn id s
  = (inr (Z.of_nat (List.length (filter (owned_by Jn id) (links Jn s)))),
     with_links Jn (filter (fun r => negb (owned_by Jn id r)) (links Jn s)) s).
Proof. intros Hup. unfold deleteMany, query. now rewrite Hup. Qed.

Lemma catch_unique_status (taken failed : string) (e : Error) :
  status (catch_unique taken failed e) = 400
  \/ status (catch_unique taken failed e) = 500.
Proof. unfold catch_unique. destruct (has_code e "P2002"); auto. Qed.

Lemma catch_unique_not_ok (taken failed : string) (e : Error) :
  status (catch_unique taken failed e) <> 200.
Proof. destruct (catch_unique_status taken failed e) as [H|H]; rewrite H; lia. Qed.

Lemma has_duplicate_map {J : Type} (Jn : Join J) (join : string -> J)
  (id : string) (supplied : list string) :
  (forall c, member Jn (join c) = c) ->
  NoDup supplied ->
  has_duplicate (same_pair Jn) (map join supplied) = false.
Proof.
  intros Hmember Hnd. induction Hnd as [|c l Hin Hnd IH]; simpl; [reflexivity|].
  rewrite IH, orb_false_r.
  apply not_true_is_false. intros Hex.
  apply existsb_exists in Hex. destruct Hex as [x [Hx Hsame]].
  apply in_map_iff in Hx. destruct Hx as [c' [<- Hc']].
  unfold same_pair in Hsame. apply andb_prop in Hsame. destruct Hsame as [_ Hm].
  apply String.eqb_eq in Hm. rewrite !Hmember in Hm. congruence.
Qed.

(** Inserting the join rows of one owner, none of which is stored yet. *)
Lemma createMany_fresh {J : Type} (Jn : Join J) (join : string -> J)
  (id : string) (supplied : list string) (s : Store) :
  outage s = None ->
  (forall c, owner Jn (join c) = id) ->
  (forall c, member Jn (join c) = c) ->
  (forall r, In r (links Jn s) -> owned_by Jn id r = false) ->
  owner_stored Jn s id = true ->
  insertable supplied s ->
  createMany Jn (map join supplied) s
  = (inr (Z.of_nat (List.length (map join supplied))),
     with_links Jn (links Jn s ++ map join supplied) s).
Proof.
  intros Hup Howner Hmember Hnone Hstored [Hnd Hcoll].
  unfold createMany, query. rewrite Hup.
  assert (Hclash : clashes (same_pair Jn) (map join supplied) (links Jn s) = false).
  { unfold clashes. rewrite (has_duplicate_map Jn join id supplied Hmember Hnd).
    rewrite orb_false_r. apply not_true_is_false. intros Hex.
    apply existsb_exists in Hex. destruct Hex as [x [Hx Hex]].
    apply existsb_exists in Hex. destruct Hex as [r [Hr Hsame]].
    apply in_map_iff in Hx. destruct Hx as [c [<- _]].
    unfold same_pair in Hsame. apply andb_prop in Hsame. destruct Hsame as [Ho _].
    apply String.eqb_eq in Ho. rewrite Howner in Ho.
    specialize (Hnone r Hr). unfold owned_by in Hnone.
    rewrite <- Ho, String.eqb_refl in Hnone. discriminate. }
  rewrite Hclash.
  assert (Hfk : forallb (fun r => owner_stored Jn s (owner Jn r)
                                  && stored collection_id (collections s) (member Jn r))
                  (map join supplied) = true).
  { apply forallb_forall. intros x Hx.
    apply in_map_iff in Hx. destruct Hx as [c [<- Hc]].
    rewrite Howner, Hmember, Hstored. now apply Hcoll. }
  now rewrite Hfk.
Qed.

Lemma stored_after_replace {A : Type} (T : Model A) (id : string) (a a' : A)
  (l : list A) :
  find (has_id T id) l = Some a ->
  has_id T id a' = true ->
  existsb (has_id T id) (replace_row T id a' l) = true.
Proof.
  intros Hfind Hid.
  pose proof (find_replace_row T id a a' l Hfind Hid) as H.
  apply find_some in H. apply existsb_exists. exists a'. exact H.
Qed.

Lemma not_owned_after_delete {J : Type} (Jn : Join J) (id : string) (l : list J) :
  forall r, In r (filter (fun r => negb (owned_by Jn id r)) l) ->
            owned_by Jn id r = false.
Proof.
  intros r Hr. apply filter_In in Hr. destruct Hr as [_ Hr].
  now apply negb_true_iff in Hr.
Qed.

(** The replace sequence and the second lookup of the two update handlers,
    from any store: when they resolve, the row has the supplied associations
    and the other rows have theirs. *)
Lemma replace_sequence {A J : Type} (T : Model A) (Jn : Join J)
  (join : string -> J) (wrap : A -> Payload) (done : string) (id : string)
  (supplied : list string) (s1 : Store) :
  (forall c, owner Jn (join c) = id) ->
  (forall c, member Jn (join c) = c) ->
  (forall l s, links Jn (with_links Jn l s) = l) ->
  match
    (_ <- (_ <- deleteMany Jn id ;;
           if (0 <? Z.of_nat (List.length supplied))
           then createMany Jn (map join supplied)
           else ret 0) ;;
     updated <- findUnique T id ;;
     ret (json_done 200 (option_map wrap updated) done)) s1
  with
  | (inr _, s3) =>
      associations Jn id s3 = supplied
      /\ forall other, other <> id ->
           associations Jn other s3 = associations Jn other s1
  | (inl _, _) => True
  end.
Proof.
  intros Howner Hmember Hlinks.
  assert (Hread : forall s, match findUnique T id s with
                            | (inr _, s') => s' = s
                            | (inl _, _) => True
                            end).
  { intros s. unfold findUnique, query. now destruct (outage s). }
  unfold bind at 1 2. unfold deleteMany at 1, query at 1.
  destruct (outage s1); [exact I|].
  set (s2 := with_links Jn (filter (fun r => negb (owned_by Jn id r)) (links Jn s1)) s1).
  assert (Hs2 : links Jn s2 = filter (fun r => negb (owned_by Jn id r)) (links Jn s1))
    by apply Hlinks.
  destruct supplied as [|c supplied].
  - cbn [List.length Z.of_nat Z.ltb Z.compare ret]. unfold bind.
    specialize (Hread s2). destruct (findUnique T id s2) as [[e|a] s3]; [exact I|].
    subst s3. cbn [ret]. unfold associations. rewrite Hs2. split.
    + now rewrite filter_filter_negb.
    + intros other Hne. now rewrite filter_other_owner.
  - replace (0 <? Z.of_nat (List.length (c :: supplied))) with true
      by (symmetry; apply Z.ltb_lt; cbn [List.length]; lia).
    destruct (createMany_outcome Jn (map join (c :: supplied)) s2)
      as [[e He]|[n Hn]]; [rewrite He; exact I|rewrite Hn].
    unfold bind.
    match goal with
    | |- context [findUnique T id ?s] =>
        specialize (Hread s); destruct (findUnique T id s) as [[e|a] s3];
        [exact I|subst s3]
    end.
    cbn [ret]. unfold associations. rewrite Hlinks, Hs2.
    destruct (associations_replaced Jn join id (c :: supplied) (links Jn s1)
                Howner Hmember) as [Hmine Hothers].
    split; [exact Hmine|]. intros other Hne. now rewrite (Hothers other Hne).
Qed.

(** The update of the row is a store call like the others: it resolves or
    rejects, and while it hands on no member beyond the columns a rejection
    leaves the store as it was. *)
Lemma update_data_plain {A J : Type} (T : Model A) (Jn : Join J) (id : string)
  (f : A -> A) : update_data T Jn id f [] = update T id f.
Proof. reflexivity. Qed.

Lemma products_update_replaces (id : string) (b : ProductPatch)
  (others : list (string * Json)) (s : Store) (p : Product) :
  outage s = None ->
  find (has_id product_model id) (products s) = Some p ->
  replaces_associations productCollection (pp_collectionIds b) others id s
    (products_update id b others s).
Proof.
  intros Hup Hfind. unfold replaces_associations.
  remember (products_update id b others s) as out eqn:Hout.
  unfold products_update, try_catch in Hout. unfold bind at 1 in Hout.
  rewrite (findUnique_run product_model id s Hup) in Hout.
  cbn [rows product_model] in Hout. rewrite Hfind in Hout. unfold bind at 1 in Hout.
  destruct (pp_collectionIds b) as [supplied|].
  - destruct (update_data product_model productCollection id
                (apply_product_patch b) others s) as [[e|a] s1] eqn:Hrun.
    { subst out. cbn [fst]. intros H. now apply catch_unique_not_ok in H. }
    pose proof (replace_sequence product_model productCollection
                  (fun collectionId => {| pc_productId := id; pc_collectionId := collectionId |})
                  OneProduct "Product updated successfully" id supplied s1
                  (fun _ => eq_refl) (fun _ => eq_refl) (fun _ _ => eq_refl))
      as Htail.
    match type of Htail with
    | match ?t with _ => _ end => set (tail := t) in *
    end.
    clearbody tail. destruct tail as [[e|r] s3]; subst out; cbn [fst snd].
    { intros H. now apply catch_unique_not_ok in H. }
    intros _. destruct Htail as [Hmine Hrest].
    split; [exact Hmine|]. intros -> other Hne. rewrite (Hrest other Hne).
    rewrite update_data_plain in Hrun.
    destruct (update_outcome product_model id (apply_product_patch b) s)
      as [[e He]|[a' [_ Ha]]]; rewrite Hrun in *; [discriminate He|].
    inversion Ha. reflexivity.
  - intros ->. rewrite update_data_plain in Hout.
    destruct (update_outcome product_model id (apply_product_patch b) s)
      as [[e He]|[a [_ Ha]]]; [rewrite He in Hout; now subst out|].
    rewrite Ha in Hout. unfold bind, ret in Hout.
    cbn [with_rows product_model] in Hout.
    rewrite findUnique_run in Hout by exact Hup.
    now subst out.
Qed.

Lemma variants_update_replaces (id : string) (b : VariantPatch)
  (others : list (string * Json)) (s : Store) (v : ProductVariant) :
  outage s = None ->
  find (has_id variant_model id) (variants s) = Some v ->
  replaces_associations variantCollection (vp_collectionIds b) others id s
    (variants_update id b others s).
Proof.
  intros Hup Hfind. unfold replaces_associations.
  remember (variants_update id b others s) as out eqn:Hout.
  unfold variants_update, try_catch in Hout. unfold bind at 1 in Hout.
  rewrite (findUnique_run variant_model id s Hup) in Hout.
  cbn [rows variant_model] in Hout. rewrite Hfind in Hout. unfold bind at 1 in Hout.
  destruct (vp_collectionIds b) as [supplied|].
  - destruct (update_data variant_model variantCollection id
                (apply_variant_patch b) others s) as [[e|a] s1] eqn:Hrun.
    { subst out. cbn [fst]. intros H. now apply catch_unique_not_ok in H. }
    pose proof (replace_sequence variant_model variantCollection
                  (fun collectionId => {| vc_variantId := id; vc_collectionId := collectionId |})
                  OneVariant "Variant updated successfully" id supplied s1
                  (fun _ => eq_refl) (fun _ => eq_refl) (fun _ _ => eq_refl))
      as Htail.
    match type of Htail with
    | match ?t with _ => _ end => set (tail := t) in *
    end.
    clearbody tail. destruct tail as [[e|r] s3]; subst out; cbn [fst snd].
    { intros H. now apply catch_unique_not_ok in H. }
    intros _. destruct Htail as [Hmine Hrest].
    split; [exact Hmine|]. intros -> other Hne. rewrite (Hrest other Hne).
    rewrite update_data_plain in Hrun.
    destruct (update_outcome variant_model id (apply_variant_patch b) s)
      as [[e He]|[a' [_ Ha]]]; rewrite Hrun in *; [discriminate He|].
    inversion Ha. reflexivity.
  - intros ->. rewrite update_data_plain in Hout.
    destruct (update_outcome variant_model id (apply_variant_patch b) s)
      as [[e He]|[a [_ Ha]]]; [rewrite He in Hout; now subst out|].
    rewrite Ha in Hout. unfold bind, ret in Hout.
    cbn [with_rows variant_model] in Hout.
    rewrite findUnique_run in Hout by exact Hup.
    now subst out.
Qed.

Lemma products_update_completes (id : string) (b : ProductPatch) (s : Store)
  (p p' : Product) (supplied : list string) :
  outage s = None ->
  find (has_id product_model id) (products s) = Some p ->
  pp_collectionIds b = Some supplied ->
  fst (update product_model id (apply_product_patch b) s) = inr p' ->
  insertable supplied s ->
  status (fst (products_update id b [] s)) = 200.
Proof.
  intros Hup Hfind Hsupplied Hupdate Hins. unfold products_update, try_catch, bind.
  rewrite (findUnique_run product_model id s Hup).
  cbn [rows product_model]. rewrite Hfind, update_data_plain.
  destruct (update_outcome product_model id (apply_product_patch b) s)
    as [[e He]|[a [Hfa Ha]]].
  { rewrite He in Hupdate. discriminate. }
  rewrite Ha, Hsupplied. cbn [with_rows product_model].
  rewrite deleteMany_run by exact Hup.
  cbn [links with_links productCollection productCollections with_products
       with_productCollections].
  match goal with
  | |- context [with_productCollections ?rest (with_products ?l s)] =>
      set (s2 := with_productCollections rest (with_products l s))
  end.
  destruct supplied as [|c supplied].
  - cbn [List.length Z.of_nat Z.ltb Z.compare ret].
    now rewrite findUnique_run by exact Hup.
  - replace (0 <? Z.of_nat (List.length (c :: supplied))) with true
      by (symmetry; apply Z.ltb_lt; cbn [List.length]; lia).
    rewrite (createMany_fresh productCollection
               (fun collectionId =>
                  {| pc_productId := id; pc_collectionId := collectionId |})
               id (c :: supplied) s2).
    + now rewrite findUnique_run by exact Hup.
    + exact Hup.
    + reflexivity.
    + reflexivity.
    + apply not_owned_after_delete.
    + apply (stored_after_replace product_model id a _ _ Hfa).
      apply find_has_id in Hfa. exact (proj1 Hfa).
    + exact Hins.
Qed.

Lemma variants_update_completes (id : string) (b : VariantPatch) (s : Store)
  (v v' : ProductVariant) (supplied : list string) :
  outage s = None ->
  find (has_id variant_model id) (variants s) = Some v ->
  vp_collectionIds b = Some supplied ->
  fst (update variant_model id (apply_variant_patch b) s) = inr v' ->
  insertable supplied s ->
  status (fst (variants_update id b [] s)) = 200.
Proof.
  intros Hup Hfind Hsupplied Hupdate Hins. unfold variants_update, try_catch, bind.
  rewrite (findUnique_run variant_model id s Hup).
  cbn [rows variant_model]. rewrite Hfind, update_data_plain.
  destruct (update_outcome variant_model id (apply_variant_patch b) s)
    as [[e He]|[a [Hfa Ha]]].
  { rewrite He in Hupdate. discriminate. }
  rewrite Ha, Hsupplied. cbn [with_rows variant_model].
  rewrite deleteMany_run by exact Hup.
  cbn [links with_links variantCollection variantCollections with_variants
       with_variantCollections].
  match goal with
  | |- context [with_variantCollections ?rest (with_variants ?l s)] =>
      set (s2 := with_variantCollections rest (with_variants l s))
  end.
  destruct supplied as [|c supplied].
  - cbn [List.length Z.of_nat Z.ltb Z.compare ret].
    now rewrite findUnique_run by exact Hup.
  - replace (0 <? Z.of_nat (List.length (c :: supplied))) with true
      by (symmetry; apply Z.ltb_lt; cbn [List.length]; lia).
    rewrite (createMany_fresh variantCollection
               (fun collectionId =>
                  {| vc_variantId := id; vc_collectionId := collectionId |})
               id (c :: supplied) s2).
    + now rewrite findUnique_run by exact Hup.
    + exact Hup.
    + reflexivity.
    + reflexivity.
    + apply not_owned_after_delete.
    + apply (stored_after_replace variant_model id a _ _ Hfa).
      apply find_has_id in Hfa. exact (proj1 Hfa).
    + exact Hins.
Qed.

(** C4, as amended.  [PUT /products/:id] and [PUT /variants/:id] on a
    stored row of a reachable store.  When the body has [collectionIds] and
    the update completes, the row is associated with exactly the supplied
    collections (with none for [[]]), whatever the other members of the body
    are; the associations of the other rows are as before when the body has
    no member beyond the columns.  When the body has no [collectionIds] and
    no member beyond the columns, the join rows are as before.  The update
    does complete when the body has no member beyond the columns, its column
    changes are accepted and the supplied identifiers are distinct stored
    collections. *)
Theorem collection_ids_replace_associations (id : string) (s : Store) :
  outage s = None ->
  (forall (b : ProductPatch) (others : list (string * Json)) (p : Product),
     find (has_id product_model id) (products s) = Some p ->
     replaces_associations productCollection (pp_collectionIds b) others id s
       (products_update id b others s)
     /\ (forall supplied p',
           pp_collectionIds b = Some supplied ->
           fst (update product_model id (apply_product_patch b) s) = inr p' ->
           insertable supplied s ->
           status (fst (products_update id b [] s)) = 200
           /\ associations productCollection id (snd (products_update id b [] s))
              = supplied))
  /\ (forall (b : VariantPatch) (others : list (string * Json))
             (v : ProductVariant),
        find (has_id variant_model id) (variants s) = Some v ->
        replaces_associations variantCollection (vp_collectionIds b) others id s
          (variants_update id b others s)
        /\ (forall supplied v',
              vp_collectionIds b = Some supplied ->
              fst (update variant_model id (apply_variant_patch b) s) = inr v' ->
              insertable supplied s ->
              status (fst (variants_update id b [] s)) = 200
              /\ associations variantCollection id (snd (variants_update id b [] s))
                 = supplied)).
Proof.
  intros Hup. split.
  - intros b others p Hfind.
    split; [exact (products_update_replaces id b others s p Hup Hfind)|].
    intros supplied p' Hsupplied Hupdate Hins.
    pose proof (products_update_completes id b s p p' supplied
                  Hup Hfind Hsupplied Hupdate Hins) as Hdone.
    split; [exact Hdone|].
    pose proof (products_update_replaces id b [] s p Hup Hfind) as Hreplace.
    unfold replaces_associations in Hreplace. rewrite Hsupplied in Hreplace.
    exact (proj1 (Hreplace Hdone)).
  - intros b others v Hfind.
    split; [exact (variants_update_replaces id b others s v Hup Hfind)|].
    intros supplied v' Hsupplied Hupdate Hins.
    pose proof (variants_update_completes id b s v v' supplied
                  Hup Hfind Hsupplied Hupdate Hins) as Hdone.
    split; [exact Hdone|].
    pose proof (variants_update_replaces id b [] s v Hup Hfind) as Hreplace.
    unfold replaces_associations in Hreplace. rewrite Hsupplied in Hreplace.
    exact (proj1 (Hreplace Hdone)).
Qed.

(** ** Creating styles *)

Lemma includes_In (l : list string) (x : string) :
  includes l x = true <-> In x l.
Proof.
  unfold includes. rewrite existsb_exists. split.
  - intros [y [Hy Heq]]. apply String.eqb_eq in Heq. now subst.
  - intros H. exists x. split; [exact H|apply String.eqb_refl].
Qed.

Lemma name_free_no_collision (name fitType id : string) (s : Store) :
  style_name_free name s ->
  existsb (same_unique style_model
             {| style_id := id; style_name := name; style_fitType := fitType |})
    (styles s) = false.
Proof.
  intros Hfree. apply not_true_is_false. intros Hex.
  apply existsb_exists in Hex. destruct Hex as [st [Hin Hsame]].
  cbn in Hsame. apply String.eqb_eq in Hsame.
  apply (Hfree st Hin). now symmetry.
Qed.

(** C5, as amended.  [POST /styles] with a non-empty name and a non-empty
    fitType, on a reachable store.  When the upper-cased fitType is one of
    SKINNY, RELAXED, OVERSIZED, CLASSIC and no stored style has the trimmed
    name, the answer is 201 and the style is stored with the upper-cased
    fitType.  When the upper-cased fitType is none of the four, the answer
    is 400 and nothing is stored. *)
Theorem style_create_normalises_fit_type (b : StyleBody) (s : Store)
  (name fitType : string) :
  outage s = None ->
  sb_name b = Some name -> truthy name = true ->
  sb_fitType b = Some fitType -> truthy fitType = true ->
  (In (toUpperCase fitType) ["SKINNY"; "RELAXED"; "OVERSIZED"; "CLASSIC"] ->
   style_name_free (trim name) s ->
   let st := {| style_id := fresh_id (next_id s);
                style_name := trim name;
                style_fitType := toUpperCase fitType |} in
   styles_create b s
   = (json_done 201 (Some (OneStyle st)) "Style created successfully",
      with_styles (styles s ++ [st]) (bump_id s)))
  /\ (~ In (toUpperCase fitType) ["SKINNY"; "RELAXED"; "OVERSIZED"; "CLASSIC"] ->
      status (fst (styles_create b s)) = 400
      /\ snd (styles_create b s) = s).
Proof.
  intros Hup Hname Hn Hfit Hf. split.
  - intros Hvalid Hfree st.
    apply includes_In in Hvalid.
    unfold styles_create, try_catch, bind, create, query, ret, given.
    rewrite Hname, Hfit, Hn, Hf. cbn [negb or_string].
    change (includes validFitTypes (toUpperCase fitType)) with
      (includes ["SKINNY"; "RELAXED"; "OVERSIZED"; "CLASSIC"] (toUpperCase fitType)).
    rewrite Hvalid. cbn [negb]. rewrite Hup. cbn [negb rows style_model].
    rewrite (name_free_no_collision _ _ _ s Hfree).
    reflexivity.
  - intros Hinvalid.
    assert (Hno : includes validFitTypes (toUpperCase fitType) = false).
    { apply not_true_is_false. intros H. now apply includes_In in H. }
    unfold styles_create, try_catch, ret, given.
    rewrite Hname, Hfit, Hn, Hf. cbn [negb or_string].
    rewrite Hno. split; reflexivity.
Qed.

(** ** Bulk creation *)

(** After a duplicate-skipping insert every entry of the batch has a stored
    row that holds its unique columns, its own or the one that made it a
    duplicate; the table has grown at its end. *)
Lemma insert_skipping_spec {A : Type} (T : Model A) :
  (forall l s, rows T (with_rows T l s) = l) ->
  (forall s, rows T (bump_id s) = rows T s) ->
  (forall a, same_unique T a a = true) ->
  forall (data : list (string -> A)) (s : Store),
    (forall mk, In mk data ->
       forall id id' a, same_unique T (mk id) a = same_unique T (mk id') a) ->
    exists added,
      rows T (snd (insert_skipping T data s)) = (rows T s ++ added)%list
      /\ (forall mk, In mk data ->
            exists a, In a (rows T (snd (insert_skipping T data s)))
                      /\ forall id, same_unique T (mk id) a = true).
Proof.
  intros Hrows Hbump Hrefl data.
  induction data as [|mk rest IH]; intros s Hid.
  - exists []. cbn. rewrite app_nil_r. split; [reflexivity|intros a []].
  - cbn [insert_skipping].
    assert (Hrest : forall mk', In mk' rest ->
              forall id id' a, same_unique T (mk' id) a = same_unique T (mk' id') a).
    { intros mk' Hin. apply Hid. now right. }
    destruct (existsb (same_unique T (mk (fresh_id (next_id s)))) (rows T s))
      eqn:Hdup.
    + destruct (IH s Hrest) as [added [Hgrow Hall]].
      exists added. split; [exact Hgrow|].
      intros mk' [<-|Hin]; [|now apply Hall].
      apply existsb_exists in Hdup. destruct Hdup as [a [Ha Hsame]].
      exists a. split.
      * rewrite Hgrow. apply in_or_app. now left.
      * intros id. now rewrite (Hid mk (or_introl eq_refl) id (fresh_id (next_id s)) a).
    + set (a := mk (fresh_id (next_id s))) in *.
      set (s1 := with_rows T (rows T s ++ [a]) (bump_id s)).
      destruct (IH s1 Hrest) as [added [Hgrow Hall]].
      destruct (insert_skipping T rest s1) as [n s'] eqn:Hrun.
      cbn [fst snd] in *.
      assert (Hs1 : rows T s1 = (rows T s ++ [a])%list) by apply Hrows.
      exists (a :: added). split.
      * rewrite Hgrow, Hs1, <- app_assoc. reflexivity.
      * intros mk' [<-|Hin]; [|now apply Hall].
        exists a. split.
        -- rewrite Hgrow, Hs1. apply in_or_app. left. apply in_or_app. right. now left.
        -- intros id. unfold a.
           rewrite (Hid mk (or_introl eq_refl) id (fresh_id (next_id s))).
           apply Hrefl.
Qed.

Lemma held_includes {A : Type} (stored_name : A -> string) (x : string)
  (l : list A) :
  existsb (fun b => (x =? stored_name b)%string) l
  = includes (map stored_name l) x.
Proof.
  unfold includes. induction l as [|b l IH]; cbn [existsb map]; [reflexivity|].
  now rewrite IH, String.eqb_sym.
Qed.

(** [insert_skipping] inserts the entries that are not yet held, for a table
    with one unique column, the name. *)
Lemma insert_skipping_first {A E : Type} (T : Model A)
  (stored_name : A -> string) (name : E -> string) (make : E -> string -> A) :
  (forall l s, rows T (with_rows T l s) = l) ->
  (forall s, rows T (bump_id s) = rows T s) ->
  (forall l s, next_id (with_rows T l (bump_id s)) = S (next_id s)) ->
  (forall a b, same_unique T a b = (stored_name a =? stored_name b)%string) ->
  (forall e id, stored_name (make e id) = name e) ->
  forall (entries : list E) (s : Store),
    inserted_skipping_duplicates T stored_name name make entries s
      (snd (insert_skipping T (map make entries) s))
      (fst (insert_skipping T (map make entries) s)).
Proof.
  intros Hrows Hbump Hnext Hsame Hname entries.
  unfold inserted_skipping_duplicates.
  induction entries as [|e rest IH]; intros s.
  - cbn. rewrite app_nil_r. split; reflexivity.
  - cbn [map insert_skipping not_yet_held].
    assert (Hheld : existsb (same_unique T (make e (fresh_id (next_id s)))) (rows T s)
                    = includes (map stored_name (rows T s)) (name e)).
    { rewrite <- held_includes.
      induction (rows T s) as [|b l IHl]; cbn [existsb]; [reflexivity|].
      now rewrite Hsame, Hname, IHl. }
    rewrite Hheld.
    destruct (includes (map stored_name (rows T s)) (name e)); [apply IH|].
    set (a := make e (fresh_id (next_id s))).
    set (s1 := with_rows T (rows T s ++ [a]) (bump_id s)).
    specialize (IH s1).
    destruct (insert_skipping T (map make rest) s1) as [n s'].
    cbn [fst snd] in *.
    assert (Hs1 : rows T s1 = (rows T s ++ [a])%list) by apply Hrows.
    assert (Hn1 : next_id s1 = S (next_id s)) by apply Hnext.
    rewrite Hs1, Hn1, map_app in IH. cbn [map] in IH.
    replace (stored_name a) with (name e) in IH by (symmetry; apply Hname).
    destruct IH as [Hgrow Hcount]. split.
    + rewrite Hgrow, <- app_assoc. reflexivity.
    + rewrite Hcount. cbn [List.length]. rewrite Nat2Z.inj_succ. lia.
Qed.

Lemma has_name_spec (name : option string) :
  has_name name = true <-> exists n, name = Some n /\ trim n <> "".
Proof.
  unfold has_name, given, trim_opt, truthy. destruct name as [n|].
  - split.
    + intros H. exists n. split; [reflexivity|].
      intros Heq. rewrite Heq in H. discriminate.
    + intros [n' [Heq Hne]]. inversion Heq; subst n'.
      destruct (trim n); [contradiction|reflexivity].
  - split; [discriminate|]. intros [n [Heq _]]. discriminate.
Qed.

Lemma validColors_spec (l : list ColorBody) (e : ColorBody) :
  In e (validColors l) <-> In e l /\ color_entry_ok e.
Proof.
  unfold validColors, color_entry_ok. rewrite filter_In, has_name_spec.
  reflexivity.
Qed.

Lemma validStyles_spec (l : list StyleBody) (e : StyleBody) :
  In e (validStyles l) <-> In e l /\ style_entry_ok e.
Proof.
  unfold validStyles, style_entry_ok. rewrite filter_In.
  rewrite !andb_true_iff, has_name_spec.
  split.
  - intros [Hin [[Hname Hgiven] Hvalid]]. split; [exact Hin|]. split; [exact Hname|].
    destruct (sb_fitType e) as [f|]; [|discriminate].
    exists f. split; [reflexivity|]. now apply includes_In.
  - intros [Hin [Hname [f [Hf Hvalid]]]]. split; [exact Hin|].
    rewrite Hf. cbn [or_string given].
    assert (Hinc : includes validFitTypes (toUpperCase f) = true)
      by now apply includes_In.
    repeat split; try assumption.
    destruct f; [|reflexivity]. discriminate Hinc.
Qed.

Lemma colors_bulk_run (l : list ColorBody) (s : Store) :
  outage s = None ->
  l <> [] ->
  ((forall e, In e l -> ~ color_entry_ok e) ->
   colors_bulk (Some l) s
   = (json_fail 400 "At least one valid color with name is required", s))
  /\ ((exists e, In e l /\ color_entry_ok e) ->
      exists n s',
        colors_bulk (Some l) s
        = (json_done 201 (Some (Count n))
             (string_of_Z n ++ " colors created successfully"), s')
        /\ inserted_skipping_duplicates color_model color_name
             (fun e => trimmed_name (cb_name e)) new_color (validColors l) s s' n).
Proof.
  intros Hup Hne. destruct l as [|x l]; [contradiction|]. split.
  - intros Hnone.
    assert (Hvalid : validColors (x :: l) = []).
    { apply filter_none. intros e He. apply not_true_is_false. intros H.
      apply (Hnone e He). now apply has_name_spec. }
    unfold colors_bulk, try_catch, ret. now rewrite Hvalid.
  - intros [e [He Hok]].
    assert (Hin : In e (validColors (x :: l)))
      by (apply validColors_spec; split; assumption).
    pose proof (insert_skipping_first color_model color_name
                  (fun e => trimmed_name (cb_name e)) new_color
                  (fun _ _ => eq_refl) (fun _ => eq_refl) (fun _ _ => eq_refl)
                  (fun _ _ => eq_refl) (fun _ _ => eq_refl)
                  (validColors (x :: l)) s) as Hspec.
    unfold colors_bulk, try_catch, bind, createMany_skipDuplicates, query, ret.
    destruct (validColors (x :: l)) as [|v vs] eqn:Hvalid; [contradiction|].
    rewrite Hup.
    destruct (insert_skipping color_model (map new_color (v :: vs)) s) as [n s'].
    exists n, s'. split; [reflexivity|exact Hspec].
Qed.

Lemma styles_bulk_run (l : list StyleBody) (s : Store) :
  outage s = None ->
  l <> [] ->
  ((forall e, In e l -> ~ style_entry_ok e) ->
   styles_bulk (Some l) s
   = (json_fail 400 "At least one valid style with name and fitType is required", s))
  /\ ((exists e, In e l /\ style_entry_ok e) ->
      exists n s',
        styles_bulk (Some l) s
        = (json_done 201 (Some (Count n))
             (string_of_Z n ++ " styles created successfully"), s')
        /\ inserted_skipping_duplicates style_model style_name
             (fun e => trimmed_name (sb_name e)) new_style (validStyles l) s s' n).
Proof.
  intros Hup Hne. destruct l as [|x l]; [contradiction|]. split.
  - intros Hnone.
    assert (Hvalid : validStyles (x :: l) = []).
    { destruct (validStyles (x :: l)) as [|v vs] eqn:Hv; [reflexivity|].
      assert (Hin : In v (validStyles (x :: l))) by (rewrite Hv; now left).
      apply validStyles_spec in Hin. destruct Hin as [Hin Hok].
      now destruct (Hnone v Hin). }
    unfold styles_bulk, try_catch, ret. now rewrite Hvalid.
  - intros [e [He Hok]].
    assert (Hin : In e (validStyles (x :: l)))
      by (apply validStyles_spec; split; assumption).
    pose proof (insert_skipping_first style_model style_name
                  (fun e => trimmed_name (sb_name e)) new_style
                  (fun _ _ => eq_refl) (fun _ => eq_refl) (fun _ _ => eq_refl)
                  (fun _ _ => eq_refl) (fun _ _ => eq_refl)
                  (validStyles (x :: l)) s) as Hspec.
    unfold styles_bulk, try_catch, bind, createMany_skipDuplicates, query, ret.
    destruct (validStyles (x :: l)) as [|v vs] eqn:Hvalid; [contradiction|].
    rewrite Hup.
    destruct (insert_skipping style_model (map new_style (v :: vs)) s) as [n s'].
    exists n, s'. split; [reflexivity|exact Hspec].
Qed.

(** C6, as amended.  [POST /colors/bulk] and [POST /styles/bulk] with a
    non-empty array, on a reachable store.  The entries kept are those with
    the required fields.  When no entry has them the answer is 400 and the
    store is as before.  Otherwise the answer is 201 with the number of rows
    inserted: the rows appended to the table are those of the kept entries,
    in the order of the batch, except each entry whose trimmed name is
    already held by a stored row or by an entry inserted before it, whatever
    its other fields are. *)
Theorem bulk_create_skips_taken_names (s : Store) :
  outage s = None ->
  (forall l : list ColorBody,
     l <> [] ->
     (forall e, In e (validColors l) <-> In e l /\ color_entry_ok e)
     /\ ((forall e, In e l -> ~ color_entry_ok e) ->
         colors_bulk (Some l) s
         = (json_fail 400 "At least one valid color with name is required", s))
     /\ ((exists e, In e l /\ color_entry_ok e) ->
         exists n s',
           colors_bulk (Some l) s
           = (json_done 201 (Some (Count n))
                (string_of_Z n ++ " colors created successfully"), s')
           /\ inserted_skipping_duplicates color_model color_name
                (fun e => trimmed_name (cb_name e)) new_color (validColors l)
                s s' n))
  /\ (forall l : list StyleBody,
        l <> [] ->
        (forall e, In e (validStyles l) <-> In e l /\ style_entry_ok e)
        /\ ((forall e, In e l -> ~ style_entry_ok e) ->
            styles_bulk (Some l) s
            = (json_fail 400
                 "At least one valid style with name and fitType is required", s))
        /\ ((exists e, In e l /\ style_entry_ok e) ->
            exists n s',
              styles_bulk (Some l) s
              = (json_done 201 (Some (Count n))
                   (string_of_Z n ++ " styles created successfully"), s')
              /\ inserted_skipping_duplicates style_model style_name
                   (fun e => trimmed_name (sb_name e)) new_style (validStyles l)
                   s s' n)).
Proof.
  intros Hup. split; intros l Hne.
  - split; [apply validColors_spec|]. now apply colors_bulk_run.
  - split; [apply validStyles_spec|]. now apply styles_bulk_run.
Qed.

(** ** The inStock filter *)

(** C7, as amended.  For a list request that carries [inStock]: the
    variant list keeps, among the variants that pass the other filters,
    exactly those whose stock is greater than zero when the value is
    ['true'] and exactly those whose stock is at most zero for any other
    value; the product list keeps exactly the products whose [inStock] flag
    equals "the value is ['true']", whatever their quantity in stock. *)
Theorem inStock_filters (q : Query) (value : string) :
  q_inStock q = Some value ->
  vw_stock (variants_where q)
  = Some (if (value =? "true")%string then Gt 0 else Lte 0)
  /\ (forall v,
        variant_matches (variants_where q) v
        = variant_matches (variants_where (without_inStock q)) v
          && (if (value =? "true")%string
              then 0 <? variant_stock v
              else variant_stock v <=? 0))
  /\ pw_inStock (products_where q) = Some (value =? "true")%string
  /\ (forall p,
        product_matches (products_where q) p
        = product_matches (products_where (without_inStock q)) p
          && Bool.eqb (product_inStock p) (value =? "true")%string).
Proof.
  intros Hq. repeat split.
  - unfold variants_where. cbn [vw_stock]. now rewrite Hq.
  - intros v. unfold variant_matches, variants_where.
    cbn [vw_OR vw_productId vw_colorId vw_styleId vw_stock without_inStock
         q_search q_productId q_colorId q_styleId q_inStock].
    rewrite Hq, andb_true_r.
    destruct (value =? "true")%string; reflexivity.
  - unfold products_where. cbn [pw_inStock]. now rewrite Hq.
  - intros p. unfold product_matches, products_where.
    cbn [pw_OR pw_brandId pw_productTypeId pw_inStock pw_price without_inStock
         q_search q_brandId q_productTypeId q_inStock q_minPrice q_maxPrice].
    rewrite Hq, andb_true_r.
    rewrite <- !andb_assoc. do 3 f_equal. apply andb_comm.
Qed.

(** ** Unexpected errors *)

(** C8.  What the code does with an error that is neither P2002 nor P2025:
    [GET /products], while the store is out of reach, answers 500 with the
    message of the underlying error in the body, whatever [NODE_ENV] is; the
    error handler of the application file, for the same error outside
    development mode, answers 500 with a fixed text. *)
Theorem route_errors_reveal_message (env : Env) (q : Query) (s : Store) (e : Error) :
  outage s = Some e ->
  has_code e "P2002" = false ->
  has_code e "P2025" = false ->
  development env = false ->
  app env (GetProducts q) s = (json_unexpected "Failed to fetch products" e, s)
  /\ status (fst (app env (GetProducts q) s)) = 500
  /\ message (fst (app env (GetProducts q) s)) = Some (err_message e)
  /\ errorHandler env e
     = json_plain 500 "Internal server error" "Something went wrong.".
Proof.
  intros Hout H2002 H2025 Hdev.
  assert (Hrun : app env (GetProducts q) s
                 = (json_unexpected "Failed to fetch products" e, s)).
  { cbn [app]. unfold products_list, try_catch, list_page, bind,
      findManyPaged, query. now rewrite Hout. }
  rewrite Hrun. repeat split.
  unfold errorHandler. now rewrite H2002, H2025, Hdev.
Qed.

(** ** The shape of the answers *)



















(** * Properties of the handlers beyond the specification *)

(** ** Assertions on computations *)

Lemma triple_ret {A : Type} (P : Store -> Prop) (a : A)
  (Q : A -> Store -> Prop) (R : Error -> Store -> Prop) :
  (forall s, P s -> Q a s) -> triple P (ret a) Q R.
Proof. intros H s Hs. exact (H s Hs). Qed.

Lemma triple_throw {A : Type} (P : Store -> Prop) (e : Error)
  (Q : A -> Store -> Prop) (R : Error -> Store -> Prop) :
  (forall s, P s -> R e s) -> triple P (throw e) Q R.
Proof. intros H s Hs. exact (H s Hs). Qed.

Lemma triple_bind {A B : Type} (P : Store -> Prop) (m : M A) (k : A -> M B)
  (Q1 : A -> Store -> Prop) (Q : B -> Store -> Prop) (R : Error -> Store -> Prop) :
  triple P m Q1 R ->
  (forall a, triple (Q1 a) (k a) Q R) ->
  triple P (bind m k) Q R.
Proof.
  intros Hm Hk s Hs. unfold bind. specialize (Hm s Hs).
  destruct (m s) as [[e|a] s']; [exact Hm|exact (Hk a s' Hm)].
Qed.

Lemma triple_absurd {A : Type} (m : M A)
  (Q : A -> Store -> Prop) (R : Error -> Store -> Prop) :
  triple (fun _ => False) m Q R.
Proof. intros s []. Qed.

(** After a call that may have written, nothing is known of the store. *)
Lemma triple_bind_any {A B : Type} (P : Store -> Prop) (m : M A) (k : A -> M B)
  (Q : B -> Store -> Prop) (R : Error -> Store -> Prop) :
  (forall a, triple (fun _ => True) (k a) Q R) ->
  (forall e s, R e s) ->
  triple P (bind m k) Q R.
Proof.
  intros Hk HR. apply triple_bind with (Q1 := fun _ _ => True); [|exact Hk].
  intros s _. destruct (m s) as [[e|a] s']; [apply HR|exact I].
Qed.

(** After a call that only reads, the store is the one before it. *)
Lemma triple_bind_read {A B : Type} (s0 : Store) (m : M A) (k : A -> M B)
  (Q : B -> Store -> Prop) (R : Error -> Store -> Prop) :
  reads_only m ->
  (forall a, triple (fun s => s = s0) (k a) Q R) ->
  (forall e, R e s0) ->
  triple (fun s => s = s0) (bind m k) Q R.
Proof.
  intros Hm Hk HR. apply triple_bind with (Q1 := fun _ s => s = s0); [|exact Hk].
  intros s ->. specialize (Hm s0).
  destruct (m s0) as [[e|a] s']; cbn [snd] in Hm; subst s'; [apply HR|reflexivity].
Qed.

Lemma try_catch_triple (P : Store -> Prop) (body : M Response)
  (handler : Error -> Response)
  (Q : Response -> Store -> Prop) (R : Error -> Store -> Prop)
  (Post : Response -> Store -> Prop) (s : Store) :
  triple P body Q R ->
  P s ->
  (forall r s', Q r s' -> Post r s') ->
  (forall e s', R e s' -> Post (handler e) s') ->
  Post (fst (try_catch body handler s)) (snd (try_catch body handler s)).
Proof.
  intros Hbody Hs HQ HR. unfold try_catch. specialize (Hbody s Hs).
  destruct (body s) as [[e|r] s']; cbn [fst snd]; [now apply HR|now apply HQ].
Qed.

Lemma keeps_ret {A : Type} (I : Store -> Prop) (a : A) : keeps I (ret a).
Proof. intros s Hs. exact Hs. Qed.

Lemma keeps_throw {A : Type} (I : Store -> Prop) (e : Error) :
  keeps I (@throw A e).
Proof. intros s Hs. exact Hs. Qed.

Lemma keeps_bind {A B : Type} (I : Store -> Prop) (m : M A) (k : A -> M B) :
  keeps I m -> (forall a, keeps I (k a)) -> keeps I (bind m k).
Proof. intros Hm Hk. eapply triple_bind; [exact Hm|exact Hk]. Qed.

Lemma keeps_reads {A : Type} (I : Store -> Prop) (m : M A) :
  reads_only m -> keeps I m.
Proof.
  intros Hm s Hs. specialize (Hm s).
  destruct (m s) as [[e|a] s']; cbn [snd] in Hm; now subst s'.
Qed.

Lemma try_catch_keeps (I : Store -> Prop) (body : M Response)
  (handler : Error -> Response) (s : Store) :
  keeps I body -> I s -> I (snd (try_catch body handler s)).
Proof.
  intros Hbody Hs.
  apply (try_catch_triple I body handler (fun _ => I) (fun _ => I) (fun _ => I) s);
    auto.
Qed.

(** ** The calls that only read *)

Lemma findUnique_reads {A : Type} (T : Model A) (id : string) :
  reads_only (findUnique T id).
Proof. intros s. unfold findUnique, query. now destruct (outage s). Qed.

Lemma findFirstBy_reads {A : Type} (T : Model A) (key : A -> string)
  (value : string) :
  reads_only (findFirstBy T key value).
Proof. intros s. unfold findFirstBy, query. now destruct (outage s). Qed.

Lemma findUniqueCounting_reads {A C : Type} (T : Model A) (id : string)
  (counts : Store -> C) :
  reads_only (findUniqueCounting T id counts).
Proof. intros s. unfold findUniqueCounting, query. now destruct (outage s). Qed.

Lemma findMany_reads {A : Type} (T : Model A) (where_ : A -> bool)
  (orderBy : option (string * string)) :
  reads_only (findMany T where_ orderBy).
Proof.
  intros s. unfold findMany, query. destruct (outage s); [reflexivity|].
  now destruct (ordered _ _).
Qed.

Lemma findManyPaged_reads {A : Type} (T : Model A) (where_ : A -> bool)
  (skip take : Number) (orderBy : option (string * string)) :
  reads_only (findManyPaged T where_ skip take orderBy).
Proof.
  intros s. unfold findManyPaged, query. destruct (outage s); [reflexivity|].
  destruct (ordered _ _); [|reflexivity]. now destruct (window _ _ _).
Qed.

Lemma count_reads {A : Type} (T : Model A) (where_ : A -> bool) :
  reads_only (count T where_).
Proof. intros s. unfold count, query. now destruct (outage s). Qed.

(** The store calls of the handlers that only read. *)
Ltac reading :=
  first
    [ apply findUnique_reads | apply findFirstBy_reads
    | apply findUniqueCounting_reads | apply findMany_reads
    | apply findManyPaged_reads | apply count_reads ].

(** Walks through a handler all of whose store calls read. *)
Ltac walk_reads :=
  repeat first
    [ apply keeps_bind; [apply keeps_reads; reading | intros]
    | apply keeps_ret
    | apply keeps_throw
    | match goal with
      | |- keeps _ (match ?x with _ => _ end) => destruct x
      end ].

(** X1.  A request with the verb GET does not change the store, whatever
    the store holds and whether it can be reached or not; nor does a request
    answered by the application file itself. *)
Theorem reads_leave_the_store (env : Env) (r : Request) (s : Store) :
  method r = Some GET \/ routed r = false ->
  snd (app env r s) = s.
Proof.
  intros [Hr|Hr]; destruct r; try discriminate Hr; cbn [app snd];
    try reflexivity;
    apply (try_catch_keeps (fun s' => s' = s)); try reflexivity;
    try unfold list_page; walk_reads.
Qed.

(** ** Answers without effect *)

Lemma catch_unique_found (taken failed : string) (e : Error) :
  status (catch_unique taken failed e) <> 404.
Proof. destruct (catch_unique_status taken failed e) as [H|H]; rewrite H; lia. Qed.

(** Walks through a handler to see that a 404 is answered before the first
    call that writes. *)
Ltac walk_missing :=
  repeat first
    [ apply triple_bind_read; [reading | intros | intros; exact I]
    | apply triple_bind_any; [intros | intros; exact I]
    | apply triple_ret; intros ? ? ?; first [assumption | discriminate]
    | apply triple_throw; intros; exact I
    | match goal with
      | |- triple _ (match ?x with _ => _ end) _ _ => destruct x
      end ].

(** X2.  Whenever a request is answered 404, the store is as it was: every
    handler looks the row up (the product of a new variant included)
    before its first write, and no answer given after a write is a 404. *)
Theorem not_found_leaves_the_store (env : Env) (r : Request) (s : Store) :
  status (fst (app env r s)) = 404 ->
  snd (app env r s) = s.
Proof.
  destruct r; cbn [app]; try reflexivity;
    apply (try_catch_triple (fun s' => s' = s) _ _
             (fun r s' => status r = 404 -> s' = s) (fun _ _ => True)
             (fun r s' => status r = 404 -> s' = s));
    try reflexivity; try (intros r s' H; exact H);
    try (intros e s' _ H; exfalso; revert H;
         first [apply catch_unique_found | discriminate]);
    try unfold list_page; walk_missing.
Qed.

(** A store call made while the store cannot be reached is rejected and
    ends the body of the handler. *)
Lemma bind_during_outage {A B : Type} (s0 : Store) (e0 : Error)
  (f : Store -> (Error + A) * Store) (k : A -> M B)
  (Q : B -> Store -> Prop) (R : Error -> Store -> Prop) :
  outage s0 = Some e0 ->
  R e0 s0 ->
  triple (fun s => s = s0) (bind (query f) k) Q R.
Proof.
  intros Hout HR s ->. unfold bind, query. rewrite Hout. exact HR.
Qed.

Ltac walk_outage Hout :=
  repeat first
    [ eapply bind_during_outage; [exact Hout | reflexivity]
    | apply triple_ret; intros ? ->; split; reflexivity
    | apply triple_throw; intros ? ->; reflexivity
    | match goal with
      | |- triple _ (match ?x with _ => _ end) _ _ => destruct x
      end ].

(** X3.  While the store cannot be reached, no request changes it, and a
    request to one of the routers is answered 400 (a body that fails
    validation, or an error that carries the code P2002) or 500, never 200,
    201 or 404; the list of fit types, which is a constant of the code, is
    the one exception. *)
Theorem outage_changes_nothing (env : Env) (r : Request) (s : Store) (e : Error) :
  outage s = Some e ->
  snd (app env r s) = s
  /\ (routed r = true ->
      r = GetFitTypes
      \/ status (fst (app env r s)) = 400
      \/ status (fst (app env r s)) = 500).
Proof.
  intros Hout.
  destruct r; cbn [app routed]; try (split; [reflexivity|discriminate]);
    try (split; [reflexivity|intros _; left; reflexivity]);
    match goal with
    | |- _ /\ (_ -> ?req = _ \/ _) =>
        apply (try_catch_triple (fun s' => s' = s) _ _
                 (fun r s' => s' = s /\ status r = 400)
                 (fun _ s' => s' = s)
                 (fun r s' =>
                    s' = s
                    /\ (true = true ->
                        req = GetFitTypes \/ status r = 400 \/ status r = 500)))
    end;
    try reflexivity;
    try (intros r s' [Hs Hr]; split; [exact Hs|intros _; right; now left]);
    try (intros e' s' Hs; split; [exact Hs|intros _; right];
         first [ apply catch_unique_status | right; reflexivity ]);
    try unfold list_page; walk_outage Hout.
Qed.

(** ** Creating a row and reading it back *)

Lemma create_run {A : Type} (T : Model A) (mk : string -> A) (s : Store) :
  outage s = None ->
  existsb (same_unique T (mk (fresh_id (next_id s)))) (rows T s) = false ->
  references_ok T s (mk (fresh_id (next_id s))) = true ->
  create T mk s
  = (inr (mk (fresh_id (next_id s))),
     with_rows T (rows T s ++ [mk (fresh_id (next_id s))]) (bump_id s)).
Proof.
  intros Hup Hfree Href. unfold create, query. now rewrite Hup, Hfree, Href.
Qed.

Lemma create_taken {A : Type} (T : Model A) (mk : string -> A) (s : Store) (a : A) :
  outage s = None ->
  In a (rows T s) ->
  same_unique T (mk (fresh_id (next_id s))) a = true ->
  create T mk s = (inl unique_violation, s).
Proof.
  intros Hup Hin Hsame. unfold create, query. rewrite Hup.
  replace (existsb (same_unique T (mk (fresh_id (next_id s)))) (rows T s)) with true;
    [reflexivity|].
  symmetry. apply existsb_exists. exists a. split; assumption.
Qed.

Lemma find_app_new {A : Type} (f : A -> bool) (l : list A) (a : A) :
  (forall x, In x l -> f x = false) ->
  find f (l ++ [a]) = if f a then Some a else None.
Proof.
  intros Hl. induction l as [|x l IH]; simpl; [reflexivity|].
  rewrite (Hl x (or_introl eq_refl)). apply IH.
  intros y Hy. apply Hl. now right.
Qed.

Lemma find_app_old {A : Type} (f : A -> bool) (l : list A) (a : A) :
  f a = false -> find f (l ++ [a]) = find f l.
Proof.
  intros Ha. induction l as [|x l IH]; simpl; [now rewrite Ha|].
  destruct (f x); [reflexivity|exact IH].
Qed.

Lemma has_id_other {A : Type} (T : Model A) (id id' : string) (a : A) :
  has_id T id a = true -> id' <> id -> has_id T id' a = false.
Proof.
  unfold has_id. intros Hid Hne. apply String.eqb_eq in Hid.
  apply String.eqb_neq. congruence.
Qed.

Lemma find_created {A : Type} (T : Model A) (s : Store) (a : A) :
  fresh_for T s ->
  pk T a = fresh_id (next_id s) ->
  find (has_id T (pk T a)) (rows T s ++ [a]) = Some a
  /\ forall id, id <> pk T a ->
       find (has_id T id) (rows T s ++ [a]) = find (has_id T id) (rows T s).
Proof.
  intros Hfresh Hpk. split.
  - rewrite find_app_new.
    + unfold has_id. now rewrite String.eqb_refl.
    + intros x Hx. unfold has_id. apply String.eqb_neq.
      rewrite Hpk. now apply Hfresh.
  - intros id Hne. apply find_app_old.
    unfold has_id. apply String.eqb_neq. congruence.
Qed.

Lemma no_collision {A : Type} (same : A -> bool) (l : list A) :
  (forall x, In x l -> same x = false) -> existsb same l = false.
Proof.
  intros H. induction l as [|x l IH]; simpl; [reflexivity|].
  rewrite (H x (or_introl eq_refl)). apply IH. intros y Hy. apply H. now right.
Qed.

(** The steps of a create handler followed by a lookup, once the name is
    known to be given and free. *)
Ltac create_then_get T Hup Hfree Hfresh :=
  let Hrun := fresh "Hrun" in
  let Hnew := fresh "Hnew" in
  let Hold := fresh "Hold" in
  match goal with
  | |- context [create T ?mk] =>
      pose proof (create_run T mk _ Hup) as Hrun;
      cbn [rows same_unique references_ok T] in Hrun;
      rewrite no_collision in Hrun
        by (intros x Hx; apply String.eqb_neq; intros Heq;
            now apply (Hfree x Hx));
      specialize (Hrun eq_refl eq_refl);
      destruct (find_created T _ (mk (fresh_id (next_id _))) Hfresh eq_refl)
        as [Hnew Hold];
      cbn [rows pk T color_id brand_id collection_id style_id] in Hnew, Hold;
      unfold try_catch, bind; rewrite Hrun; cbn [ret];
      split; [reflexivity|];
      unfold findUnique, query;
      cbn [outage bump_id with_colors with_brands with_collections with_styles];
      rewrite Hup;
      cbn [rows T colors brands collections styles
           with_colors with_brands with_collections with_styles];
      split;
      [ now rewrite Hnew
      | intros id Hne; rewrite (Hold id Hne);
        now destruct (find (has_id T id) _) ]
  end.

(** X4.  A colour, brand or collection created under a name that is given
    and free is answered 201 and stored with the trimmed name, under the
    identifier that the store generates; a lookup of that identifier then
    answers it, and the lookup of every other identifier answers as before.
    The store is reachable and does not hand out an identifier twice. *)
Theorem created_row_is_found (s : Store) :
  outage s = None ->
  (forall (b : ColorBody) (name : string),
     cb_name b = Some name -> truthy name = true ->
     (forall c, In c (colors s) -> color_name c <> trim name) ->
     fresh_for color_model s ->
     let c := {| color_id := fresh_id (next_id s); color_name := trim name;
                 color_hexCode := trim_or_null (cb_hexCode b) |} in
     let s' := with_colors (colors s ++ [c]) (bump_id s) in
     colors_create b s
     = (json_done 201 (Some (OneColor c)) "Color created successfully", s')
     /\ colors_get (fresh_id (next_id s)) s' = (json_data (Some (OneColor c)), s')
     /\ forall id, id <> fresh_id (next_id s) ->
          fst (colors_get id s') = fst (colors_get id s))
  /\ (forall (b : BrandBody) (name : string),
        bb_name b = Some name -> truthy name = true ->
        (forall x, In x (brands s) -> brand_name x <> trim name) ->
        fresh_for brand_model s ->
        let x := {| brand_id := fresh_id (next_id s); brand_name := trim name;
                    brand_logo := trim_opt (bb_logo b) |} in
        let s' := with_brands (brands s ++ [x]) (bump_id s) in
        brands_create b s
        = (json_done 201 (Some (OneBrand x)) "Brand created successfully", s')
        /\ brands_get (fresh_id (next_id s)) s' = (json_data (Some (OneBrand x)), s')
        /\ forall id, id <> fresh_id (next_id s) ->
             fst (brands_get id s') = fst (brands_get id s))
  /\ (forall (b : CollectionBody) (name : string),
        lb_name b = Some name -> truthy name = true ->
        (forall c, In c (collections s) -> collection_name c <> trim name) ->
        fresh_for collection_model s ->
        let c := {| collection_id := fresh_id (next_id s);
                    collection_name := trim name;
                    collection_description := trim_opt (lb_description b) |} in
        let s' := with_collections (collections s ++ [c]) (bump_id s) in
        collections_create b s
        = (json_done 201 (Some (OneCollection c)) "Collection created successfully",
           s')
        /\ collections_get (fresh_id (next_id s)) s'
           = (json_data (Some (OneCollection c)), s')
        /\ forall id, id <> fresh_id (next_id s) ->
             fst (collections_get id s') = fst (collections_get id s)).
Proof.
  intros Hup. repeat match goal with |- _ /\ _ => split end;
    intros b name Hname Hgiven Hfree Hfresh x s'; subst x s'.
  - unfold colors_create, colors_get, given. rewrite Hname, Hgiven.
    cbn [or_string].
    create_then_get color_model Hup Hfree Hfresh.
  - unfold brands_create, brands_get, given. rewrite Hname, Hgiven.
    cbn [or_string].
    create_then_get brand_model Hup Hfree Hfresh.
  - unfold collections_create, collections_get, given. rewrite Hname, Hgiven.
    cbn [or_string].
    create_then_get collection_model Hup Hfree Hfresh.
Qed.

(** X5.  Creating a colour, style, brand or collection whose trimmed name
    is the name of a stored row is answered 400 with the "name already
    exists" error of the router, and stores nothing.  The store is
    reachable; for a style the fit type is a valid one. *)
Theorem taken_name_is_a_conflict (s : Store) :
  outage s = None ->
  (forall (b : ColorBody) (name : string) (c : Color),
     cb_name b = Some name -> truthy name = true ->
     In c (colors s) -> color_name c = trim name ->
     colors_create b s = (json_fail 400 "Color name already exists", s))
  /\ (forall (b : StyleBody) (name fitType : string) (st : Style),
        sb_name b = Some name -> truthy name = true ->
        sb_fitType b = Some fitType -> truthy fitType = true ->
        includes validFitTypes (toUpperCase fitType) = true ->
        In st (styles s) -> style_name st = trim name ->
        styles_create b s = (json_fail 400 "Style name already exists", s))
  /\ (forall (b : BrandBody) (name : string) (x : Brand),
        bb_name b = Some name -> truthy name = true ->
        In x (brands s) -> brand_name x = trim name ->
        brands_create b s = (json_fail 400 "Brand name already exists", s))
  /\ (forall (b : CollectionBody) (name : string) (c : Collection),
        lb_name b = Some name -> truthy name = true ->
        In c (collections s) -> collection_name c = trim name ->
        collections_create b s
        = (json_fail 400 "Collection name already exists", s)).
Proof.
  intros Hup. repeat match goal with |- _ /\ _ => split end.
  - intros b name c Hname Hgiven Hin Hsame.
    unfold colors_create, try_catch, bind, given. rewrite Hname, Hgiven.
    rewrite (create_taken color_model _ s c Hup Hin); [reflexivity|].
    cbn. rewrite Hsame. apply String.eqb_refl.
  - intros b name fitType st Hname Hgiven Hfit Hfitgiven Hvalid Hin Hsame.
    unfold styles_create, try_catch, bind, given.
    rewrite Hname, Hgiven, Hfit, Hfitgiven. cbn [negb or_string].
    rewrite Hvalid. cbn [negb].
    rewrite (create_taken style_model _ s st Hup Hin); [reflexivity|].
    cbn. rewrite Hsame. apply String.eqb_refl.
  - intros b name x Hname Hgiven Hin Hsame.
    unfold brands_create, try_catch, bind, given. rewrite Hname, Hgiven.
    rewrite (create_taken brand_model _ s x Hup Hin); [reflexivity|].
    cbn. rewrite Hsame. apply String.eqb_refl.
  - intros b name c Hname Hgiven Hin Hsame.
    unfold collections_create, try_catch, bind, given. rewrite Hname, Hgiven.
    rewrite (create_taken collection_model _ s c Hup Hin); [reflexivity|].
    cbn. rewrite Hsame. apply String.eqb_refl.
Qed.

(** X6.  A name made of white space only passes the test [!name] of the
    create handlers, which test the name before trimming it: the colour or
    style is created with the empty name.  The bulk handlers test the
    trimmed name and drop the same entry; alone in its batch, it is answered
    400. *)
Theorem blank_name_is_stored_empty (s : Store) (name : string) :
  outage s = None ->
  truthy name = true ->
  trim name = "" ->
  (forall (hexCode : option string),
     (forall c, In c (colors s) -> color_name c <> "") ->
     let b := {| cb_name := Some name; cb_hexCode := hexCode |} in
     let c := {| color_id := fresh_id (next_id s); color_name := "";
                 color_hexCode := trim_or_null hexCode |} in
     colors_create b s
     = (json_done 201 (Some (OneColor c)) "Color created successfully",
        with_colors (colors s ++ [c]) (bump_id s))
     /\ colors_bulk (Some [b]) s
        = (json_fail 400 "At least one valid color with name is required", s))
  /\ (forall (fitType : string),
        includes validFitTypes (toUpperCase fitType) = true ->
        (forall st, In st (styles s) -> style_name st <> "") ->
        let b := {| sb_name := Some name; sb_fitType := Some fitType |} in
        let st := {| style_id := fresh_id (next_id s); style_name := "";
                     style_fitType := toUpperCase fitType |} in
        styles_create b s
        = (json_done 201 (Some (OneStyle st)) "Style created successfully",
           with_styles (styles s ++ [st]) (bump_id s))
        /\ styles_bulk (Some [b]) s
           = (json_fail 400
                "At least one valid style with name and fitType is required", s)).
Proof.
  intros Hup Hgiven Hblank. split.
  - intros hexCode Hfree b c. split.
    + unfold colors_create, try_catch, bind, given. subst b c.
      cbn [cb_name cb_hexCode or_string]. rewrite Hgiven.
      rewrite create_run; rewrite ?Hblank; try reflexivity; try exact Hup.
      cbn [rows same_unique color_model color_name]. apply no_collision.
      intros x Hx. apply String.eqb_neq. intros Heq. now apply (Hfree x Hx).
    + unfold colors_bulk, validColors, has_name, trim_opt, given. subst b.
      cbn [filter cb_name]. now rewrite Hblank.
  - intros fitType Hvalid Hfree b st.
    assert (Hfit : truthy fitType = true).
    { destruct fitType; [discriminate Hvalid|reflexivity]. }
    split.
    + unfold styles_create, try_catch, bind, given. subst b st.
      cbn [sb_name sb_fitType or_string]. rewrite Hgiven, Hfit. cbn [negb].
      rewrite Hvalid. cbn [negb].
      rewrite create_run; rewrite ?Hblank; try reflexivity; try exact Hup.
      cbn [rows same_unique style_model style_name]. apply no_collision.
      intros x Hx. apply String.eqb_neq. intros Heq. now apply (Hfree x Hx).
    + unfold styles_bulk, validStyles, has_name, trim_opt, given. subst b.
      cbn [filter sb_name sb_fitType]. now rewrite Hblank.
Qed.

(** ** Updating a row *)

Lemma update_run {A : Type} (T : Model A) (id : string) (f : A -> A)
  (s : Store) (a : A) :
  outage s = None ->
  find (has_id T id) (rows T s) = Some a ->
  (forall other, In other (rows T s) -> has_id T id other = false ->
                 same_unique T (f a) other = false) ->
  references_ok T s (f a) = true ->
  update T id f s
  = (inr (f a), with_rows T (replace_row T id (f a) (rows T s)) s).
Proof.
  intros Hup Hfind Hfree Href. unfold update, query. rewrite Hup, Hfind.
  rewrite no_collision.
  - now rewrite Href.
  - intros other Hother. apply filter_In in Hother. destruct Hother as [Hin Hid].
    apply negb_true_iff in Hid. now rewrite (Hfree other Hin Hid).
Qed.

Lemma update_taken {A : Type} (T : Model A) (id : string) (f : A -> A)
  (s : Store) (a other : A) :
  outage s = None ->
  find (has_id T id) (rows T s) = Some a ->
  In other (rows T s) -> has_id T id other = false ->
  same_unique T (f a) other = true ->
  same_unique T a other = false ->
  update T id f s = (inl unique_violation, s).
Proof.
  intros Hup Hfind Hin Hid Hnew Hold. unfold update, query. rewrite Hup, Hfind.
  replace (existsb _ (without_id T id (rows T s))) with true; [reflexivity|].
  symmetry. apply existsb_exists. exists other. split.
  - apply filter_In. split; [exact Hin|now rewrite Hid].
  - now rewrite Hnew, Hold.
Qed.

Lemma find_replace_other {A : Type} (T : Model A) (id id' : string) (a' : A)
  (l : list A) :
  has_id T id a' = true -> id' <> id ->
  find (has_id T id') (replace_row T id a' l) = find (has_id T id') l.
Proof.
  intros Hid Hne. induction l as [|x l IH]; simpl; [reflexivity|].
  destruct (has_id T id x) eqn:Hx; simpl.
  - now rewrite (has_id_other T id id' a' Hid Hne), (has_id_other T id id' x Hx Hne).
  - now rewrite IH.
Qed.

Lemma replace_row_length {A : Type} (T : Model A) (id : string) (a' : A)
  (l : list A) :
  List.length (replace_row T id a' l) = List.length l.
Proof.
  induction l as [|x l IH]; simpl; [reflexivity|].
  destruct (has_id T id x); simpl; [reflexivity|now rewrite IH].
Qed.

Lemma replace_row_same {A : Type} (T : Model A) (id : string) (a : A) (l : list A) :
  find (has_id T id) l = Some a -> replace_row T id a l = l.
Proof.
  induction l as [|x l IH]; simpl; [discriminate|].
  destruct (has_id T id x); intros H.
  - now inversion H.
  - now rewrite (IH H).
Qed.

(** The steps of an update handler on a stored row whose new name is free,
    followed by lookups. *)
Ltac update_then_get T f Hup Hfind Hfree :=
  let Hrun := fresh "Hrun" in
  let Hid := fresh "Hid" in
  match type of Hfind with
  | _ = Some ?a =>
      assert (Hid : has_id T _ (f a) = true)
        by exact (proj1 (find_has_id T _ _ _ Hfind))
  end;
  pose proof (update_run T _ f _ _ Hup Hfind) as Hrun;
  cbn [rows same_unique references_ok T] in Hrun;
  rewrite Hrun;
  [ cbn [ret fst snd]; split; [reflexivity|];
    unfold findUnique, query;
    cbn [outage with_rows T with_colors with_brands with_collections with_styles];
    rewrite Hup;
    cbn [rows T colors brands collections styles
         with_colors with_brands with_collections with_styles];
    split; [|split];
    [ now rewrite (find_replace_row T _ _ _ _ Hfind Hid)
    | intros id' Hne; rewrite (find_replace_other T _ id' _ _ Hid Hne);
      now destruct (find (has_id T id') _)
    | apply replace_row_length ]
  | intros other Hin Hother; apply String.eqb_neq; intros Heq;
    apply (Hfree other Hin); [|now symmetry];
    unfold has_id in Hother; now apply String.eqb_neq in Hother
  | reflexivity ].

(** X7.  [PUT] on a stored colour, brand, collection or style, with a new
    name that no other row of the table has (and, for a style, a fit type
    that is valid when given): the answer is 200 with the row patched by the
    members of the body that are present, a lookup of the identifier answers
    the patched row, the lookup of every other identifier answers as before
    and the table has as many rows as before.  The store is reachable. *)
Theorem update_changes_one_row (s : Store) (id : string) :
  outage s = None ->
  (forall (b : ColorBody) (c : Color),
     find (has_id color_model id) (colors s) = Some c ->
     (forall other, In other (colors s) -> color_id other <> id ->
        color_name other <> color_name (apply_color_body b c)) ->
     updates_one_row color_model OneColor "Color updated successfully" colors_get
       id (apply_color_body b c) s (colors_update id b s))
  /\ (forall (b : BrandBody) (x : Brand),
        find (has_id brand_model id) (brands s) = Some x ->
        (forall other, In other (brands s) -> brand_id other <> id ->
           brand_name other <> brand_name (apply_brand_body b x)) ->
        updates_one_row brand_model OneBrand "Brand updated successfully" brands_get
          id (apply_brand_body b x) s (brands_update id b s))
  /\ (forall (b : CollectionBody) (c : Collection),
        find (has_id collection_model id) (collections s) = Some c ->
        (forall other, In other (collections s) -> collection_id other <> id ->
           collection_name other <> collection_name (apply_collection_body b c)) ->
        updates_one_row collection_model OneCollection
          "Collection updated successfully" collections_get
          id (apply_collection_body b c) s (collections_update id b s))
  /\ (forall (b : StyleBody) (st : Style),
        find (has_id style_model id) (styles s) = Some st ->
        (forall fitType, sb_fitType b = Some fitType ->
           includes validFitTypes (toUpperCase fitType) = true) ->
        (forall other, In other (styles s) -> style_id other <> id ->
           style_name other <> style_name (apply_style_body b st)) ->
        updates_one_row style_model OneStyle "Style updated successfully" styles_get
          id (apply_style_body b st) s (styles_update id b s)).
Proof.
  intros Hup. repeat match goal with |- _ /\ _ => split end.
  - intros b c Hfind Hfree.
    unfold updates_one_row, colors_update, colors_get, try_catch, bind.
    rewrite (findUnique_run color_model id s Hup).
    cbn [rows color_model]. rewrite Hfind.
    update_then_get color_model (apply_color_body b) Hup Hfind Hfree.
  - intros b x Hfind Hfree.
    unfold updates_one_row, brands_update, brands_get, try_catch, bind.
    rewrite (findUnique_run brand_model id s Hup).
    cbn [rows brand_model]. rewrite Hfind.
    update_then_get brand_model (apply_brand_body b) Hup Hfind Hfree.
  - intros b c Hfind Hfree.
    unfold updates_one_row, collections_update, collections_get, try_catch, bind.
    rewrite (findUnique_run collection_model id s Hup).
    cbn [rows collection_model]. rewrite Hfind.
    update_then_get collection_model (apply_collection_body b) Hup Hfind Hfree.
  - intros b st Hfind Hvalid Hfree.
    unfold updates_one_row, styles_update, styles_get, try_catch, bind.
    rewrite (findUnique_run style_model id s Hup).
    cbn [rows style_model]. rewrite Hfind.
    replace (match sb_fitType b with
             | Some fitType => negb (includes validFitTypes (toUpperCase fitType))
             | None => false
             end) with false
      by (destruct (sb_fitType b) as [f|]; [now rewrite (Hvalid f eq_refl)|reflexivity]).
    update_then_get style_model (apply_style_body b) Hup Hfind Hfree.
Qed.

(** X8.  Renaming a colour, brand, collection or style to the name of
    another stored row is answered 400 with the "name already exists" error
    of the router, and changes nothing.  The store is reachable; the fit type
    of the style, when given, is a valid one. *)
Theorem rename_to_taken_name_is_a_conflict (s : Store) (id name : string) :
  outage s = None ->
  (forall (b : ColorBody) (c other : Color),
     find (has_id color_model id) (colors s) = Some c ->
     cb_name b = Some name ->
     In other (colors s) -> color_id other <> id ->
     color_name other = trim name -> color_name c <> trim name ->
     colors_update id b s = (json_fail 400 "Color name already exists", s))
  /\ (forall (b : BrandBody) (x other : Brand),
        find (has_id brand_model id) (brands s) = Some x ->
        bb_name b = Some name ->
        In other (brands s) -> brand_id other <> id ->
        brand_name other = trim name -> brand_name x <> trim name ->
        brands_update id b s = (json_fail 400 "Brand name already exists", s))
  /\ (forall (b : CollectionBody) (c other : Collection),
        find (has_id collection_model id) (collections s) = Some c ->
        lb_name b = Some name ->
        In other (collections s) -> collection_id other <> id ->
        collection_name other = trim name -> collection_name c <> trim name ->
        collections_update id b s
        = (json_fail 400 "Collection name already exists", s))
  /\ (forall (b : StyleBody) (st other : Style),
        find (has_id style_model id) (styles s) = Some st ->
        sb_name b = Some name ->
        (forall fitType, sb_fitType b = Some fitType ->
           includes validFitTypes (toUpperCase fitType) = true) ->
        In other (styles s) -> style_id other <> id ->
        style_name other = trim name -> style_name st <> trim name ->
        styles_update id b s = (json_fail 400 "Style name already exists", s)).
Proof.
  intros Hup. repeat match goal with |- _ /\ _ => split end.
  - intros b c other Hfind Hname Hin Hother Hsame Hdiff.
    unfold colors_update, try_catch, bind.
    rewrite (findUnique_run color_model id s Hup).
    cbn [rows color_model]. rewrite Hfind.
    rewrite (update_taken color_model id _ s c other Hup Hfind Hin);
      [reflexivity| | |].
    + now apply String.eqb_neq.
    + cbn. rewrite Hname, Hsame. apply String.eqb_refl.
    + cbn. rewrite Hsame. now apply String.eqb_neq.
  - intros b x other Hfind Hname Hin Hother Hsame Hdiff.
    unfold brands_update, try_catch, bind.
    rewrite (findUnique_run brand_model id s Hup).
    cbn [rows brand_model]. rewrite Hfind.
    rewrite (update_taken brand_model id _ s x other Hup Hfind Hin);
      [reflexivity| | |].
    + now apply String.eqb_neq.
    + cbn. rewrite Hname, Hsame. apply String.eqb_refl.
    + cbn. rewrite Hsame. now apply String.eqb_neq.
  - intros b c other Hfind Hname Hin Hother Hsame Hdiff.
    unfold collections_update, try_catch, bind.
    rewrite (findUnique_run collection_model id s Hup).
    cbn [rows collection_model]. rewrite Hfind.
    rewrite (update_taken collection_model id _ s c other Hup Hfind Hin);
      [reflexivity| | |].
    + now apply String.eqb_neq.
    + cbn. rewrite Hname, Hsame. apply String.eqb_refl.
    + cbn. rewrite Hsame. now apply String.eqb_neq.
  - intros b st other Hfind Hname Hvalid Hin Hother Hsame Hdiff.
    unfold styles_update, try_catch, bind.
    rewrite (findUnique_run style_model id s Hup).
    cbn [rows style_model]. rewrite Hfind.
    replace (match sb_fitType b with
             | Some fitType => negb (includes validFitTypes (toUpperCase fitType))
             | None => false
             end) with false
      by (destruct (sb_fitType b) as [f|]; [now rewrite (Hvalid f eq_refl)|reflexivity]).
    rewrite (update_taken style_model id _ s st other Hup Hfind Hin);
      [reflexivity| | |].
    + now apply String.eqb_neq.
    + cbn. rewrite Hname, Hsame. apply String.eqb_refl.
    + cbn. rewrite Hsame. now apply String.eqb_neq.
Qed.

Lemma with_rows_same (s : Store) :
  with_products (products s) s = s
  /\ with_variants (variants s) s = s
  /\ with_colors (colors s) s = s
  /\ with_styles (styles s) s = s
  /\ with_collections (collections s) s = s
  /\ with_brands (brands s) s = s.
Proof. destruct s. repeat split. Qed.

(** An update handler on a stored row, with a body that changes nothing. *)
Ltac update_nothing T Hup Hfind Hsame Heta :=
  unfold try_catch, bind;
  rewrite (findUnique_run T _ _ Hup);
  cbn [rows T]; rewrite Hfind; rewrite ?update_data_plain;
  rewrite (update_plain T _ _ _ _ Hup Hfind);
  [ cbn [rows with_rows T ret];
    rewrite Hsame, (replace_row_same T _ _ _ Hfind), Heta;
    cbn [pp_collectionIds only_collections vp_collectionIds empty_variant_patch ret];
    rewrite ?(findUnique_run T _ _ Hup); cbn [rows T]; rewrite ?Hfind;
    reflexivity
  | intros; now rewrite Hsame
  | now rewrite Hsame ].

(** X9.  An update whose body has no member is answered 200 with the
    stored row and changes nothing, for each of the six routers; the row and
    its associations are not rewritten.  The store is reachable. *)
Theorem empty_update_changes_nothing (s : Store) (id : string) :
  outage s = None ->
  (forall p, find (has_id product_model id) (products s) = Some p ->
     products_update id (only_collections None) [] s
     = (json_done 200 (Some (OneProduct p)) "Product updated successfully", s))
  /\ (forall v, find (has_id variant_model id) (variants s) = Some v ->
        variants_update id empty_variant_patch [] s
        = (json_done 200 (Some (OneVariant v)) "Variant updated successfully", s))
  /\ (forall c, find (has_id color_model id) (colors s) = Some c ->
        colors_update id {| cb_name := None; cb_hexCode := None |} s
        = (json_done 200 (Some (OneColor c)) "Color updated successfully", s))
  /\ (forall st, find (has_id style_model id) (styles s) = Some st ->
        styles_update id {| sb_name := None; sb_fitType := None |} s
        = (json_done 200 (Some (OneStyle st)) "Style updated successfully", s))
  /\ (forall c, find (has_id collection_model id) (collections s) = Some c ->
        collections_update id {| lb_name := None; lb_description := None |} s
        = (json_done 200 (Some (OneCollection c)) "Collection updated successfully",
           s))
  /\ (forall x, find (has_id brand_model id) (brands s) = Some x ->
        brands_update id {| bb_name := None; bb_logo := None |} s
        = (json_done 200 (Some (OneBrand x)) "Brand updated successfully", s)).
Proof.
  intros Hup.
  destruct (with_rows_same s) as [Hp [Hv [Hc [Hst [Hl Hb]]]]].
  repeat match goal with |- _ /\ _ => split end.
  - intros p Hfind.
    assert (Hsame : apply_product_patch (only_collections None) p = p)
      by now destruct p.
    unfold products_update. update_nothing product_model Hup Hfind Hsame Hp.
  - intros v Hfind.
    assert (Hsame : apply_variant_patch empty_variant_patch v = v)
      by now destruct v.
    unfold variants_update. update_nothing variant_model Hup Hfind Hsame Hv.
  - intros c Hfind.
    assert (Hsame : apply_color_body {| cb_name := None; cb_hexCode := None |} c = c)
      by now destruct c.
    unfold colors_update. update_nothing color_model Hup Hfind Hsame Hc.
  - intros st Hfind.
    assert (Hsame : apply_style_body {| sb_name := None; sb_fitType := None |} st = st)
      by now destruct st.
    unfold styles_update. cbn [sb_fitType].
    update_nothing style_model Hup Hfind Hsame Hst.
  - intros c Hfind.
    assert (Hsame : apply_collection_body
                      {| lb_name := None; lb_description := None |} c = c)
      by now destruct c.
    unfold collections_update. update_nothing collection_model Hup Hfind Hsame Hl.
  - intros x Hfind.
    assert (Hsame : apply_brand_body {| bb_name := None; bb_logo := None |} x = x)
      by now destruct x.
    unfold brands_update. update_nothing brand_model Hup Hfind Hsame Hb.
Qed.

(** ** The calls that write *)

Lemma create_keeps {A : Type} (I : Store -> Prop) (T : Model A)
  (mk : string -> A) :
  (forall s, I s ->
     I (with_rows T (rows T s ++ [mk (fresh_id (next_id s))]) (bump_id s))) ->
  keeps I (create T mk).
Proof.
  intros H s Hs. unfold create, query.
  destruct (outage s); [exact Hs|].
  destruct (existsb _ _); [exact Hs|].
  destruct (negb _); [exact Hs|now apply H].
Qed.

Lemma update_keeps {A : Type} (I : Store -> Prop) (T : Model A) (id : string)
  (f : A -> A) :
  (forall s a, I s -> find (has_id T id) (rows T s) = Some a ->
     I (with_rows T (replace_row T id (f a) (rows T s)) s)) ->
  keeps I (update T id f).
Proof.
  intros H s Hs. unfold update, query.
  destruct (outage s); [exact Hs|].
  destruct (find (has_id T id) (rows T s)) eqn:Hfind; [|exact Hs].
  destruct (existsb _ _); [exact Hs|].
  destruct (negb _ && _); [exact Hs|now apply H].
Qed.

Lemma update_data_keeps {A J : Type} (I : Store -> Prop) (T : Model A)
  (Jn : Join J) (id : string) (f : A -> A) :
  (forall s a, I s -> find (has_id T id) (rows T s) = Some a ->
     I (with_rows T (replace_row T id (f a) (rows T s)) s)) ->
  keeps I (update_data T Jn id f []).
Proof. apply update_keeps. Qed.

Lemma update_stock_keeps (I : Store -> Prop) (id : string) (stock : Number) :
  (forall s l, I s -> I (with_variants l s)) ->
  keeps I (update_stock id stock).
Proof.
  intros H. unfold update_stock. destruct stock; try apply keeps_throw.
  apply update_keeps. intros s a Hs _. now apply H.
Qed.

Lemma delete_keeps {A : Type} (I : Store -> Prop) (T : Model A) (id : string) :
  (forall s, I s -> I (with_rows T (without_id T id (rows T s)) s)) ->
  keeps I (delete T id).
Proof.
  intros H s Hs. unfold delete, query.
  destruct (outage s); [exact Hs|].
  destruct (find (has_id T id) (rows T s)); [now apply H|exact Hs].
Qed.

Lemma insert_skipping_keeps {A : Type} (I : Store -> Prop) (T : Model A)
  (data : list (string -> A)) :
  (forall s mk, I s -> In mk data ->
     I (with_rows T (rows T s ++ [mk (fresh_id (next_id s))]) (bump_id s))) ->
  forall s, I s -> I (snd (insert_skipping T data s)).
Proof.
  induction data as [|mk rest IH]; intros H s Hs; cbn [insert_skipping].
  - exact Hs.
  - assert (Hrest : forall s mk', I s -> In mk' rest ->
              I (with_rows T (rows T s ++ [mk' (fresh_id (next_id s))]) (bump_id s))).
    { intros s1 mk' Hs1 Hin. apply H; [exact Hs1|now right]. }
    destruct (existsb _ _).
    + now apply IH.
    + specialize (IH Hrest _ (H s mk Hs (or_introl eq_refl))).
      destruct (insert_skipping T rest _) as [n s']. exact IH.
Qed.

Lemma createMany_skipDuplicates_keeps {A : Type} (I : Store -> Prop) (T : Model A)
  (data : list (string -> A)) :
  (forall s mk, I s -> In mk data ->
     I (with_rows T (rows T s ++ [mk (fresh_id (next_id s))]) (bump_id s))) ->
  keeps I (createMany_skipDuplicates T data).
Proof.
  intros H s Hs. unfold createMany_skipDuplicates, query.
  destruct (outage s); [exact Hs|].
  pose proof (insert_skipping_keeps I T data H s Hs) as Hrun.
  destruct (insert_skipping T data s) as [n s']. exact Hrun.
Qed.

Lemma createMany_keeps {J : Type} (I : Store -> Prop) (Jn : Join J)
  (data : list J) :
  (forall s l, I s -> I (with_links Jn l s)) ->
  keeps I (createMany Jn data).
Proof.
  intros H s Hs. unfold createMany, query.
  destruct (outage s); [exact Hs|].
  destruct (clashes _ _ _); [exact Hs|].
  destruct (negb _); [exact Hs|now apply H].
Qed.

Lemma deleteMany_keeps {J : Type} (I : Store -> Prop) (Jn : Join J) (id : string) :
  (forall s l, I s -> I (with_links Jn l s)) ->
  keeps I (deleteMany Jn id).
Proof.
  intros H s Hs. unfold deleteMany, query.
  destruct (outage s); [exact Hs|now apply H].
Qed.

Lemma create_with_collections_keeps {A J : Type} (I : Store -> Prop)
  (T : Model A) (Jn : Join J) (mk : string -> A) (join : string -> string -> J)
  (collectionIds : list string) :
  (forall s l l', I s -> I (with_links Jn l' (with_rows T l (bump_id s)))) ->
  keeps I (create_with_collections T Jn mk join collectionIds).
Proof.
  intros H s Hs. unfold create_with_collections, query.
  destruct (outage s); [exact Hs|].
  destruct (_ || _); [exact Hs|].
  destruct (negb _); [exact Hs|now apply H].
Qed.

Lemma delete_product_keeps (I : Store -> Prop) (id : string) :
  (forall s p v pc vc, I s ->
     I (with_products p
          (with_variants v
             (with_productCollections pc (with_variantCollections vc s))))) ->
  keeps I (delete_product id).
Proof.
  intros H s Hs. unfold delete_product, query.
  destruct (outage s); [exact Hs|].
  destruct (find _ _); [now apply H|exact Hs].
Qed.

Lemma delete_variant_keeps (I : Store -> Prop) (id : string) :
  (forall s v vc, I s -> I (with_variants v (with_variantCollections vc s))) ->
  keeps I (delete_variant id).
Proof.
  intros H s Hs. unfold delete_variant, query.
  destruct (outage s); [exact Hs|].
  destruct (find _ _); [now apply H|exact Hs].
Qed.

(** The store calls of the handlers that write, for an invariant that does
    not depend on what they write. *)
Ltac writing :=
  first
    [ apply create_keeps | apply update_keeps | apply update_data_keeps
    | apply update_stock_keeps
    | apply delete_keeps | apply createMany_skipDuplicates_keeps
    | apply createMany_keeps | apply deleteMany_keeps
    | apply create_with_collections_keeps
    | apply delete_product_keeps | apply delete_variant_keeps ];
  intros; assumption.

(** Walks through a handler whose store calls keep an invariant, [written]
    being the tactic for the calls that write. *)
Ltac walk_with written :=
  repeat first
    [ apply keeps_bind;
      [try first [apply keeps_reads; reading | written] | intros]
    | apply keeps_ret
    | apply keeps_throw
    | solve [written]
    | match goal with
      | |- keeps _ (match ?x with _ => _ end) => destruct x
      end ].

Ltac walk_keeps := walk_with writing.

(** The hypothesis that the body has no member beyond the columns, used. *)
Ltac plainly H :=
  cbn [columns_only] in H; try subst.

(** X10.  The handler of a request changes no table but those it has a
    writing call on: a request to the colour, style, collection or brand
    router changes at most the table of that router, a request to the
    product or variant router changes none of those four, and no request
    changes the product types.  The body of an update of a product or a
    variant has no member beyond the columns: what the store does with
    another member, a nested write on a relation for one, is not
    determined by the handlers. *)
Theorem requests_write_their_tables_only (env : Env) (r : Request) (t : Table)
  (s : Store) :
  columns_only r -> ~ In t (written r) -> same_table t s (snd (app env r s)).
Proof.
  intros Hplain Hnot.
  destruct t; unfold same_table;
    (destruct r; plainly Hplain; cbn [app snd]; try reflexivity;
     try (exfalso; apply Hnot; cbn; auto 10; fail);
     match goal with
     | |- ?f (snd _) = ?f s =>
         apply (try_catch_keeps (fun s' => f s' = f s))
     end;
     try reflexivity; try unfold list_page; walk_keeps).
Qed.

(** ** The fit types of the stored styles *)

Lemma Forall_replace_row {A : Type} (P : A -> Prop) (T : Model A) (id : string)
  (a' : A) (l : list A) :
  Forall P l -> P a' -> Forall P (replace_row T id a' l).
Proof.
  intros Hl Ha. induction Hl as [|x l Hx Hl IH]; simpl; [constructor|].
  destruct (has_id T id x); constructor; assumption.
Qed.

Lemma Forall_kept {A : Type} (P : A -> Prop) (f : A -> bool) (l : list A) :
  Forall P l -> Forall P (filter f l).
Proof.
  intros Hl. induction Hl as [|x l Hx Hl IH]; simpl; [constructor|].
  destruct (f x); [constructor|]; assumption.
Qed.

Lemma styles_create_keeps_fitTypes (b : StyleBody) :
  keeps fitTypes_valid
    (if negb (given (sb_name b))
     then ret (json_fail 400 "Style name is required")
     else if negb (given (sb_fitType b))
     then ret (json_fail 400 "Fit type is required")
     else if negb (includes validFitTypes
                     (toUpperCase (or_string (sb_fitType b) "")))
     then ret (json_fail 400
            "Invalid fit type. Must be one of: SKINNY, RELAXED, OVERSIZED, CLASSIC")
     else
       style <- create style_model
         (fun id =>
            {| style_id := id;
               style_name := trim (or_string (sb_name b) "");
               style_fitType := toUpperCase (or_string (sb_fitType b) "") |}) ;;
       ret (json_done 201 (Some (OneStyle style)) "Style created successfully")).
Proof.
  destruct (negb (given (sb_name b))); [apply keeps_ret|].
  destruct (negb (given (sb_fitType b))); [apply keeps_ret|].
  destruct (negb (includes validFitTypes _)) eqn:Hvalid; [apply keeps_ret|].
  apply negb_false_iff, includes_In in Hvalid.
  apply keeps_bind; [|intros; apply keeps_ret].
  apply create_keeps. intros s Hs. unfold fitTypes_valid.
  cbn [rows with_rows style_model styles with_styles].
  apply Forall_app. split; [exact Hs|].
  constructor; [exact Hvalid|constructor].
Qed.

Lemma styles_update_keeps_fitTypes (id : string) (b : StyleBody) :
  keeps fitTypes_valid
    (if match sb_fitType b with
        | Some fitType => negb (includes validFitTypes (toUpperCase fitType))
        | None => false
        end
     then ret (json_fail 400
            "Invalid fit type. Must be one of: SKINNY, RELAXED, OVERSIZED, CLASSIC")
     else
       style <- update style_model id (apply_style_body b) ;;
       ret (json_done 200 (Some (OneStyle style)) "Style updated successfully")).
Proof.
  destruct (match sb_fitType b with Some _ => _ | None => _ end) eqn:Hvalid;
    [apply keeps_ret|].
  apply keeps_bind; [|intros; apply keeps_ret].
  apply update_keeps. intros s st Hs Hfind. unfold fitTypes_valid.
  cbn [rows with_rows style_model styles with_styles].
  apply Forall_replace_row; [exact Hs|].
  cbn [apply_style_body style_fitType].
  destruct (sb_fitType b) as [fitType|]; cbn [option_map patched].
  - apply includes_In. now apply negb_false_iff in Hvalid.
  - apply find_some in Hfind. destruct Hfind as [Hin _].
    exact (proj1 (Forall_forall _ _) Hs st Hin).
Qed.

(** X11.  Every request keeps the fit types of the stored styles among
    SKINNY, RELAXED, OVERSIZED and CLASSIC: the three handlers that write a
    fit type (create, update, bulk create) check it first, and no other
    handler writes one.  The body of an update of a product or a variant
    has no member beyond the columns. *)
Theorem fit_types_stay_valid (env : Env) (r : Request) (s : Store) :
  columns_only r -> fitTypes_valid s -> fitTypes_valid (snd (app env r s)).
Proof.
  intros Hplain Hs.
  destruct r; plainly Hplain; cbn [app snd]; try exact Hs;
    apply (try_catch_keeps fitTypes_valid); try exact Hs;
    try (unfold list_page; walk_keeps; fail);
    try (walk_keeps; fail).
  - apply styles_create_keeps_fitTypes.
  - apply keeps_bind; [apply keeps_reads; reading|].
    intros [st|]; [apply styles_update_keeps_fitTypes|apply keeps_ret].
  - walk_keeps. apply delete_keeps. intros s1 Hs1. now apply Forall_kept.
  - destruct l as [[|e l]|]; try apply keeps_ret.
    destruct (validStyles (e :: l)) as [|v vs] eqn:Hkept; [apply keeps_ret|].
    apply keeps_bind; [|intros; apply keeps_ret].
    assert (Hvalid : forall x, In x (v :: vs) ->
              In (toUpperCase (or_string (sb_fitType x) "")) validFitTypes).
    { intros x Hx. rewrite <- Hkept in Hx.
      apply filter_In in Hx. destruct Hx as [_ Hx].
      apply andb_prop in Hx. destruct Hx as [_ Hx]. now apply includes_In. }
    apply createMany_skipDuplicates_keeps. intros s1 mk Hs1 Hmk.
    apply in_map_iff in Hmk. destruct Hmk as [x [<- Hx]].
    unfold fitTypes_valid. cbn [rows with_rows style_model styles with_styles].
    apply Forall_app. split; [exact Hs1|].
    constructor; [exact (Hvalid x Hx)|constructor].
Qed.

(** ** The guards of the delete handlers *)

Lemma stored_without_id {A : Type} (T : Model A) (id ref : string) (l : list A) :
  stored (pk T) l ref = true -> ref <> id ->
  stored (pk T) (without_id T id l) ref = true.
Proof.
  unfold stored, without_id. intros Hin Hne.
  apply existsb_exists in Hin. destruct Hin as [a [Ha Heq]].
  apply existsb_exists. exists a. split; [|exact Heq].
  apply filter_In. split; [exact Ha|].
  apply String.eqb_eq in Heq. unfold has_id. rewrite Heq.
  apply negb_true_iff. now apply String.eqb_neq.
Qed.

Lemma stored_opt_without_id {A : Type} (T : Model A) (id : string)
  (ref : option string) (l : list A) :
  stored_opt (pk T) l ref = true -> field_is ref (Some id) = false ->
  stored_opt (pk T) (without_id T id l) ref = true.
Proof.
  destruct ref as [c|]; cbn [stored_opt field_is]; [|reflexivity].
  intros Hin Hne. apply stored_without_id; [exact Hin|].
  now apply String.eqb_neq.
Qed.

Lemma unused {A : Type} (f : A -> bool) (l : list A) :
  (0 <? Z.of_nat (List.length (filter f l))) = false ->
  forall x, In x l -> f x = false.
Proof.
  rewrite count_positive. intros Hnone x Hx.
  apply not_true_is_false. intros Hfx.
  assert (Hex : existsb f l = true) by (apply existsb_exists; eauto).
  congruence.
Qed.

(** The references of the join rows, which a guarded deletion leaves
    alone. *)
Ltac joins_kept Hpc Hvc :=
  match goal with
  | H : In ?r _ |- _ =>
      first [ exact (proj1 (Hpc r H)) | exact (proj2 (Hpc r H))
            | exact (proj1 (Hvc r H)) | exact (proj2 (Hvc r H)) ]
  end.

(** X12.  The four guarded deletions keep the references of the store
    intact: when every variant, product and join row refers to stored rows
    before a colour, style, brand or collection is asked to be deleted, they
    still do afterwards, whatever the answer is. *)
Theorem guarded_deletes_keep_references (id : string) (s : Store) :
  references_intact s ->
  references_intact (snd (colors_delete id s))
  /\ references_intact (snd (styles_delete id s))
  /\ references_intact (snd (brands_delete id s))
  /\ references_intact (snd (collections_delete id s)).
Proof.
  intros Hs. pose proof Hs as [Hv [Hp [Hpc Hvc]]].
  repeat match goal with |- _ /\ _ => split end.
  - unfold colors_delete, try_catch, bind, findUniqueCounting, delete, query, ret.
    destruct (outage s) eqn:Hup; [exact Hs|]. cbn [rows color_model].
    destruct (find (has_id color_model id) (colors s)) eqn:Hfind; [|exact Hs].
    cbn [option_map]. unfold color_uses.
    destruct (0 <? _) eqn:Hused; [exact Hs|]. rewrite Hup, Hfind. cbn [snd].
    pose proof (unused _ _ Hused) as Hfree.
    repeat split; try joins_kept Hpc Hvc; try exact Hp.
    intros v Hin. specialize (Hv v Hin). cbn [references_ok variant_model] in Hv |- *.
    apply andb_prop in Hv. destruct Hv as [Hv Hstyle].
    apply andb_prop in Hv. destruct Hv as [Hproduct Hcolor].
    repeat (apply andb_true_intro; split);
      [exact Hproduct| |exact Hstyle].
    exact (stored_opt_without_id color_model id _ _ Hcolor (Hfree v Hin)).
  - unfold styles_delete, try_catch, bind, findUniqueCounting, delete, query, ret.
    destruct (outage s) eqn:Hup; [exact Hs|]. cbn [rows style_model].
    destruct (find (has_id style_model id) (styles s)) eqn:Hfind; [|exact Hs].
    cbn [option_map]. unfold style_uses.
    destruct (0 <? _) eqn:Hused; [exact Hs|]. rewrite Hup, Hfind. cbn [snd].
    pose proof (unused _ _ Hused) as Hfree.
    repeat split; try joins_kept Hpc Hvc; try exact Hp.
    intros v Hin. specialize (Hv v Hin). cbn [references_ok variant_model] in Hv |- *.
    apply andb_prop in Hv. destruct Hv as [Hv Hstyle].
    apply andb_true_intro; split; [exact Hv|].
    exact (stored_opt_without_id style_model id _ _ Hstyle (Hfree v Hin)).
  - unfold brands_delete, try_catch, bind, findUniqueCounting, delete, query, ret.
    destruct (outage s) eqn:Hup; [exact Hs|]. cbn [rows brand_model].
    destruct (find (has_id brand_model id) (brands s)) eqn:Hfind; [|exact Hs].
    cbn [option_map]. unfold brand_uses.
    destruct (0 <? _) eqn:Hused; [exact Hs|]. rewrite Hup, Hfind. cbn [snd].
    pose proof (unused _ _ Hused) as Hfree.
    repeat split; try joins_kept Hpc Hvc; try exact Hv.
    intros p Hin. specialize (Hp p Hin). cbn [references_ok product_model] in Hp |- *.
    apply andb_prop in Hp. destruct Hp as [Hbrand Htype].
    apply andb_true_intro; split; [|exact Htype].
    exact (stored_opt_without_id brand_model id _ _ Hbrand (Hfree p Hin)).
  - unfold collections_delete, try_catch, bind, findUniqueCounting, delete,
      query, ret.
    destruct (outage s) eqn:Hup; [exact Hs|]. cbn [rows collection_model].
    destruct (find (has_id collection_model id) (collections s)) eqn:Hfind;
      [|exact Hs].
    cbn [option_map]. unfold collection_uses.
    match goal with
    | |- context [(0 <? ?n) || (0 <? ?m)] =>
        destruct (0 <? n) eqn:Hproducts; [exact Hs|];
        destruct (0 <? m) eqn:Hvariants; [exact Hs|]
    end.
    cbn [orb]. rewrite Hup, Hfind. cbn [snd].
    pose proof (unused _ _ Hproducts) as Hfree.
    pose proof (unused _ _ Hvariants) as Hfree'.
    repeat split; try exact Hv; try exact Hp; try joins_kept Hpc Hvc.
    + apply (stored_without_id collection_model); [joins_kept Hpc Hvc|].
      apply String.eqb_neq. now apply Hfree.
    + apply (stored_without_id collection_model); [joins_kept Hpc Hvc|].
      apply String.eqb_neq. now apply Hfree'.
Qed.

(** ** Deleting a product or a variant *)

Lemma find_without_other {A : Type} (T : Model A) (id id' : string) (l : list A) :
  id' <> id ->
  find (has_id T id') (without_id T id l) = find (has_id T id') l.
Proof.
  intros Hne. induction l as [|x l IH]; simpl; [reflexivity|].
  destruct (has_id T id x) eqn:Hx; simpl.
  - now rewrite (has_id_other T id id' x Hx Hne).
  - now rewrite IH.
Qed.

(** X13.  Deleting a stored product or variant is answered 200, whatever
    refers to the row; a lookup of the identifier then answers 404, and the
    lookup of every other product, or variant, answers as it would have
    before if it is still stored.  The store is reachable. *)
Theorem deleted_row_is_gone (id : string) (s : Store) :
  outage s = None ->
  (forall p, find (has_id product_model id) (products s) = Some p ->
     let s' := snd (products_delete id s) in
     fst (products_delete id s) = json_done 200 None "Product deleted successfully"
     /\ products_get id s' = (json_fail 404 "Product not found", s')
     /\ products s' = without_id product_model id (products s)
     /\ forall id', id' <> id ->
          fst (products_get id' s') = fst (products_get id' s))
  /\ (forall v, find (has_id variant_model id) (variants s) = Some v ->
        let s' := snd (variants_delete id s) in
        fst (variants_delete id s) = json_done 200 None "Variant deleted successfully"
        /\ variants_get id s' = (json_fail 404 "Variant not found", s')
        /\ variants s' = without_id variant_model id (variants s)
        /\ forall id', id' <> id ->
             fst (variants_get id' s') = fst (variants_get id' s)).
Proof.
  intros Hup. split.
  - intros p Hfind s'. subst s'.
    assert (Hrun : exists s', products_delete id s
                   = (json_done 200 None "Product deleted successfully", s')
                   /\ products s' = without_id product_model id (products s)
                   /\ outage s' = None).
    { unfold products_delete, try_catch, bind, findUnique, delete_product, query.
      rewrite Hup. cbn [rows product_model]. rewrite Hfind, Hup, Hfind.
      eexists. split; [reflexivity|]. split; [reflexivity|exact Hup]. }
    destruct Hrun as [s' [Hrun [Hrows Hup']]]. rewrite Hrun. cbn [fst snd].
    unfold products_get, try_catch, bind, findUnique, query, ret.
    rewrite Hup, Hup'. cbn [rows product_model]. rewrite Hrows.
    repeat split.
    + now rewrite (find_without_id product_model).
    + intros id' Hne. rewrite (find_without_other product_model id id' _ Hne).
      now destruct (find (has_id product_model id') (products s)).
  - intros v Hfind s'. subst s'.
    assert (Hrun : exists s', variants_delete id s
                   = (json_done 200 None "Variant deleted successfully", s')
                   /\ variants s' = without_id variant_model id (variants s)
                   /\ outage s' = None).
    { unfold variants_delete, try_catch, bind, findUnique, delete_variant, query.
      rewrite Hup. cbn [rows variant_model]. rewrite Hfind, Hup, Hfind.
      eexists. split; [reflexivity|]. split; [reflexivity|exact Hup]. }
    destruct Hrun as [s' [Hrun [Hrows Hup']]]. rewrite Hrun. cbn [fst snd].
    unfold variants_get, try_catch, bind, findUnique, query, ret.
    rewrite Hup, Hup'. cbn [rows variant_model]. rewrite Hrows.
    repeat split.
    + now rewrite (find_without_id variant_model).
    + intros id' Hne. rewrite (find_without_other variant_model id id' _ Hne).
      now destruct (find (has_id variant_model id') (variants s)).
Qed.

(** ** Posting a batch again *)

Lemma insert_skipping_all_taken {A : Type} (T : Model A)
  (data : list (string -> A)) (s : Store) :
  (forall mk, In mk data ->
     existsb (same_unique T (mk (fresh_id (next_id s)))) (rows T s) = true) ->
  insert_skipping T data s = (0, s).
Proof.
  induction data as [|mk rest IH]; intros H; cbn [insert_skipping]; [reflexivity|].
  rewrite (H mk (or_introl eq_refl)). apply IH.
  intros mk' Hin. apply H. now right.
Qed.

(** A bulk insert into a table whose unique column is not the identifier,
    run a second time on the store that the first run left. *)
Lemma insert_skipping_twice {A : Type} (T : Model A) (data : list (string -> A))
  (s : Store) :
  (forall l s, rows T (with_rows T l s) = l) ->
  (forall s, rows T (bump_id s) = rows T s) ->
  (forall a, same_unique T a a = true) ->
  (forall mk, In mk data ->
     forall id id' a, same_unique T (mk id) a = same_unique T (mk id') a) ->
  insert_skipping T data (snd (insert_skipping T data s))
  = (0, snd (insert_skipping T data s)).
Proof.
  intros Hrows Hbump Hrefl Hid.
  destruct (insert_skipping_spec T Hrows Hbump Hrefl data s Hid)
    as [added [_ Hall]].
  apply insert_skipping_all_taken. intros mk Hmk.
  destruct (Hall mk Hmk) as [a [Ha Hsame]].
  apply existsb_exists. exists a. split; [exact Ha|apply Hsame].
Qed.

(** X14.  Posting a batch of colours or styles a second time inserts
    nothing: the second answer is 201 with a count of 0 and the store is as
    the first request left it.  The batch has an entry with the required
    fields and the store is reachable. *)
Theorem bulk_twice_inserts_nothing (s : Store) :
  outage s = None ->
  (forall l : list ColorBody,
     validColors l <> [] ->
     let s1 := snd (colors_bulk (Some l) s) in
     colors_bulk (Some l) s1
     = (json_done 201 (Some (Count 0)) "0 colors created successfully", s1))
  /\ (forall l : list StyleBody,
        validStyles l <> [] ->
        let s1 := snd (styles_bulk (Some l) s) in
        styles_bulk (Some l) s1
        = (json_done 201 (Some (Count 0)) "0 styles created successfully", s1)).
Proof.
  intros Hup. split; intros l Hvalid s1; subst s1.
  - destruct l as [|x l]; [now contradiction Hvalid|].
    pose proof (insert_skipping_twice color_model
                  (map new_color (validColors (x :: l))) s
                  (fun _ _ => eq_refl) (fun _ => eq_refl)
                  (fun a => String.eqb_refl (color_name a))) as Htwice.
    pose proof (insert_skipping_keeps (fun s' => outage s' = None) color_model
                  (map new_color (validColors (x :: l)))
                  (fun _ _ H _ => H) s Hup) as Hup'.
    unfold colors_bulk, try_catch, bind, createMany_skipDuplicates, query, ret
      in *.
    destruct (validColors (x :: l)) as [|v vs]; [now contradiction Hvalid|].
    rewrite Hup.
    destruct (insert_skipping color_model (map new_color (v :: vs)) s) as [n s'].
    cbn [fst snd] in *. rewrite Hup', Htwice; [reflexivity|].
    intros mk Hmk id id' a. apply in_map_iff in Hmk.
    destruct Hmk as [c [<- _]]. reflexivity.
  - destruct l as [|x l]; [now contradiction Hvalid|].
    pose proof (insert_skipping_twice style_model
                  (map new_style (validStyles (x :: l))) s
                  (fun _ _ => eq_refl) (fun _ => eq_refl)
                  (fun a => String.eqb_refl (style_name a))) as Htwice.
    pose proof (insert_skipping_keeps (fun s' => outage s' = None) style_model
                  (map new_style (validStyles (x :: l)))
                  (fun _ _ H _ => H) s Hup) as Hup'.
    unfold styles_bulk, try_catch, bind, createMany_skipDuplicates, query, ret
      in *.
    destruct (validStyles (x :: l)) as [|v vs]; [now contradiction Hvalid|].
    rewrite Hup.
    destruct (insert_skipping style_model (map new_style (v :: vs)) s) as [n s'].
    cbn [fst snd] in *. rewrite Hup', Htwice; [reflexivity|].
    intros mk Hmk id id' a. apply in_map_iff in Hmk.
    destruct Hmk as [c [<- _]]. reflexivity.
Qed.

(** ** Walking through the pages *)

Lemma firstn_plus {A : Type} (a b : nat) (l : list A) :
  firstn (a + b) l = (firstn a l ++ firstn b (skipn a l))%list.
Proof.
  revert l. induction a as [|a IH]; intros l; [reflexivity|].
  destruct l as [|x l]; cbn [Nat.add firstn skipn].
  - now rewrite firstn_nil.
  - cbn [List.app]. f_equal. apply IH.
Qed.

Lemma concat_pages {A : Type} (limit : nat) (n : nat) (l : list A) :
  List.concat (map (fun i => firstn limit (skipn (i * limit) l)) (seq 0 n))
  = firstn (n * limit) l.
Proof.
  induction n as [|n IH]; [reflexivity|].
  rewrite seq_S, map_app, concat_app, IH. cbn [map List.concat Nat.add].
  rewrite app_nil_r.
  replace (S n * limit)%nat with (n * limit + limit)%nat by lia.
  now rewrite firstn_plus.
Qed.

Lemma page_rows_nat {A : Type} (i : nat) (limit : Z) (l : list A) :
  0 <= limit ->
  page_rows (Z.of_nat (S i)) limit l
  = firstn (Z.to_nat limit) (skipn (i * Z.to_nat limit) l).
Proof.
  intros Hl. unfold page_rows. do 2 f_equal. nia.
Qed.

(** The repeated block walks the pages. *)
Lemma list_page_walks {A : Type} (T : Model A) (where_ : Query -> A -> bool)
  (orderBy : Query -> string * string) (wrap : list A -> Payload)
  (default_limit : Z) (failed : string) :
  (forall q page limit, where_ (at_page q page limit) = where_ q) ->
  (forall q page limit, orderBy (at_page q page limit) = orderBy q) ->
  walks_pages T where_ orderBy wrap
    (fun q =>
       try_catch
         (list_page T (where_ q) (orderBy q) wrap
            (or_default (q_page q) (Num 1))
            (or_default (q_limit q) (Num default_limit)))
         (json_unexpected failed)).
Proof.
  intros Hwhere Horder q s limit n matching Hup Hl Hmatching.
  exists (map (fun i => firstn (Z.to_nat limit) (skipn (i * Z.to_nat limit) matching))
            (seq 0 n)).
  split; [now rewrite length_map, length_seq|]. split; [|split].
  - intros i Hi.
    destruct (list_page_run T (where_ (at_page q (Z.of_nat (S i)) limit))
                (orderBy (at_page q (Z.of_nat (S i)) limit)) wrap
                (or_default (q_page (at_page q (Z.of_nat (S i)) limit)) (Num 1))
                (or_default (q_limit (at_page q (Z.of_nat (S i)) limit))
                   (Num default_limit))
                failed s (Z.of_nat (S i)) limit matching Hup)
      as [[_ [pages [items [_ [_ [Hdata [Hitems _]]]]]]] _].
    + apply parseInt_decimal.
    + lia.
    + apply parseInt_decimal.
    + exact Hl.
    + now rewrite Hwhere, Horder.
    + rewrite Hdata, Hitems. do 2 f_equal.
      rewrite (page_rows_nat i limit matching) by lia.
      rewrite nth_indep with (d' := firstn (Z.to_nat limit)
                                      (skipn (0 * Z.to_nat limit) matching))
        by now rewrite length_map, length_seq.
      rewrite (map_nth (fun i => firstn (Z.to_nat limit)
                                   (skipn (i * Z.to_nat limit) matching))).
      now rewrite seq_nth.
  - apply concat_pages.
  - intros Hall. rewrite concat_pages. apply firstn_all2. nia.
Qed.

(** X15.  Each of the six list endpoints, asked for pages 1, 2, ... [n]
    with [page] and [limit] written as decimal numerals: the pages put end
    to end are the first [n * limit] rows that pass the filter, in the order
    asked for; once [n * limit] reaches the number of those rows, every one
    of them has been returned exactly once.  The store is reachable and
    does not change between the requests. *)
Theorem pages_cover_the_rows :
  walks_pages product_model (fun q => product_matches (products_where q))
    (fun q => (or_string (q_sortBy q) "createdAt", or_string (q_sortOrder q) "desc"))
    Products products_list
  /\ walks_pages variant_model (fun q => variant_matches (variants_where q))
       (fun q => (or_string (q_sortBy q) "createdAt", or_string (q_sortOrder q) "desc"))
       Variants variants_list
  /\ walks_pages color_model (fun q => name_contains color_name (q_search q))
       (fun _ => ("name", "asc")) Colors colors_list
  /\ walks_pages style_model
       (fun q st =>
          name_contains style_name (q_search q) st
          && field_is (Some (style_fitType st))
               (option_map toUpperCase (or_null (q_fitType q))))
       (fun _ => ("name", "asc")) Styles styles_list
  /\ walks_pages collection_model
       (fun q c =>
          match or_null (q_search q) with
          | Some needle =>
              contains_insensitive (collection_name c) needle
              || contains_opt (collection_description c) needle
          | None => true
          end)
       (fun _ => ("name", "asc")) Collections collections_list
  /\ walks_pages brand_model (fun q => name_contains brand_name (q_search q))
       (fun _ => ("name", "asc")) Brands brands_list.
Proof.
  repeat match goal with |- _ /\ _ => split end.
  - apply (list_page_walks _ _ _ _ 20 "Failed to fetch products"); reflexivity.
  - apply (list_page_walks _ _ _ _ 20 "Failed to fetch variants"); reflexivity.
  - apply (list_page_walks _ _ _ _ 50 "Failed to fetch colors"); reflexivity.
  - apply (list_page_walks _ _ _ _ 50 "Failed to fetch styles"); reflexivity.
  - apply (list_page_walks _ _ _ _ 50 "Failed to fetch collections"); reflexivity.
  - apply (list_page_walks _ _ _ _ 50 "Failed to fetch brands"); reflexivity.
Qed.

(** ** Stock requests one after the other *)

(** One stock request on a stored variant, and the lookup after it. *)
Lemma updateStock_then_find (id operation : string) (n m : Z) (s : Store)
  (v : ProductVariant) :
  outage s = None ->
  find (has_id variant_model id) (variants s) = Some v ->
  newStock operation (variant_stock v) (Num n) = Int m ->
  let s' := snd (variants_updateStock id (stock_request operation n) s) in
  outage s' = None
  /\ find (has_id variant_model id) (variants s') = Some (set_stock m v).
Proof.
  intros Hup Hfind Hnew s'. subst s'.
  rewrite (updateStock_stored id (stock_request operation n) s (Num n) v m
             Hup eq_refl Hfind Hnew).
  cbn [snd outage variants with_variants]. split; [exact Hup|].
  apply find_replace_row with (a := v); [exact Hfind|].
  exact (proj1 (find_has_id variant_model id v _ Hfind)).
Qed.

(** X16.  Two stock requests in a row on a stored variant.  Adding [n] and
    then subtracting [n] leaves the larger of zero and the old stock: the
    old stock itself unless it was negative.  Subtracting [n] and then
    adding [n] leaves the larger of [n] and the old stock: the floor at zero
    of the subtraction is not undone when [n] exceeds the old stock.  The
    store is reachable; [n], the old stock, their sum and their difference
    are safe integers. *)
Theorem add_and_subtract_compose (id : string) (s : Store) (v : ProductVariant)
  (n : Z) :
  outage s = None ->
  find (has_id variant_model id) (variants s) = Some v ->
  safe n ->
  safe (variant_stock v) ->
  safe (variant_stock v + n) ->
  safe (variant_stock v - n) ->
  let added := snd (variants_updateStock id (stock_request "add" n) s) in
  let taken := snd (variants_updateStock id (stock_request "subtract" n) s) in
  (exists v',
     find (has_id variant_model id)
       (variants (snd (variants_updateStock id (stock_request "subtract" n) added)))
     = Some v'
     /\ restocked (Z.max 0 (variant_stock v)) v v')
  /\ (exists v',
        find (has_id variant_model id)
          (variants (snd (variants_updateStock id (stock_request "add" n) taken)))
        = Some v'
        /\ restocked (Z.max n (variant_stock v)) v v').
Proof.
  intros Hup Hfind Hn Hold Hsum Hdiff added taken. subst added taken.
  pose proof (parseInt_safe n Hn) as Hparse. split.
  - destruct (updateStock_then_find id "add" n (variant_stock v + n) s v
                Hup Hfind (newStock_add _ _ _ Hparse)) as [Hup1 Hfind1].
    destruct (updateStock_then_find id "subtract" n (Z.max 0 (variant_stock v))
                _ _ Hup1 Hfind1) as [_ Hfind2].
    + rewrite (newStock_subtract _ n _ Hparse). cbn [set_stock variant_stock].
      f_equal. lia.
    + eexists. split; [exact Hfind2|]. unfold restocked. cbn. repeat split.
  - destruct (updateStock_then_find id "subtract" n (Z.max 0 (variant_stock v - n))
                s v Hup Hfind (newStock_subtract _ _ _ Hparse)) as [Hup1 Hfind1].
    destruct (updateStock_then_find id "add" n (Z.max n (variant_stock v))
                _ _ Hup1 Hfind1) as [_ Hfind2].
    + rewrite (newStock_add _ n _ Hparse). cbn [set_stock variant_stock].
      f_equal. lia.
    + eexists. split; [exact Hfind2|]. unfold restocked. cbn. repeat split.
Qed.

(** ** The variants of a product *)

(** X17.  [GET /variants/product/:productId] answers the stored variants of
    that product, and of the colour and style asked for when the query names
    them, and no other variant; the store is not changed.  The store is
    reachable and its ordering returns the rows it is given. *)
Theorem variants_of_a_product (productId : string) (q : Query) (s : Store)
  (found : list ProductVariant) :
  outage s = None ->
  let where_ := variant_matches
                  {| vw_OR := None; vw_productId := Some productId;
                     vw_colorId := or_null (q_colorId q);
                     vw_styleId := or_null (q_styleId q); vw_stock := None |} in
  order_rows ProductVariant "variantName" "asc" (filter where_ (variants s))
  = Some found ->
  (forall v, In v found <-> In v (filter where_ (variants s))) ->
  variants_byProduct productId q s = (json_data (Some (Variants found)), s)
  /\ forall v,
       In v found
       <-> In v (variants s)
           /\ variant_productId v = productId
           /\ field_is (variant_colorId v) (or_null (q_colorId q)) = true
           /\ field_is (variant_styleId v) (or_null (q_styleId q)) = true.
Proof.
  intros Hup where_ Horder Hsame. split.
  - unfold variants_byProduct, try_catch, bind, findMany, query, ordered, ret.
    rewrite Hup. cbn [rows variant_model]. fold where_. now rewrite Horder.
  - intros v. rewrite Hsame, filter_In. subst where_.
    unfold variant_matches.
    cbn [vw_OR vw_productId vw_colorId vw_styleId vw_stock field_is].
    rewrite andb_true_r, !andb_true_iff, String.eqb_eq. cbn [andb].
    split.
    + intros [Hin [[[_ Hp] Hc] Hst]]. auto.
    + intros [Hin [Hp [Hc Hst]]]. auto.
Qed.

(** ** Creating a product or a variant *)

(** X18.  [POST /variants] and [POST /products] test the required members
    of the body before any store call: when one of them is missing or empty
    the answer is 400 and the store is not consulted, whether it can be
    reached or not.  [POST /variants] then looks the product up: when the
    required members are there and no product has the identifier, the answer
    is 404 and nothing is stored, whatever the other members are. *)
Theorem required_members_come_first (s : Store) :
  (forall b : VariantBody,
     given (vb_variantId b) && given (vb_sku b) && given (vb_fullVariantName b)
     && given (vb_variantName b) && given (vb_productId b) = false ->
     variants_create b s
     = (json_fail 400
          "VariantId, SKU, fullVariantName, variantName, and productId are required",
        s))
  /\ (forall b : ProductBody,
        given (pb_name b) && given (pb_slug b) && given (pb_sku b)
        && match pb_price b with Some price => price_truthy price | None => false end
        = false ->
        products_create b s
        = (json_fail 400 "Name, slug, SKU, and price are required", s))
  /\ (forall (b : VariantBody) (productId : string),
        outage s = None ->
        given (vb_variantId b) && given (vb_sku b) && given (vb_fullVariantName b)
        && given (vb_variantName b) = true ->
        vb_productId b = Some productId -> truthy productId = true ->
        find (has_id product_model productId) (products s) = None ->
        variants_create b s = (json_fail 404 "Product not found", s)).
Proof.
  repeat match goal with |- _ /\ _ => split end.
  - intros b Hmissing. unfold variants_create, try_catch, given in *.
    destruct (vb_variantId b) as [variantId|]; [|reflexivity].
    destruct (vb_sku b) as [sku|]; [|reflexivity].
    destruct (vb_fullVariantName b) as [fullVariantName|]; [|reflexivity].
    destruct (vb_variantName b) as [variantName|]; [|reflexivity].
    destruct (vb_productId b) as [productId|]; [|reflexivity].
    now rewrite Hmissing.
  - intros b Hmissing. unfold products_create, try_catch, given in *.
    destruct (pb_name b) as [name|]; [|reflexivity].
    destruct (pb_slug b) as [slug|]; [|reflexivity].
    destruct (pb_sku b) as [sku|]; [|reflexivity].
    destruct (pb_price b) as [price|]; [|reflexivity].
    now rewrite Hmissing.
  - intros b productId Hup Hgiven Hproduct Htruthy Hfind.
    unfold variants_create, try_catch, bind, given in *.
    destruct (vb_variantId b) as [variantId|]; [|discriminate Hgiven].
    destruct (vb_sku b) as [sku|];
      [|rewrite andb_false_r in Hgiven; discriminate Hgiven].
    destruct (vb_fullVariantName b) as [fullVariantName|];
      [|rewrite andb_false_r in Hgiven; discriminate Hgiven].
    destruct (vb_variantName b) as [variantName|];
      [|rewrite andb_false_r in Hgiven; discriminate Hgiven].
    rewrite Hproduct, Hgiven, Htruthy. cbn [andb].
    rewrite (findUnique_run product_model productId s Hup).
    cbn [rows product_model]. now rewrite Hfind.
Qed.

(** ** Pages of zero rows *)



(** ** An update that fails half way *)

(** X20.  The update of a product or a variant writes the row, deletes its
    associations and inserts the supplied ones as three store calls, not as
    one transaction: when the row update was accepted and the request is
    nevertheless not answered 200, the row is stored with the new values and
    it has no association left.  The store is reachable. *)
Theorem failed_replace_is_not_rolled_back (id : string) (s : Store)
  (supplied : list string) :
  outage s = None ->
  (forall (b : ProductPatch) (p p' : Product),
     find (has_id product_model id) (products s) = Some p ->
     pp_collectionIds b = Some supplied ->
     fst (update product_model id (apply_product_patch b) s) = inr p' ->
     status (fst (products_update id b [] s)) <> 200 ->
     find (has_id product_model id) (products (snd (products_update id b [] s)))
     = Some (apply_product_patch b p)
     /\ associations productCollection id (snd (products_update id b [] s)) = [])
  /\ (forall (b : VariantPatch) (v v' : ProductVariant),
        find (has_id variant_model id) (variants s) = Some v ->
        vp_collectionIds b = Some supplied ->
        fst (update variant_model id (apply_variant_patch b) s) = inr v' ->
        status (fst (variants_update id b [] s)) <> 200 ->
        find (has_id variant_model id) (variants (snd (variants_update id b [] s)))
        = Some (apply_variant_patch b v)
        /\ associations variantCollection id (snd (variants_update id b [] s)) = []).
Proof.
  intros Hup. split.
  - intros b p p' Hfind Hsupplied Hupdate.
    unfold products_update, try_catch, bind.
    rewrite (findUnique_run product_model id s Hup).
    cbn [rows product_model]. rewrite Hfind, update_data_plain.
    destruct (update_outcome product_model id (apply_product_patch b) s)
      as [[e He]|[a [Hfa Ha]]].
    { rewrite He in Hupdate. discriminate Hupdate. }
    cbn [rows product_model] in Hfa. rewrite Hfind in Hfa. inversion Hfa; subst a.
    rewrite Ha, Hsupplied. cbn [with_rows rows product_model].
    rewrite deleteMany_run by exact Hup.
    cbn [links with_links productCollection productCollections with_products
         with_productCollections].
    destruct supplied as [|c supplied].
    + cbn [List.length Z.of_nat Z.ltb Z.compare ret].
      rewrite findUnique_run by exact Hup. cbn [fst snd status json_done].
      intros H. now contradiction H.
    + replace (0 <? Z.of_nat (List.length (c :: supplied))) with true
        by (symmetry; apply Z.ltb_lt; cbn [List.length]; lia).
      match goal with
      | |- context [createMany productCollection ?data ?s2] =>
          destruct (createMany_outcome productCollection data s2)
            as [[e He]|[n Hn]]; [rewrite He|rewrite Hn]
      end.
      * cbn [fst snd]. intros _. unfold associations.
        cbn [links productCollection productCollections products
             with_productCollections with_products].
        split.
        -- apply find_replace_row with (a := p); [exact Hfind|].
           exact (proj1 (find_has_id product_model id p _ Hfind)).
        -- now rewrite filter_filter_negb.
      * rewrite findUnique_run by exact Hup. cbn [fst snd status json_done].
        intros H. now contradiction H.
  - intros b v v' Hfind Hsupplied Hupdate.
    unfold variants_update, try_catch, bind.
    rewrite (findUnique_run variant_model id s Hup).
    cbn [rows variant_model]. rewrite Hfind, update_data_plain.
    destruct (update_outcome variant_model id (apply_variant_patch b) s)
      as [[e He]|[a [Hfa Ha]]].
    { rewrite He in Hupdate. discriminate Hupdate. }
    cbn [rows variant_model] in Hfa. rewrite Hfind in Hfa. inversion Hfa; subst a.
    rewrite Ha, Hsupplied. cbn [with_rows rows variant_model].
    rewrite deleteMany_run by exact Hup.
    cbn [links with_links variantCollection variantCollections with_variants
         with_variantCollections].
    destruct supplied as [|c supplied].
    + cbn [List.length Z.of_nat Z.ltb Z.compare ret].
      rewrite findUnique_run by exact Hup. cbn [fst snd status json_done].
      intros H. now contradiction H.
    + replace (0 <? Z.of_nat (List.length (c :: supplied))) with true
        by (symmetry; apply Z.ltb_lt; cbn [List.length]; lia).
      match goal with
      | |- context [createMany variantCollection ?data ?s2] =>
          destruct (createMany_outcome variantCollection data s2)
            as [[e He]|[n Hn]]; [rewrite He|rewrite Hn]
      end.
      * cbn [fst snd]. intros _. unfold associations.
        cbn [links variantCollection variantCollections variants
             with_variantCollections with_variants].
        split.
        -- apply find_replace_row with (a := v); [exact Hfind|].
           exact (proj1 (find_has_id variant_model id v _ Hfind)).
        -- now rewrite filter_filter_negb.
      * rewrite findUnique_run by exact Hup. cbn [fst snd status json_done].
        intros H. now contradiction H.
Qed.

(** ** Trimmed names *)

Lemma trimmed_found {A : Type} (name : A -> string) (f : A -> bool)
  (l : list A) (a : A) :
  Forall (fun x => trim (name x) = name x) l ->
  find f l = Some a ->
  trim (name a) = name a.
Proof.
  intros Hl Hfind. apply find_some in Hfind.
  exact (proj1 (Forall_forall _ _) Hl a (proj1 Hfind)).
Qed.

(** The writes of the colour, style, brand and collection routers: the name
    they store has been trimmed. *)
Ltac trimmed_table :=
  intros; unfold names_trimmed in *;
  cbn [rows with_rows color_model style_model brand_model collection_model
       colors styles brands collections
       with_colors with_styles with_brands with_collections bump_id];
  repeat match goal with H : _ /\ _ |- _ => destruct H end;
  repeat match goal with |- _ /\ _ => split end; try assumption.

Ltac trimmed_writing :=
  first
    [ apply create_keeps; trimmed_table;
      apply Forall_app; split;
      [assumption | constructor; [apply trim_idempotent | constructor]]
    | apply update_keeps; trimmed_table;
      apply Forall_replace_row; [assumption|];
      cbn [apply_color_body apply_style_body apply_brand_body apply_collection_body
           color_name style_name brand_name collection_name];
      match goal with
      | |- context [patched (trim_opt ?name) _] =>
          destruct name; cbn [trim_opt patched];
          [apply trim_idempotent | eapply trimmed_found; eassumption]
      end
    | apply delete_keeps; trimmed_table; apply Forall_kept; assumption
    | apply createMany_skipDuplicates_keeps; trimmed_table;
      match goal with
      | H : In _ (map _ _) |- _ =>
          apply in_map_iff in H; destruct H as [? [<- _]]
      end;
      apply Forall_app; split;
      [assumption | constructor; [apply trim_idempotent | constructor]] ].

(** X21.  Every request keeps the stored names of the colours, styles,
    brands and collections trimmed, without white space at either end: the
    handlers of these four routers trim a name before each write (create,
    update and bulk create), and no other handler writes one.  The body of
    an update of a product or a variant has no member beyond the columns. *)
Theorem names_stay_trimmed (env : Env) (r : Request) (s : Store) :
  columns_only r -> names_trimmed s -> names_trimmed (snd (app env r s)).
Proof.
  intros Hplain Hs.
  destruct r; plainly Hplain; cbn [app snd]; try exact Hs;
    apply (try_catch_keeps names_trimmed); try exact Hs;
    try unfold list_page;
    walk_with ltac:(first [writing | trimmed_writing]).
Qed.

(** ** Lookups *)

Lemma lookup_run {A : Type} (T : Model A) (key : A -> string)
  (wrap : A -> Payload) (missing failed : string) :
  looks_up T key wrap missing
    (fun value =>
       try_catch
         (row <- findFirstBy T key value ;;
          match row with
          | None => ret (json_fail 404 missing)
          | Some a => ret (json_data (Some (wrap a)))
          end)
         (json_unexpected failed)).
Proof.
  intros value s Hup. unfold try_catch, bind, findFirstBy, query, ret.
  rewrite Hup.
  destruct (find (fun a => (key a =? value)%string) (rows T s)) as [a|] eqn:Hfind;
    cbn [fst snd]; (split; [reflexivity|]).
  - left. exists a. apply find_some in Hfind. destruct Hfind as [Hin Hkey].
    apply String.eqb_eq in Hkey. auto.
  - right. split; [|reflexivity]. intros a Hin.
    apply String.eqb_neq. exact (find_none _ _ Hfind a Hin).
Qed.

(** X22.  The lookup by identifier of each router, and the lookup of a
    product by slug, answer 200 with a stored row that has the key asked for
    when there is one, and 404 exactly when no stored row has it; they do
    not change the store.  The store is reachable. *)
Theorem lookups_answer_stored_rows :
  looks_up product_model product_id OneProduct "Product not found" products_get
  /\ looks_up product_model product_slug OneProduct "Product not found"
       products_getBySlug
  /\ looks_up variant_model variant_id OneVariant "Variant not found" variants_get
  /\ looks_up color_model color_id OneColor "Color not found" colors_get
  /\ looks_up style_model style_id OneStyle "Style not found" styles_get
  /\ looks_up collection_model collection_id OneCollection "Collection not found"
       collections_get
  /\ looks_up brand_model brand_id OneBrand "Brand not found" brands_get.
Proof.
  repeat match goal with |- _ /\ _ => split end.
  - apply (lookup_run product_model product_id _ _ "Failed to fetch product").
  - apply (lookup_run product_model product_slug _ _ "Failed to fetch product").
  - apply (lookup_run variant_model variant_id _ _ "Failed to fetch variant").
  - apply (lookup_run color_model color_id _ _ "Failed to fetch color").
  - apply (lookup_run style_model style_id _ _ "Failed to fetch style").
  - apply (lookup_run collection_model collection_id _ _ "Failed to fetch collection").
  - apply (lookup_run brand_model brand_id _ _ "Failed to fetch brand").
Qed.

(** ** Slugs and SKUs *)

Lemma create_with_collections_taken {A J : Type} (T : Model A) (Jn : Join J)
  (mk : string -> A) (join : string -> string -> J) (collectionIds : list string)
  (s : Store) (a : A) :
  outage s = None ->
  In a (rows T s) ->
  same_unique T (mk (fresh_id (next_id s))) a = true ->
  create_with_collections T Jn mk join collectionIds s = (inl unique_violation, s).
Proof.
  intros Hup Hin Hsame. unfold create_with_collections, query. rewrite Hup.
  replace (existsb (same_unique T (mk (fresh_id (next_id s)))) (rows T s)) with true;
    [reflexivity|].
  symmetry. apply existsb_exists. exists a. split; assumption.
Qed.

(** X23.  Creating a product whose trimmed slug or trimmed SKU is the one
    of a stored product is answered 400 with the "slug or SKU already
    exists" error and stores nothing; so is creating a variant, for a stored
    product, whose trimmed variantId or SKU is the one of a stored variant.
    The required members are given, the quantity or stock is an integer and
    the store is reachable. *)
Theorem taken_slug_or_sku_is_a_conflict (s : Store) :
  outage s = None ->
  (forall (b : ProductBody) (name slug sku : string) (price : Price)
          (quantity : Z) (existing : Product),
     pb_name b = Some name -> pb_slug b = Some slug -> pb_sku b = Some sku ->
     pb_price b = Some price ->
     truthy name && truthy slug && truthy sku && price_truthy price = true ->
     parseInt (match pb_quantityInStock b with Some v => v | None => Num 0 end)
     = Int quantity ->
     In existing (products s) ->
     product_slug existing = trim slug \/ product_sku existing = trim sku ->
     products_create b s
     = (json_fail 400 "Product with this slug or SKU already exists", s))
  /\ (forall (b : VariantBody) (variantId sku fullVariantName variantName
              productId : string) (stock : Z) (p : Product)
             (existing : ProductVariant),
        vb_variantId b = Some variantId -> vb_sku b = Some sku ->
        vb_fullVariantName b = Some fullVariantName ->
        vb_variantName b = Some variantName ->
        vb_productId b = Some productId ->
        truthy variantId && truthy sku && truthy fullVariantName
        && truthy variantName && truthy productId = true ->
        find (has_id product_model productId) (products s) = Some p ->
        parseInt (match vb_stock b with Some v => v | None => Num 0 end) = Int stock ->
        In existing (variants s) ->
        variant_variantId existing = trim variantId
        \/ variant_sku existing = trim sku ->
        variants_create b s
        = (json_fail 400 "Variant with this variantId or SKU already exists", s)).
Proof.
  intros Hup. split.
  - intros b name slug sku price quantity existing
      Hname Hslug Hsku Hprice Hgiven Hquantity Hin Htaken.
    unfold products_create, try_catch, bind.
    rewrite Hname, Hslug, Hsku, Hprice, Hgiven, Hquantity.
    rewrite (create_with_collections_taken product_model productCollection
               _ _ _ s existing Hup Hin); [reflexivity|].
    cbn [same_unique product_model product_slug product_sku].
    apply orb_true_iff.
    destruct Htaken as [H|H]; rewrite H; [left|right]; apply String.eqb_refl.
  - intros b variantId sku fullVariantName variantName productId stock p existing
      HvariantId Hsku Hfull Hname Hproduct Hgiven Hfind Hstock Hin Htaken.
    unfold variants_create, try_catch, bind.
    rewrite HvariantId, Hsku, Hfull, Hname, Hproduct, Hgiven.
    rewrite (findUnique_run product_model productId s Hup).
    cbn [rows product_model]. rewrite Hfind, Hstock.
    rewrite (create_with_collections_taken variant_model variantCollection
               _ _ _ s existing Hup Hin); [reflexivity|].
    cbn [same_unique variant_model variant_variantId variant_sku].
    apply orb_true_iff.
    destruct Htaken as [H|H]; rewrite H; [left|right]; apply String.eqb_refl.
Qed.

(** ** Filters that are the empty string *)

Lemma or_null_or_null (x : option string) : or_null (or_null x) = or_null x.
Proof. destruct x as [[|c s]|]; reflexivity. Qed.

Lemma given_or_null (x : option string) : given (or_null x) = given x.
Proof. destruct x as [[|c s]|]; reflexivity. Qed.

Lemma products_where_without_empty (q : Query) :
  products_where (without_empty q) = products_where q.
Proof.
  unfold products_where, without_empty.
  cbn [q_search q_brandId q_productTypeId q_inStock q_minPrice q_maxPrice].
  now rewrite !or_null_or_null, !given_or_null.
Qed.

Lemma variants_where_without_empty (q : Query) :
  variants_where (without_empty q) = variants_where q.
Proof.
  unfold variants_where, without_empty.
  cbn [q_search q_productId q_colorId q_styleId q_inStock].
  now rewrite !or_null_or_null.
Qed.

(** X24.  A filter given as the empty string is ignored: a list request
    whose [search], identifier, [fitType], [minPrice] or [maxPrice]
    parameter is empty is answered as the request without it, by the six
    list endpoints and by the list of the variants of a product.  [inStock]
    is the exception, being tested against [undefined]: the empty string
    selects the products whose flag is off and the variants whose stock is
    at most zero. *)
Theorem empty_filters_are_ignored (q : Query) (s : Store) :
  products_list (without_empty q) s = products_list q s
  /\ variants_list (without_empty q) s = variants_list q s
  /\ (forall productId,
        variants_byProduct productId (without_empty q) s
        = variants_byProduct productId q s)
  /\ colors_list (without_empty q) s = colors_list q s
  /\ styles_list (without_empty q) s = styles_list q s
  /\ collections_list (without_empty q) s = collections_list q s
  /\ brands_list (without_empty q) s = brands_list q s
  /\ (q_inStock q = Some "" ->
      pw_inStock (products_where q) = Some false
      /\ vw_stock (variants_where q) = Some (Lte 0)).
Proof.
  repeat match goal with |- _ /\ _ => split end.
  - unfold products_list. now rewrite products_where_without_empty.
  - unfold variants_list. now rewrite variants_where_without_empty.
  - intros productId. unfold variants_byProduct, without_empty.
    cbn [q_colorId q_styleId]. now rewrite !or_null_or_null.
  - unfold colors_list, name_contains, without_empty. cbn [q_search q_page q_limit].
    now rewrite or_null_or_null.
  - unfold styles_list, name_contains, without_empty.
    cbn [q_search q_fitType q_page q_limit]. now rewrite !or_null_or_null.
  - unfold collections_list, without_empty. cbn [q_search q_page q_limit].
    now rewrite or_null_or_null.
  - unfold brands_list, name_contains, without_empty. cbn [q_search q_page q_limit].
    now rewrite or_null_or_null.
  - intros Hempty. split.
    + unfold products_where. cbn [pw_inStock]. now rewrite Hempty.
    + unfold variants_where. cbn [vw_stock]. now rewrite Hempty.
Qed.

(** ** The fit type filter *)

Lemma upper_ascii_idempotent (c : ascii) :
  upper_ascii (upper_ascii c) = upper_ascii c.
Proof. destruct c as [[] [] [] [] [] [] [] []]; reflexivity. Qed.

Lemma upper_letters_idempotent (s : string) :
  upper_letters (upper_letters s) = upper_letters s.
Proof.
  induction s as [|c s IH]; cbn [upper_letters]; [reflexivity|].
  now rewrite upper_ascii_idempotent, IH.
Qed.

Lemma upper_ascii_below (c : ascii) :
  (nat_of_ascii (upper_ascii c) <? 128)%nat = (nat_of_ascii c <? 128)%nat.
Proof. destruct c as [[] [] [] [] [] [] [] []]; reflexivity. Qed.

Lemma is_ascii_upper_letters (s : string) :
  is_ascii (upper_letters s) = is_ascii s.
Proof.
  induction s as [|c s IH]; cbn [upper_letters is_ascii]; [reflexivity|].
  now rewrite upper_ascii_below, IH.
Qed.

(** Putting the letters a to z in upper case first does not change what
    [toUpperCase] gives. *)
Lemma toUpperCase_upper_letters (s : string) :
  toUpperCase (upper_letters s) = toUpperCase s.
Proof.
  unfold toUpperCase.
  now rewrite is_ascii_upper_letters, upper_letters_idempotent.
Qed.

(** X25.  The fit type filter of [GET /styles] does not depend on the case
    of its value: the request with the letters of [fitType] in upper case is
    answered as the request itself, so [skinny], [Skinny] and [SKINNY]
    select the same styles. *)
Theorem fit_type_filter_ignores_case (q : Query) (fitType : string) (s : Store) :
  q_fitType q = Some fitType ->
  styles_list (with_fitType q (upper_letters fitType)) s = styles_list q s.
Proof.
  intros Hfit. unfold styles_list, with_fitType.
  cbn [q_search q_fitType q_page q_limit]. rewrite Hfit.
  destruct fitType as [|c rest]; [reflexivity|].
  cbn [upper_letters or_null truthy option_map].
  change (String (upper_ascii c) (upper_letters rest))
    with (upper_letters (String c rest)).
  now rewrite toUpperCase_upper_letters.
Qed.

(** ** Bodies with the required members only *)

Lemma found_is_stored {A : Type} (T : Model A) (id : string) (a : A) (l : list A) :
  find (has_id T id) l = Some a -> stored (pk T) l id = true.
Proof.
  intros Hfind. apply find_some in Hfind. destruct Hfind as [Hin Hid].
  apply existsb_exists. exists a. split; assumption.
Qed.

(** X26.  A product created from the four required members alone is
    answered 201 and stored with the trimmed name, slug and SKU, the
    currency USD, a quantity in stock of 0, the [inStock] flag on, and no
    description, brand or type; the lookup by its trimmed slug then answers
    it.  A variant created from the five required members alone, for a
    stored product, is stored with the trimmed texts, a stock of 0, the
    [managedVariant] flag on and no colour or style.  The slug and SKU (the
    variantId and SKU) are free and the store is reachable. *)
Theorem required_members_suffice (s : Store) :
  outage s = None ->
  (forall (name slug sku : string) (price : Price),
     truthy name && truthy slug && truthy sku && price_truthy price = true ->
     (forall p, In p (products s) ->
        product_slug p <> trim slug /\ product_sku p <> trim sku) ->
     let p := {| product_id := fresh_id (next_id s);
                 product_name := trim name; product_slug := trim slug;
                 product_sku := trim sku; product_description := None;
                 product_price := price; product_currency := "USD";
                 product_quantityInStock := 0; product_inStock := true;
                 product_brandId := None; product_productTypeId := None |} in
     let out := products_create (required_product name slug sku price) s in
     fst out = json_done 201 (Some (OneProduct p)) "Product created successfully"
     /\ products (snd out) = (products s ++ [p])%list
     /\ fst (products_getBySlug (trim slug) (snd out))
        = json_data (Some (OneProduct p)))
  /\ (forall (variantId sku fullVariantName variantName productId : string)
             (product : Product),
        truthy variantId && truthy sku && truthy fullVariantName
        && truthy variantName && truthy productId = true ->
        find (has_id product_model productId) (products s) = Some product ->
        (forall v, In v (variants s) ->
           variant_variantId v <> trim variantId /\ variant_sku v <> trim sku) ->
        let v := {| variant_id := fresh_id (next_id s);
                    variant_variantId := trim variantId;
                    variant_sku := trim sku;
                    variant_fullVariantName := trim fullVariantName;
                    variant_variantName := trim variantName;
                    variant_stock := 0; variant_managedVariant := true;
                    variant_colorId := None; variant_styleId := None;
                    variant_productId := productId |} in
        let out := variants_create
                     (required_variant variantId sku fullVariantName variantName
                        productId) s in
        fst out = json_done 201 (Some (OneVariant v)) "Variant created successfully"
        /\ variants (snd out) = (variants s ++ [v])%list).
Proof.
  intros Hup. split.
  - intros name slug sku price Hgiven Hfree p out. subst out.
    assert (Hnew : existsb (same_unique product_model p) (products s) = false).
    { apply no_collision. intros x Hx. destruct (Hfree x Hx) as [Hslug Hsku].
      cbn [same_unique product_model product_slug product_sku p].
      apply orb_false_iff. split; apply String.eqb_neq; congruence. }
    unfold products_create, required_product, try_catch, bind,
      create_with_collections, query.
    cbn [pb_name pb_slug pb_sku pb_price pb_quantityInStock pb_description
         pb_currency pb_inStock pb_brandId pb_productTypeId pb_collectionIds
         or_string or_null trim_opt].
    change (parseInt (Num 0)) with (Int 0).
    rewrite Hgiven, Hup. cbn [rows product_model]. fold p. rewrite Hnew.
    cbn [map has_duplicate orb references_ok product_model stored_opt
         product_brandId product_productTypeId p forallb andb negb
         fst snd ret products with_rows with_links productCollection
         with_productCollections with_products].
    repeat split.
    unfold products_getBySlug, try_catch, bind, findFirstBy, query.
    cbn [outage with_productCollections with_products bump_id rows product_model
         products].
    rewrite Hup, find_app_new.
    + cbn [product_slug p]. now rewrite String.eqb_refl.
    + intros x Hx. apply String.eqb_neq. exact (proj1 (Hfree x Hx)).
  - intros variantId sku fullVariantName variantName productId product
      Hgiven Hfind Hfree v out. subst out.
    assert (Hnew : existsb (same_unique variant_model v) (variants s) = false).
    { apply no_collision. intros x Hx. destruct (Hfree x Hx) as [Hid Hsku].
      cbn [same_unique variant_model variant_variantId variant_sku v].
      apply orb_false_iff. split; apply String.eqb_neq; congruence. }
    unfold variants_create, required_variant, try_catch, bind,
      create_with_collections.
    cbn [vb_variantId vb_sku vb_fullVariantName vb_variantName vb_productId
         vb_stock vb_managedVariant vb_colorId vb_styleId vb_collectionIds
         or_null].
    change (parseInt (Num 0)) with (Int 0).
    rewrite Hgiven, (findUnique_run product_model productId s Hup).
    cbn [rows product_model]. rewrite Hfind. unfold query. rewrite Hup.
    cbn [rows variant_model]. fold v. rewrite Hnew.
    cbn [map has_duplicate orb references_ok variant_model stored_opt
         variant_productId variant_colorId variant_styleId v forallb].
    pose proof (found_is_stored product_model productId product _ Hfind) as Hstored.
    cbn [pk product_model] in Hstored. rewrite Hstored.
    cbn [andb negb fst snd ret variants with_rows with_links variantCollection
         with_variantCollections with_variants].
    split; reflexivity.
Qed.

(** ** Updating a product or a variant *)

(** X27.  [PUT /products/:id] and [PUT /variants/:id] without
    [collectionIds], on a stored row, when no other row has the resulting
    slug or SKU (variantId or SKU) and the resulting references point to
    stored rows: the answer is 200 with the row in which each member of the
    body has replaced the stored value, the row is stored so and the join
    tables are as before.  The values are stored as they are given: unlike
    the create handlers, the update handlers do not trim them, so a product
    renamed to a text with white space around it keeps the white space.  The
    store is reachable. *)
Theorem updates_store_values_as_given (id : string) (s : Store) :
  outage s = None ->
  (forall (b : ProductPatch) (p : Product),
     find (has_id product_model id) (products s) = Some p ->
     pp_collectionIds b = None ->
     (forall other, In other (products s) -> product_id other <> id ->
        product_slug other <> product_slug (apply_product_patch b p)
        /\ product_sku other <> product_sku (apply_product_patch b p)) ->
     references_ok product_model s (apply_product_patch b p) = true ->
     products_update id b [] s
     = (json_done 200 (Some (OneProduct (apply_product_patch b p)))
          "Product updated successfully",
        with_products
          (replace_row product_model id (apply_product_patch b p) (products s)) s))
  /\ (forall (b : VariantPatch) (v : ProductVariant),
        find (has_id variant_model id) (variants s) = Some v ->
        vp_collectionIds b = None ->
        (forall other, In other (variants s) -> variant_id other <> id ->
           variant_variantId other <> variant_variantId (apply_variant_patch b v)
           /\ variant_sku other <> variant_sku (apply_variant_patch b v)) ->
        references_ok variant_model s (apply_variant_patch b v) = true ->
        variants_update id b [] s
        = (json_done 200 (Some (OneVariant (apply_variant_patch b v)))
             "Variant updated successfully",
           with_variants
             (replace_row variant_model id (apply_variant_patch b v) (variants s)) s))
  /\ (forall (name : string) (p : Product),
        product_name (apply_product_patch (only_name name) p) = name).
Proof.
  intros Hup. split; [|split].
  - intros b p Hfind Hnone Hfree Href.
    assert (Hid : has_id product_model id (apply_product_patch b p) = true)
      by exact (proj1 (find_has_id product_model id p _ Hfind)).
    unfold products_update, try_catch, bind.
    rewrite (findUnique_run product_model id s Hup).
    cbn [rows product_model]. rewrite Hfind, update_data_plain.
    rewrite (update_run product_model id (apply_product_patch b) s p Hup Hfind).
    + rewrite Hnone. cbn [ret rows with_rows product_model].
      rewrite findUnique_run by exact Hup.
      cbn [rows product_model products with_products].
      now rewrite (find_replace_row product_model id p _ _ Hfind Hid).
    + intros other Hin Hother. unfold has_id in Hother.
      apply String.eqb_neq in Hother. destruct (Hfree other Hin Hother) as [Hslug Hsku].
      cbn [same_unique product_model].
      apply orb_false_iff. split; apply String.eqb_neq; congruence.
    + exact Href.
  - intros b v Hfind Hnone Hfree Href.
    assert (Hid : has_id variant_model id (apply_variant_patch b v) = true)
      by exact (proj1 (find_has_id variant_model id v _ Hfind)).
    unfold variants_update, try_catch, bind.
    rewrite (findUnique_run variant_model id s Hup).
    cbn [rows variant_model]. rewrite Hfind, update_data_plain.
    rewrite (update_run variant_model id (apply_variant_patch b) s v Hup Hfind).
    + rewrite Hnone. cbn [ret rows with_rows variant_model].
      rewrite findUnique_run by exact Hup.
      cbn [rows variant_model variants with_variants].
      now rewrite (find_replace_row variant_model id v _ _ Hfind Hid).
    + intros other Hin Hother. unfold has_id in Hother.
      apply String.eqb_neq in Hother. destruct (Hfree other Hin Hother) as [Hvid Hsku].
      cbn [same_unique variant_model].
      apply orb_false_iff. split; apply String.eqb_neq; congruence.
    + exact Href.
  - reflexivity.
Qed.
End Api.

(** * The handlers on the sample data *)

Arguments status {Price} _.
Arguments success {Price} _.
Arguments error {Price} _.
Arguments message {Price} _.
Arguments data {Price} _.
Arguments pagination {Price} _.
Arguments json_fail {Price} _ _.
Arguments json_done {Price} _ _ _.
Arguments json_unexpected {Price} _ _.
Arguments Count {Price} _.
Arguments Colors {Price} _.
Arguments OneStyle {Price} _.
Arguments variants {Price} _.
Arguments colors {Price} _.
Arguments styles {Price} _.
Arguments has_id {Price A} _ _ _.

#[local] Abbreviation catalogue := (sample_store Sample.Price Sample.parseFloat).
#[local] Abbreviation offline :=
  (unreachable_store Sample.Price Sample.parseFloat).
#[local] Abbreviation shirt := (tee Sample.Price Sample.parseFloat).

(** C1 as stated fails: a [stock] of 10^21, an integer, is not stored as it
    is by ['set'] and is not added as it is by ['add'].  [parseInt] reads its
    print, [1e+21], up to the letter: the stock is set to 1, and to 3 + 1. *)
Lemma stock_of_22_digits :
  let set := {| kb_stock := Some (Num (10 ^ 21)); kb_operation := Some "set" |} in
  let add := {| kb_stock := Some (Num (10 ^ 21)); kb_operation := Some "add" |} in
  variant_stock red_tee = 3
  /\ stock_set Sample.Price "v1" 1 red_tee catalogue
       (variants_updateStock Sample.Price "v1" set catalogue)
  /\ stock_set Sample.Price "v1" 4 red_tee catalogue
       (variants_updateStock Sample.Price "v1" add catalogue).
Proof.
  intros set add. split; [reflexivity|]. split.
  - exists (set_stock 1 red_tee). repeat split; vm_compute; reflexivity.
  - exists (set_stock 4 red_tee). repeat split; vm_compute; reflexivity.
Qed.

(** The scenario of the specification: subtracting 5 from a stock of 3
    leaves 0. *)
Lemma variant_stock_mutation_witness :
  let b := {| kb_stock := Some (Num 5); kb_operation := Some "subtract" |} in
  (safe 5 /\ safe (variant_stock red_tee) /\ safe (variant_stock red_tee - 5))
  /\ stock_set Sample.Price "v1" 0 red_tee catalogue
       (variants_updateStock Sample.Price "v1" b catalogue).
Proof.
  intros b.
  assert (Hsafe : safe 5 /\ safe (variant_stock red_tee)
                  /\ safe (variant_stock red_tee - 5))
    by (unfold safe; cbn; lia).
  split; [exact Hsafe|].
  destruct Hsafe as [Hn [Hold Hdiff]].
  destruct (variant_stock_mutation Sample.Price "v1" b catalogue eq_refl)
    as [_ [_ [H _]]].
  exact (H red_tee 5 0 eq_refl eq_refl Hn Hold
           (or_intror (or_introl (conj eq_refl (conj eq_refl Hdiff))))).
Defined.


(** The colour of the sample variant cannot be deleted; the colour that no
    variant has can. *)
Lemma referenced_rows_are_not_deleted_witness :
  (status (fst (colors_delete Sample.Price "c1" catalogue)) = 400
   /\ snd (colors_delete Sample.Price "c1" catalogue) = catalogue)
  /\ (status (fst (colors_delete Sample.Price "c2" catalogue)) = 200
      /\ colors (snd (colors_delete Sample.Price "c2" catalogue)) = [red]).
Proof.
  split.
  - destruct (referenced_rows_are_not_deleted Sample.Price "c1" catalogue eq_refl)
      as [H _].
    unfold guarded_delete in H.
    match type of H with
    | match ?found with _ => _ end => change found with (Some red) in H
    end.
    cbv beta iota in H.
    match type of H with
    | if ?referenced then _ else _ => change referenced with true in H
    end.
    cbv beta iota in H.
    destruct H as [Hstatus [_ Hstore]]. split; assumption.
  - destruct (referenced_rows_are_not_deleted Sample.Price "c2" catalogue eq_refl)
      as [H _].
    unfold guarded_delete in H.
    match type of H with
    | match ?found with _ => _ end => change found with (Some blue) in H
    end.
    cbv beta iota in H.
    match type of H with
    | if ?referenced then _ else _ => change referenced with false in H
    end.
    cbv beta iota in H.
    destruct H as [Hstatus [_ [Hstore _]]].
    split; [exact Hstatus|]. rewrite Hstore. reflexivity.
Defined.


(** C4 as stated fails: an update of the sample product whose body has
    no [collectionIds] and the member [collections: { deleteMany: {} }]
    leaves the product without associations. *)
Lemma nested_write_deletes_associations :
  let others := [("collections", JObject [("deleteMany", JObject [])])] in
  let out := products_update Sample.Price (sample_update_members Sample.Price)
               "p1" (only_collections Sample.Price None) others catalogue in
  pp_collectionIds Sample.Price (only_collections Sample.Price None) = None
  /\ associations Sample.Price (productCollection Sample.Price) "p1" catalogue
     = ["k1"]
  /\ status (fst out) = 200
  /\ associations Sample.Price (productCollection Sample.Price) "p1" (snd out)
     = [].
Proof.
  intros others out. repeat split.
Qed.

(** Replacing the collections of the sample product by the winter one. *)
Lemma collection_ids_replace_associations_witness :
  status (fst (products_update Sample.Price (sample_update_members Sample.Price)
                 "p1" (only_collections Sample.Price (Some ["k2"])) []
                 catalogue)) = 200
  /\ associations Sample.Price (productCollection Sample.Price) "p1"
       (snd (products_update Sample.Price (sample_update_members Sample.Price)
               "p1" (only_collections Sample.Price (Some ["k2"])) [] catalogue))
     = ["k2"].
Proof.
  destruct (collection_ids_replace_associations Sample.Price
              (sample_update_members Sample.Price) "p1" catalogue eq_refl)
    as [Hproduct _].
  destruct (Hproduct (only_collections Sample.Price (Some ["k2"])) [] shirt eq_refl)
    as [_ Hdone].
  apply (Hdone ["k2"] shirt eq_refl eq_refl).
  split.
  - constructor; [simpl; tauto|constructor].
  - intros c [<-|[]]. reflexivity.
Defined.

(** C5 as stated fails: a style-create request with a name and a valid fit
    type is answered 400 when a stored style already has the name. *)
Lemma style_create_name_taken :
  In (toUpperCase Sample.upper_unicode "skinny") ["SKINNY"; "RELAXED"; "OVERSIZED"; "CLASSIC"]
  /\ styles_create Sample.Price Sample.fresh_id Sample.upper_unicode
       {| sb_name := Some "Slim"; sb_fitType := Some "skinny" |} catalogue
     = (json_fail 400 "Style name already exists", catalogue).
Proof.
  split; [left; reflexivity|]. vm_compute. reflexivity.
Qed.

(** The scenario of the specification: [{name: "X", fitType: "skinny"}] is
    answered 201 and stored with fit type SKINNY. *)
Lemma style_create_normalises_fit_type_witness :
  styles_create Sample.Price Sample.fresh_id Sample.upper_unicode
    {| sb_name := Some "X"; sb_fitType := Some "skinny" |} catalogue
  = (json_done 201
       (Some (OneStyle {| style_id := "row10"; style_name := "X";
                          style_fitType := "SKINNY" |}))
       "Style created successfully",
     with_styles Sample.Price
       [slim; loose; {| style_id := "row10"; style_name := "X";
                        style_fitType := "SKINNY" |}]
       (bump_id Sample.Price catalogue)).
Proof.
  assert (Hfree : style_name_free Sample.Price (trim "X") catalogue).
  { intros st [<-|[<-|[]]]; discriminate. }
  exact (proj1 (style_create_normalises_fit_type Sample.Price Sample.fresh_id
                  Sample.upper_unicode
                  {| sb_name := Some "X"; sb_fitType := Some "skinny" |} catalogue
                  "X" "skinny" eq_refl eq_refl eq_refl eq_refl eq_refl)
           (or_introl eq_refl) Hfree).
Defined.

(** C6 as stated fails: an entry with the required fields that is no exact
    duplicate of a stored colour (same name, other hex code) is not
    inserted. *)
Lemma bulk_create_skips_same_name :
  let entry := {| cb_name := Some "Red"; cb_hexCode := Some "#00FF00" |} in
  validColors [entry] = [entry]
  /\ existsb (fun c => (color_name c =? "Red")%string
                       && match color_hexCode c with
                          | Some h => (h =? "#00FF00")%string
                          | None => false
                          end)
       (colors catalogue) = false
  /\ colors_bulk Sample.Price Sample.fresh_id (Some [entry]) catalogue
     = (json_done 201 (Some (Count 0)) "0 colors created successfully", catalogue).
Proof.
  intros entry. repeat split; vm_compute; reflexivity.
Qed.

(** A batch of four: one new colour, one entry without a name, one name
    that is taken, and the name of the first entry again. *)
Lemma bulk_create_skips_taken_names_witness :
  let batch := [ {| cb_name := Some " Green "; cb_hexCode := None |};
                 {| cb_name := None; cb_hexCode := Some "#000000" |};
                 {| cb_name := Some "Red"; cb_hexCode := Some "#00FF00" |};
                 {| cb_name := Some "Green"; cb_hexCode := Some "#00FF00" |} ] in
  exists n s',
    colors_bulk Sample.Price Sample.fresh_id (Some batch) catalogue
    = (json_done 201 (Some (Count n))
         (string_of_Z n ++ " colors created successfully"), s')
    /\ inserted_skipping_duplicates Sample.Price Sample.fresh_id
         (color_model Sample.Price) color_name
         (fun e => trimmed_name (cb_name e)) new_color (validColors batch)
         catalogue s' n
    /\ n = 1
    /\ colors s'
       = [red; blue;
          {| color_id := "row10"; color_name := "Green"; color_hexCode := None |}].
Proof.
  intros batch.
  assert (Hne : batch <> []) by discriminate.
  destruct (bulk_create_skips_taken_names Sample.Price Sample.fresh_id
              Sample.upper_unicode catalogue eq_refl) as [Hcolors _].
  destruct (Hcolors batch Hne) as [_ [_ Hsome]].
  destruct Hsome as [n [s' [Hrun Hspec]]].
  - exists {| cb_name := Some " Green "; cb_hexCode := None |}.
    split; [now left|].
    exists " Green ". split; [reflexivity|discriminate].
  - exists n, s'. split; [exact Hrun|]. split; [exact Hspec|].
    destruct Hspec as [Hrows Hn]. split; [exact Hn|exact Hrows].
Defined.

(** C7 as stated fails for the product list: with [inStock=true] the
    sample product is left out although its stock is greater than zero. *)
Lemma product_inStock_is_a_flag :
  (0 <? product_quantityInStock Sample.Price shirt) = true
  /\ product_matches Sample.Price Sample.price_leb Sample.contains_insensitive
       (products_where Sample.Price Sample.parseFloat (query_inStock "true"))
       shirt
     = false.
Proof.
  split; reflexivity.
Qed.

Lemma inStock_filters_witness :
  vw_stock (variants_where (query_inStock "true")) = Some (Gt 0)
  /\ variant_matches Sample.contains_insensitive
       (variants_where (query_inStock "true")) red_tee = true
  /\ variant_matches Sample.contains_insensitive
       (variants_where (query_inStock "false")) red_tee = false.
Proof.
  destruct (inStock_filters Sample.Price Sample.parseFloat Sample.price_leb
              Sample.contains_insensitive (query_inStock "true") "true" eq_refl)
    as [Hwhere [Hyes _]].
  destruct (inStock_filters Sample.Price Sample.parseFloat Sample.price_leb
              Sample.contains_insensitive (query_inStock "false") "false" eq_refl)
    as [_ [Hno _]].
  split; [exact Hwhere|]. split.
  - rewrite Hyes. reflexivity.
  - rewrite Hno. reflexivity.
Defined.

(** [GET /products] in production while the database is down. *)
Lemma route_errors_reveal_message_witness :
  message
    (fst (app Sample.Price Sample.parseFloat Sample.price_leb Sample.price_truthy
            Sample.contains_insensitive Sample.order_rows Sample.fresh_id Sample.upper_unicode
       (sample_update_members Sample.Price)
            {| NODE_ENV := Some "production" |}
            (GetProducts Sample.Price no_query) offline))
  = Some "Can't reach database server at db.internal:5432".
Proof.
  exact (proj1 (proj2 (proj2
    (route_errors_reveal_message Sample.Price Sample.parseFloat Sample.price_leb
       Sample.price_truthy Sample.contains_insensitive Sample.order_rows
       Sample.fresh_id Sample.upper_unicode
       (sample_update_members Sample.Price) {| NODE_ENV := Some "production" |} no_query offline
       {| err_code := Some "P1001";
          err_message := "Can't reach database server at db.internal:5432" |}
       eq_refl eq_refl eq_refl eq_refl)))).
Defined.



(** The replace sequence is not one transaction: when the insertion is
    rejected (here for a collection that is not stored) the answer is 500
    and the associations deleted before it stay deleted. *)
Example rejected_insertion_loses_associations :
  let out := products_update Sample.Price (sample_update_members Sample.Price)
               "p1" (only_collections Sample.Price (Some ["k9"])) [] catalogue in
  associations Sample.Price (productCollection Sample.Price) "p1" catalogue = ["k1"]
  /\ status (fst out) = 500
  /\ associations Sample.Price (productCollection Sample.Price) "p1" (snd out) = [].
Proof.
  intros out. repeat split.
Qed.

(** ** The primitives on sample inputs *)

Example parseInt_reads_leading_digits :
  parseInt (Str "  42px") = Int 42
  /\ parseInt (Str "-7") = Int (-7)
  /\ parseInt (Str "0x1F") = Int 31
  /\ parseInt (Str "") = NaN
  /\ parseInt (Str "abc") = NaN
  /\ parseInt (Num 20) = Int 20
  /\ parseInt (Num (2 ^ 53 + 1)) = Int (2 ^ 53)
  /\ parseInt (Num (10 ^ 21)) = Int 1
  /\ parseInt (Num (- 25 * 10 ^ 21)) = Int (-2).
Proof. repeat split. Qed.

Example numbers_are_printed :
  number_string (Int 1000) = "1000"
  /\ number_string (Int (2 ^ 60)) = "1152921504606847000"
  /\ number_string (Int (10 ^ 21)) = "1e+21"
  /\ number_string (Int (- 25 * 10 ^ 21)) = "-2.5e+22"
  /\ to_double (2 ^ 53 + 1) = Int (2 ^ 53)
  /\ to_double (2 ^ 53 + 3) = Int (2 ^ 53 + 4)
  /\ to_double (2 ^ 1024) = PosInfinity.
Proof. repeat split. Qed.

Example trim_and_toUpperCase :
  trim "  Forest Green " = "Forest Green"
  /\ trim "   " = ""
  /\ trim (utf8 0xA0 ++ "Teal" ++ utf8 0x2003 ++ utf8 0xFEFF) = "Teal"
  /\ trim ("a" ++ utf8 0xA0 ++ "b") = "a" ++ utf8 0xA0 ++ "b"
  /\ toUpperCase Sample.upper_unicode "skinny" = "SKINNY"
  /\ toUpperCase Sample.upper_unicode "Wide-1" = "WIDE-1".
Proof. repeat split. Qed.

Example ceil_div_rounds_up :
  ceil_div 41 (Int 20) = Int 3
  /\ ceil_div 40 (Int 20) = Int 2
  /\ ceil_div 0 (Int 20) = Int 0
  /\ ceil_div 41 (Int 0) = PosInfinity
  /\ ceil_div 41 NaN = NaN.
Proof. repeat split. Qed.

(** * The further properties on the sample data *)

Arguments json_data {Price} _.
Arguments OneBrand {Price} _.
Arguments OneColor {Price} _.
Arguments Variants {Price} _.
Arguments products {Price} _.
Arguments brands {Price} _.

#[local] Abbreviation serve :=
  (app Sample.Price Sample.parseFloat Sample.price_leb Sample.price_truthy
     Sample.contains_insensitive Sample.order_rows Sample.fresh_id Sample.upper_unicode
       (sample_update_members Sample.Price)).

#[local] Abbreviation production := {| NODE_ENV := Some "production" |}.

(** Listing the colours leaves the sample store as it is. *)
Lemma reads_leave_the_store_witness :
  snd (serve production (GetColors Sample.Price no_query) catalogue) = catalogue.
Proof.
  apply (reads_leave_the_store Sample.Price Sample.parseFloat Sample.price_leb
           Sample.price_truthy Sample.contains_insensitive Sample.order_rows
           Sample.fresh_id Sample.upper_unicode
       (sample_update_members Sample.Price)).
  left. reflexivity.
Defined.

(** Deleting a colour that is not stored. *)
Lemma not_found_leaves_the_store_witness :
  status (fst (serve production (DeleteColor Sample.Price "c9") catalogue)) = 404
  /\ snd (serve production (DeleteColor Sample.Price "c9") catalogue) = catalogue.
Proof.
  split; [reflexivity|].
  apply (not_found_leaves_the_store Sample.Price Sample.parseFloat Sample.price_leb
           Sample.price_truthy Sample.contains_insensitive Sample.order_rows
           Sample.fresh_id Sample.upper_unicode
       (sample_update_members Sample.Price)).
  reflexivity.
Defined.

(** Creating a colour while the database is down. *)
Lemma outage_changes_nothing_witness :
  let r := PostColor Sample.Price {| cb_name := Some "Teal"; cb_hexCode := None |} in
  snd (serve production r offline) = offline
  /\ (r = GetFitTypes Sample.Price
      \/ status (fst (serve production r offline)) = 400
      \/ status (fst (serve production r offline)) = 500).
Proof.
  intros r.
  destruct (outage_changes_nothing Sample.Price Sample.parseFloat Sample.price_leb
              Sample.price_truthy Sample.contains_insensitive Sample.order_rows
              Sample.fresh_id Sample.upper_unicode
       (sample_update_members Sample.Price) production r offline _ eq_refl) as [Hstore Hstatus].
  split; [exact Hstore|exact (Hstatus eq_refl)].
Defined.

(** A brand created as [" Nova "] is found as ["Nova"] under the generated
    identifier. *)
Lemma created_row_is_found_witness :
  let b := {| bb_name := Some " Nova "; bb_logo := None |} in
  let s' := snd (brands_create Sample.Price Sample.fresh_id b catalogue) in
  fst (brands_get Sample.Price "row10" s')
  = json_data (Some (OneBrand {| brand_id := "row10"; brand_name := "Nova";
                                 brand_logo := None |})).
Proof.
  intros b s'. subst s'.
  destruct (created_row_is_found Sample.Price Sample.fresh_id catalogue eq_refl)
    as [_ [Hbrand _]].
  assert (Hfree : forall x, In x (brands catalogue) -> brand_name x <> trim " Nova ").
  { intros x [<-|[]]. discriminate. }
  assert (Hfresh : fresh_for Sample.Price Sample.fresh_id
                     (brand_model Sample.Price) catalogue).
  { intros x [<-|[]]. discriminate. }
  specialize (Hbrand b " Nova " eq_refl eq_refl Hfree Hfresh).
  cbv zeta in Hbrand. destruct Hbrand as [Hcreate [Hget _]].
  rewrite Hcreate. cbn [snd]. exact (f_equal fst Hget).
Defined.

(** [" Red "] is the name of the stored colour once trimmed. *)
Lemma taken_name_is_a_conflict_witness :
  colors_create Sample.Price Sample.fresh_id
    {| cb_name := Some " Red "; cb_hexCode := None |} catalogue
  = (json_fail 400 "Color name already exists", catalogue).
Proof.
  apply (proj1 (taken_name_is_a_conflict Sample.Price Sample.fresh_id Sample.upper_unicode catalogue
                  eq_refl)) with (name := " Red ") (c := red);
    try reflexivity.
  left. reflexivity.
Defined.

(** A name of two spaces. *)
Lemma blank_name_is_stored_empty_witness :
  let b := {| cb_name := Some "  "; cb_hexCode := None |} in
  fst (colors_create Sample.Price Sample.fresh_id b catalogue)
  = json_done 201
      (Some (OneColor {| color_id := "row10"; color_name := "";
                         color_hexCode := None |}))
      "Color created successfully"
  /\ colors_bulk Sample.Price Sample.fresh_id (Some [b]) catalogue
     = (json_fail 400 "At least one valid color with name is required", catalogue).
Proof.
  intros b.
  assert (Hfree : forall c, In c (colors catalogue) -> color_name c <> "").
  { intros c [<-|[<-|[]]]; discriminate. }
  destruct (proj1 (blank_name_is_stored_empty Sample.Price Sample.fresh_id Sample.upper_unicode
                     catalogue "  " eq_refl eq_refl eq_refl) None Hfree)
    as [Hcreate Hbulk].
  split; [|exact Hbulk]. fold b in Hcreate. now rewrite Hcreate.
Defined.

(** Renaming the second colour. *)
Lemma update_changes_one_row_witness :
  let b := {| cb_name := Some " Navy "; cb_hexCode := None |} in
  fst (colors_update Sample.Price "c2" b catalogue)
  = json_done 200
      (Some (OneColor {| color_id := "c2"; color_name := "Navy";
                         color_hexCode := None |}))
      "Color updated successfully"
  /\ fst (colors_get Sample.Price "c1"
            (snd (colors_update Sample.Price "c2" b catalogue)))
     = json_data (Some (OneColor red)).
Proof.
  intros b.
  destruct (update_changes_one_row Sample.Price Sample.upper_unicode catalogue "c2" eq_refl)
    as [Hcolor _].
  assert (Hfree : forall other, In other (colors catalogue) ->
            color_id other <> "c2" ->
            color_name other <> color_name (apply_color_body b blue)).
  { intros other [<-|[<-|[]]] Hid; [discriminate|now contradiction Hid]. }
  destruct (Hcolor b blue eq_refl Hfree) as [Hanswer [_ [Hothers _]]].
  split; [exact Hanswer|].
  rewrite (Hothers "c1") by discriminate. reflexivity.
Defined.

(** Renaming the second colour to the name of the first. *)
Lemma rename_to_taken_name_is_a_conflict_witness :
  colors_update Sample.Price "c2" {| cb_name := Some "Red"; cb_hexCode := None |}
    catalogue
  = (json_fail 400 "Color name already exists", catalogue).
Proof.
  apply (proj1 (rename_to_taken_name_is_a_conflict Sample.Price Sample.upper_unicode catalogue "c2" "Red"
                  eq_refl)) with (c := blue) (other := red);
    try reflexivity; try discriminate.
  left. reflexivity.
Defined.

(** An empty body for the stored brand. *)
Lemma empty_update_changes_nothing_witness :
  brands_update Sample.Price "b1" {| bb_name := None; bb_logo := None |} catalogue
  = (json_done 200 (Some (OneBrand acme)) "Brand updated successfully", catalogue).
Proof.
  destruct (empty_update_changes_nothing Sample.Price Sample.upper_unicode
              (sample_update_members Sample.Price) catalogue "b1" eq_refl)
    as [_ [_ [_ [_ [_ Hbrand]]]]].
  exact (Hbrand acme eq_refl).
Defined.

(** Renaming the sample product leaves the colours alone. *)
Lemma requests_write_their_tables_only_witness :
  colors
    (snd (serve production
            (PutProduct Sample.Price "p1" (only_name Sample.Price "Tee 2") [])
            catalogue))
  = [red; blue].
Proof.
  apply (requests_write_their_tables_only Sample.Price Sample.parseFloat
           Sample.price_leb Sample.price_truthy Sample.contains_insensitive
           Sample.order_rows Sample.fresh_id Sample.upper_unicode
           (sample_update_members Sample.Price) production
           (PutProduct Sample.Price "p1" (only_name Sample.Price "Tee 2") [])
           TColor catalogue).
  - reflexivity.
  - intros [H|[H|[]]]; discriminate H.
Defined.

(** Updating a style with a fit type in lower case. *)
Lemma fit_types_stay_valid_witness :
  fitTypes_valid Sample.Price
    (snd (serve production
            (PutStyle Sample.Price "s2"
               {| sb_name := None; sb_fitType := Some "oversized" |})
            catalogue)).
Proof.
  apply (fit_types_stay_valid Sample.Price Sample.parseFloat Sample.price_leb
           Sample.price_truthy Sample.contains_insensitive Sample.order_rows
           Sample.fresh_id Sample.upper_unicode
           (sample_update_members Sample.Price)).
  - exact I.
  - apply Forall_forall. intros st [<-|[<-|[]]]; cbn; auto.
Defined.

(** The references of the sample store, and the deletion of the colour
    that no variant has. *)
Lemma guarded_deletes_keep_references_witness :
  references_intact Sample.Price catalogue
  /\ references_intact Sample.Price (snd (colors_delete Sample.Price "c2" catalogue)).
Proof.
  assert (Hintact : references_intact Sample.Price catalogue).
  { repeat split.
    - intros v [<-|[]]. reflexivity.
    - intros p [<-|[]]. reflexivity.
    - destruct H as [<-|[]]. reflexivity.
    - destruct H as [<-|[]]. reflexivity.
    - destruct H.
    - destruct H. }
  split; [exact Hintact|].
  exact (proj1 (guarded_deletes_keep_references Sample.Price "c2" catalogue Hintact)).
Defined.

(** Deleting the sample variant, although a colour and a style are in use
    by it. *)
Lemma deleted_row_is_gone_witness :
  let s' := snd (variants_delete Sample.Price "v1" catalogue) in
  fst (variants_delete Sample.Price "v1" catalogue)
  = json_done 200 None "Variant deleted successfully"
  /\ fst (variants_get Sample.Price "v1" s') = json_fail 404 "Variant not found".
Proof.
  intros s'. subst s'.
  destruct (proj2 (deleted_row_is_gone Sample.Price "v1" catalogue eq_refl)
              red_tee eq_refl) as [Hanswer [Hget _]].
  split; [exact Hanswer|]. now rewrite Hget.
Defined.

(** The same batch of two colours, twice. *)
Lemma bulk_twice_inserts_nothing_witness :
  let batch := [ {| cb_name := Some "Green"; cb_hexCode := Some "#008000" |};
                 {| cb_name := Some "Red"; cb_hexCode := None |} ] in
  let s1 := snd (colors_bulk Sample.Price Sample.fresh_id (Some batch) catalogue) in
  List.length (colors s1) = 3%nat
  /\ colors_bulk Sample.Price Sample.fresh_id (Some batch) s1
     = (json_done 201 (Some (Count 0)) "0 colors created successfully", s1).
Proof.
  intros batch s1. split; [reflexivity|].
  apply (proj1 (bulk_twice_inserts_nothing Sample.Price Sample.fresh_id Sample.upper_unicode catalogue
                  eq_refl)).
  discriminate.
Defined.

(** A stock of 3: adding 5 and subtracting 5 gives 3 back, subtracting 5
    and adding 5 gives 5. *)
Lemma add_and_subtract_compose_witness :
  let added := snd (variants_updateStock Sample.Price "v1" (stock_request "add" 5)
                      catalogue) in
  let taken := snd (variants_updateStock Sample.Price "v1"
                      (stock_request "subtract" 5) catalogue) in
  (safe 5 /\ safe (variant_stock red_tee) /\ safe (variant_stock red_tee + 5)
   /\ safe (variant_stock red_tee - 5))
  /\ (exists v',
        find (has_id (variant_model Sample.Price) "v1")
          (variants (snd (variants_updateStock Sample.Price "v1"
                            (stock_request "subtract" 5) added)))
        = Some v'
        /\ restocked 3 red_tee v')
  /\ (exists v',
        find (has_id (variant_model Sample.Price) "v1")
          (variants (snd (variants_updateStock Sample.Price "v1"
                            (stock_request "add" 5) taken)))
        = Some v'
        /\ restocked 5 red_tee v').
Proof.
  assert (Hsafe : safe 5 /\ safe (variant_stock red_tee)
                  /\ safe (variant_stock red_tee + 5)
                  /\ safe (variant_stock red_tee - 5))
    by (unfold safe; cbn; lia).
  intros added taken. split; [exact Hsafe|].
  destruct Hsafe as [Hn [Hold [Hsum Hdiff]]].
  exact (add_and_subtract_compose Sample.Price "v1" catalogue red_tee 5
           eq_refl eq_refl Hn Hold Hsum Hdiff).
Defined.

(** The variants of the sample product. *)
Lemma variants_of_a_product_witness :
  variants_byProduct Sample.Price Sample.contains_insensitive Sample.order_rows
    "p1" no_query catalogue
  = (json_data (Some (Variants [red_tee])), catalogue).
Proof.
  apply (variants_of_a_product Sample.Price Sample.contains_insensitive
           Sample.order_rows "p1" no_query catalogue [red_tee] eq_refl eq_refl).
  intros v. split; intros H; exact H.
Defined.

(** Replacing the collections of the sample product by one that is not
    stored: the answer is 500 and the product has no collection left. *)
Lemma failed_replace_is_not_rolled_back_witness :
  let b := only_collections Sample.Price (Some ["k9"]) in
  status (fst (products_update Sample.Price (sample_update_members Sample.Price) "p1" b []
                       catalogue)) = 500
  /\ associations Sample.Price (productCollection Sample.Price) "p1"
       (snd (products_update Sample.Price (sample_update_members Sample.Price) "p1" b []
                       catalogue))
     = [].
Proof.
  intros b. split; [reflexivity|].
  assert (Hfailed : status (fst (products_update Sample.Price (sample_update_members Sample.Price) "p1" b []
                       catalogue))
                    <> 200) by discriminate.
  exact (proj2 (proj1 (failed_replace_is_not_rolled_back Sample.Price
              (sample_update_members Sample.Price) "p1" catalogue
                         ["k9"] eq_refl)
                  b shirt shirt eq_refl eq_refl eq_refl Hfailed)).
Defined.

(** Renaming the sample brand with white space around the new name. *)
Lemma names_stay_trimmed_witness :
  names_trimmed Sample.Price
    (snd (serve production
            (PutBrand Sample.Price "b1"
               {| bb_name := Some "  Acme Ltd "; bb_logo := None |})
            catalogue)).
Proof.
  apply (names_stay_trimmed Sample.Price Sample.parseFloat Sample.price_leb
           Sample.price_truthy Sample.contains_insensitive Sample.order_rows
           Sample.fresh_id Sample.upper_unicode
           (sample_update_members Sample.Price)).
  - exact I.
  - repeat split; repeat constructor.
Defined.

(** A second product with the slug of the first. *)
Lemma taken_slug_or_sku_is_a_conflict_witness :
  products_create Sample.Price Sample.price_truthy Sample.fresh_id
    {| pb_name := Some "Tee 2"; pb_slug := Some " tee "; pb_sku := Some "T-2";
       pb_description := None; pb_price := Some 30; pb_currency := None;
       pb_quantityInStock := Some (Str "7"); pb_inStock := None;
       pb_brandId := None; pb_productTypeId := None; pb_collectionIds := None |}
    catalogue
  = (json_fail 400 "Product with this slug or SKU already exists", catalogue).
Proof.
  apply (proj1 (taken_slug_or_sku_is_a_conflict Sample.Price Sample.price_truthy
                  Sample.fresh_id catalogue eq_refl))
    with (name := "Tee 2") (slug := " tee ") (sku := "T-2") (price := 30)
         (quantity := 7) (existing := shirt);
    try reflexivity.
  - left. reflexivity.
  - left. reflexivity.
Defined.

(** The styles of fit type [skinny], in either case. *)
Lemma fit_type_filter_ignores_case_witness :
  let list := styles_list Sample.Price Sample.contains_insensitive Sample.order_rows
                Sample.upper_unicode in
  list (with_fitType no_query "SKINNY") catalogue
  = list (with_fitType no_query "skinny") catalogue
  /\ data (fst (list (with_fitType no_query "skinny") catalogue))
     = Some (Styles Sample.Price [slim]).
Proof.
  intros list. split; [|reflexivity].
  exact (fit_type_filter_ignores_case Sample.Price Sample.contains_insensitive
           Sample.order_rows Sample.upper_unicode (with_fitType no_query "skinny")
           "skinny" catalogue eq_refl).
Defined.

(** A product created from its required members. *)
Lemma required_members_suffice_witness :
  let out := products_create Sample.Price Sample.price_truthy Sample.fresh_id
               (required_product Sample.Price " Cap " "cap" "C-1" 12) catalogue in
  let cap := {| product_id := "row10"; product_name := "Cap"; product_slug := "cap";
                product_sku := "C-1"; product_description := None;
                product_price := 12; product_currency := "USD";
                product_quantityInStock := 0; product_inStock := true;
                product_brandId := None; product_productTypeId := None |} in
  fst out = json_done 201 (Some (OneProduct Sample.Price cap))
              "Product created successfully"
  /\ fst (products_getBySlug Sample.Price "cap" (snd out))
     = json_data (Some (OneProduct Sample.Price cap)).
Proof.
  intros out cap.
  assert (Hfree : forall p, In p (products catalogue) ->
            product_slug Sample.Price p <> trim "cap"
            /\ product_sku Sample.Price p <> trim "C-1").
  { intros p [<-|[]]. split; discriminate. }
  destruct (proj1 (required_members_suffice Sample.Price Sample.price_truthy
                     Sample.fresh_id catalogue eq_refl)
              " Cap " "cap" "C-1" 12 eq_refl Hfree) as [Hanswer [_ Hslug]].
  split; [exact Hanswer|exact Hslug].
Defined.

(** Renaming the sample product with white space around the name. *)
Lemma updates_store_values_as_given_witness :
  let out := products_update Sample.Price (sample_update_members Sample.Price)
               "p1" (only_name Sample.Price " Tee ") []
               catalogue in
  status (fst out) = 200
  /\ map (product_name Sample.Price) (products (snd out)) = [" Tee "].
Proof.
  intros out.
  assert (Hfree : forall other, In other (products catalogue) ->
            product_id Sample.Price other <> "p1" ->
            product_slug Sample.Price other
            <> product_slug Sample.Price
                 (apply_product_patch Sample.Price (only_name Sample.Price " Tee ")
                    shirt)
            /\ product_sku Sample.Price other
               <> product_sku Sample.Price
                    (apply_product_patch Sample.Price
                       (only_name Sample.Price " Tee ") shirt)).
  { intros other [<-|[]] Hid. now contradiction Hid. }
  pose proof (proj1 (updates_store_values_as_given Sample.Price
              (sample_update_members Sample.Price) "p1" catalogue
                       eq_refl)
                (only_name Sample.Price " Tee ") shirt eq_refl eq_refl Hfree eq_refl)
    as Hrun.
  subst out. rewrite Hrun. split; reflexivity.
Defined.

(** The two pages of one colour each. *)
Lemma pages_cover_the_rows_witness :
  exists pages : list (list Color),
    List.length pages = 2%nat
    /\ data (fst (colors_list Sample.Price Sample.contains_insensitive
                    Sample.order_rows (at_page no_query 2 1) catalogue))
       = Some (Colors (nth 1 pages []))
    /\ List.concat pages = [red; blue].
Proof.
  destruct (pages_cover_the_rows Sample.Price Sample.parseFloat Sample.price_leb
              Sample.contains_insensitive Sample.order_rows Sample.upper_unicode)
    as [_ [_ [Hcolors _]]].
  destruct (Hcolors no_query catalogue 1 2%nat [red; blue] eq_refl) as
    [pages [Hlength [Hdata [_ Hall]]]]; [lia|reflexivity|].
  exists pages. split; [exact Hlength|]. split.
  - apply (Hdata 1%nat). lia.
  - apply Hall. cbn. lia.
Defined.

(** A variant without a SKU, while the database is down. *)
Lemma required_members_come_first_witness :
  variants_create Sample.Price Sample.fresh_id
    (required_variant "T-1-BLUE" "" "Tee - Blue" "Blue" "p1") offline
  = (json_fail 400
       "VariantId, SKU, fullVariantName, variantName, and productId are required",
     offline).
Proof.
  apply (proj1 (required_members_come_first Sample.Price Sample.price_truthy
                  Sample.fresh_id offline)).
  reflexivity.
Defined.


(** Looking up a colour that is stored. *)
Lemma lookups_answer_stored_rows_witness :
  snd (colors_get Sample.Price "c1" catalogue) = catalogue
  /\ exists c,
       In c (colors catalogue) /\ color_id c = "c1"
       /\ fst (colors_get Sample.Price "c1" catalogue) = json_data (Some (OneColor c)).
Proof.
  destruct (lookups_answer_stored_rows Sample.Price) as [_ [_ [_ [Hcolor _]]]].
  destruct (Hcolor "c1" catalogue eq_refl) as [Hstore [Hfound|[Hnone _]]].
  - split; [exact Hstore|exact Hfound].
  - exfalso. apply (Hnone red); [left|]; reflexivity.
Defined.

(** Listing the brands with an empty search text. *)
Lemma empty_filters_are_ignored_witness :
  let q := {| q_page := None; q_limit := None; q_search := Some "";
              q_brandId := None; q_productTypeId := None; q_productId := None;
              q_colorId := None; q_styleId := None; q_fitType := None;
              q_inStock := None; q_minPrice := None; q_maxPrice := None;
              q_sortBy := None; q_sortOrder := None |} in
  brands_list Sample.Price Sample.contains_insensitive Sample.order_rows
    no_query catalogue
  = brands_list Sample.Price Sample.contains_insensitive Sample.order_rows
      q catalogue.
Proof.
  intros q.
  destruct (empty_filters_are_ignored Sample.Price Sample.parseFloat Sample.price_leb
              Sample.contains_insensitive Sample.order_rows Sample.upper_unicode q catalogue)
    as [_ [_ [_ [_ [_ [_ [Hbrands _]]]]]]].
  exact Hbrands.
Defined.
